(** * opencode-consilium: the concurrent agent-invocation engine

    A shallow embedding of [agents.ts] (output decoder, retry controller,
    process launcher, fan-out coordinator, chair call), of the default chair
    prompt template of [defaults.ts] and of [Consilium.run] of [index.ts],
    followed by the properties of the engine; and of [Consilium.dryRun],
    of the pure functions of [config.ts] ([validateConfig],
    [createMinimalConfig], [extractAgentsFromOpenCode], [deepMerge]) and
    of [parseArgs] of [cli.ts], with their properties.

    JavaScript strings are sequences of UTF-16 code units; numbers that the
    engine uses as counts and millisecond delays are integers ([Z]).
    Asynchronous code is modelled by explicit worlds: a world fixes what
    the environment does (process events, the value of the cancellation
    flag when it is read, whether a hook throws, the completion order of
    concurrent promises), and every function of the engine is a total
    function of its arguments and its world.  A call ends by returning, by
    throwing, or with an exception that escapes an event handler; what a
    call does before it ends is recorded in a trace. *)

From Stdlib Require Import List ZArith NArith Bool Lia String Ascii Permutation.
Import ListNotations.

Set Implicit Arguments.
Set Warnings "-register-all,-notation-for-abbreviation".

(* ------------------------------------------------------------------ *)
(** * JavaScript strings *)

Module JS.

(** A string is its list of UTF-16 code units. *)
Definition jsstring := list N.

(** Decoding of the UTF-8 bytes of a source literal into code units
    (what the TypeScript compiler does with the literals of the source). *)
Fixpoint utf16_of_bytes (bs : list N) : jsstring :=
  match bs with
  | [] => []
  | b :: rest =>
    if (b <? 128)%N then b :: utf16_of_bytes rest
    else if (b <? 224)%N then
      match rest with
      | b2 :: r => ((b mod 32) * 64 + b2 mod 64)%N :: utf16_of_bytes r
      | _ => []
      end
    else if (b <? 240)%N then
      match rest with
      | b2 :: b3 :: r =>
        ((b mod 16) * 4096 + (b2 mod 64) * 64 + b3 mod 64)%N :: utf16_of_bytes r
      | _ => []
      end
    else
      match rest with
      | b2 :: b3 :: b4 :: r =>
        let cp := ((b mod 8) * 262144 + (b2 mod 64) * 4096
                   + (b3 mod 64) * 64 + b4 mod 64)%N in
        let u := (cp - 65536)%N in
        (55296 + u / 1024)%N :: (56320 + u mod 1024)%N :: utf16_of_bytes r
      | _ => []
      end
  end.

Definition utf16 (s : string) : jsstring :=
  utf16_of_bytes (map N_of_ascii (list_ascii_of_string s)).

(** Line feed and the double quote, which a literal cannot hold. *)
Definition nl : jsstring := [10%N].
Definition dq : jsstring := [34%N].

Fixpoint eqb (a b : jsstring) : bool :=
  match a, b with
  | [], [] => true
  | x :: a', y :: b' => (x =? y)%N && eqb a' b'
  | _, _ => false
  end.

(** ToBoolean on a string: the empty string is the only falsy one. *)
Definition nonEmpty (s : jsstring) : bool :=
  match s with [] => false | _ => true end.

(** ECMAScript WhiteSpace and LineTerminator code points, the characters
    that [String.prototype.trim] removes. *)
Definition isWhiteSpace (c : N) : bool :=
  ((c =? 9) || (c =? 10) || (c =? 11) || (c =? 12) || (c =? 13)
   || (c =? 32) || (c =? 160) || (c =? 5760)
   || ((8192 <=? c) && (c <=? 8202))
   || (c =? 8232) || (c =? 8233) || (c =? 8239) || (c =? 8287)
   || (c =? 12288) || (c =? 65279))%N.

Fixpoint trimStart (s : jsstring) : jsstring :=
  match s with
  | c :: r => if isWhiteSpace c then trimStart r else s
  | [] => []
  end.

Definition trimEnd (s : jsstring) : jsstring := rev (trimStart (rev s)).

Definition trim (s : jsstring) : jsstring := trimEnd (trimStart s).

(** [s.split('\n')]: always at least one piece. *)
Fixpoint split_nl (s : jsstring) : list jsstring :=
  match s with
  | [] => [[]]
  | c :: r =>
    if (c =? 10)%N then [] :: split_nl r
    else match split_nl r with
         | h :: t => (c :: h) :: t
         | [] => [[c]]
         end
  end.

(** [s.substring(0, n)] for an integer [n]: negative bounds count as 0. *)
Definition substring0 (s : jsstring) (n : Z) : jsstring :=
  firstn (Z.to_nat n) s.

(** [a.includes(b)] on strings: [b] occurs in [a] as a contiguous run. *)
Fixpoint startsWith (a b : jsstring) : bool :=
  match b, a with
  | [], _ => true
  | y :: b', x :: a' => (x =? y)%N && startsWith a' b'
  | _ :: _, [] => false
  end.

Fixpoint includes (a b : jsstring) : bool :=
  startsWith a b || match a with [] => false | _ :: a' => includes a' b end.

(** [String.prototype.toUpperCase] restricted to the ASCII range, where it
    maps a-z to A-Z and leaves every other code unit as it is.  Outside
    ASCII the built-in follows the Unicode case tables; the template below
    takes the conversion as a parameter and this function instantiates it
    on ASCII identities. *)
Definition toUpperCaseAscii (s : jsstring) : jsstring :=
  map (fun c => if ((97 <=? c) && (c <=? 122))%N then (c - 32)%N else c) s.

End JS.

Import JS.

(* ------------------------------------------------------------------ *)
(** * JavaScript values read from JSON *)

Module Json.

(** The values [JSON.parse] can return, and [undefined], which property
    access adds.  A number is kept as the decimal [m * 10^e] of its
    lexeme; the value is the double nearest to it. *)
Inductive JsValue : Type :=
| VUndefined
| VNull
| VBool (b : bool)
| VNumber (m e : Z)
| VString (s : jsstring)
| VArray (items : list JsValue)
| VObject (fields : list (jsstring * JsValue)).

(** Own property lookup; of two members with one key [JSON.parse] keeps
    the later one. *)
Fixpoint lookupLast (k : jsstring) (fields : list (jsstring * JsValue))
  : option JsValue :=
  match fields with
  | [] => None
  | (k', v) :: rest =>
    match lookupLast k rest with
    | Some w => Some w
    | None => if JS.eqb k k' then Some v else None
    end
  end.

(** [v.k] for the keys the decoder reads ([type], [part], [text], none of
    which a built-in prototype defines): [None] is the TypeError of a
    property access on [null] or [undefined]. *)
Definition getMember (v : JsValue) (k : jsstring) : option JsValue :=
  match v with
  | VUndefined | VNull => None
  | VObject fields =>
    match lookupLast k fields with
    | Some w => Some w
    | None => Some VUndefined
    end
  | _ => Some VUndefined
  end.

(** [v?.k]: [undefined] on [null] and [undefined], never a throw. *)
Definition getMemberOpt (v : JsValue) (k : jsstring) : JsValue :=
  match getMember v k with
  | Some w => w
  | None => VUndefined
  end.

(** The double nearest to [m * 10^e] is zero exactly when [m = 0] or
    [|m| * 10^e <= 2^-1075] (half of the least subnormal; the tie goes to
    the even neighbour, which is zero). *)
Definition numberIsZero (m e : Z) : bool :=
  ((m =? 0) || ((e <? 0) && (Z.abs m * 2 ^ 1075 <=? 10 ^ (- e))))%Z.

(** ToBoolean. *)
Definition truthy (v : JsValue) : bool :=
  match v with
  | VUndefined | VNull => false
  | VBool b => b
  | VNumber m e => negb (numberIsZero m e)
  | VString s => nonEmpty s
  | VArray _ | VObject _ => true
  end.

(** [v === 'text'] and the like. *)
Definition strictEqualsString (v : JsValue) (s : jsstring) : bool :=
  match v with
  | VString t => JS.eqb t s
  | _ => false
  end.

Fixpoint joinWith (sep : jsstring) (parts : list jsstring) : jsstring :=
  match parts with
  | [] => []
  | [p] => p
  | p :: rest => p ++ sep ++ joinWith sep rest
  end.

(** All the values of a list of results, if none failed. *)
Fixpoint allSome {A : Type} (l : list (option A)) : option (list A) :=
  match l with
  | [] => Some []
  | Some a :: rest => option_map (cons a) (allSome rest)
  | None :: _ => None
  end.

Section ToString.

(** Number::toString (shortest round-trip decimal) is a built-in of the
    platform. *)
Variable numberToString : Z -> Z -> jsstring.

(** ToString, as [Array.prototype.join] applies it to an element:
    [undefined] and [null] give the empty string, an array the join of its
    elements.  An object goes through [Object.prototype.toString] unless
    it has a member of its own called [toString]: a value read from JSON is
    never callable, [valueOf] does not give a primitive either, and the
    conversion throws a TypeError ([None]). *)
Fixpoint elementToString (v : JsValue) : option jsstring :=
  match v with
  | VUndefined | VNull => Some []
  | VBool true => Some (utf16 "true")
  | VBool false => Some (utf16 "false")
  | VNumber m e => Some (numberToString m e)
  | VString s => Some s
  | VArray items =>
    option_map (joinWith (utf16 ",")) (allSome (map elementToString items))
  | VObject fields =>
    match lookupLast (utf16 "toString") fields with
    | Some _ => None
    | None => Some (utf16 "[object Object]")
    end
  end.

End ToString.

(** ** A reference reader for the JSON grammar (ECMA-404), standing for the
    built-in [JSON.parse] on concrete inputs. *)

Definition isJsonWs (c : N) : bool :=
  ((c =? 9) || (c =? 10) || (c =? 13) || (c =? 32))%N.

Fixpoint skipWs (s : jsstring) : jsstring :=
  match s with
  | c :: r => if isJsonWs c then skipWs r else s
  | [] => []
  end.

Definition isDigit (c : N) : bool := ((48 <=? c) && (c <=? 57))%N.

Definition hexVal (c : N) : option N :=
  if isDigit c then Some (c - 48)%N
  else if ((65 <=? c) && (c <=? 70))%N then Some (c - 55)%N
  else if ((97 <=? c) && (c <=? 102))%N then Some (c - 87)%N
  else None.

Definition hex4 (a b c d : N) : option N :=
  match hexVal a, hexVal b, hexVal c, hexVal d with
  | Some x, Some y, Some z, Some w => Some (x * 4096 + y * 256 + z * 16 + w)%N
  | _, _, _, _ => None
  end.

Definition consTo (c : N) (r : option (jsstring * jsstring))
  : option (jsstring * jsstring) :=
  match r with
  | Some (body, rest) => Some (c :: body, rest)
  | None => None
  end.

(** The characters of a string after its opening quote. *)
Fixpoint readStringBody (s : jsstring) : option (jsstring * jsstring) :=
  match s with
  | [] => None
  | c :: r =>
    if (c =? 34)%N then Some ([], r)
    else if (c =? 92)%N then
      match r with
      | e :: r' =>
        if (e =? 34)%N then consTo 34%N (readStringBody r')
        else if (e =? 92)%N then consTo 92%N (readStringBody r')
        else if (e =? 47)%N then consTo 47%N (readStringBody r')
        else if (e =? 98)%N then consTo 8%N (readStringBody r')
        else if (e =? 102)%N then consTo 12%N (readStringBody r')
        else if (e =? 110)%N then consTo 10%N (readStringBody r')
        else if (e =? 114)%N then consTo 13%N (readStringBody r')
        else if (e =? 116)%N then consTo 9%N (readStringBody r')
        else if (e =? 117)%N then
          match r' with
          | h1 :: h2 :: h3 :: h4 :: r'' =>
            match hex4 h1 h2 h3 h4 with
            | Some u => consTo u (readStringBody r'')
            | None => None
            end
          | _ => None
          end
        else None
      | [] => None
      end
    else if (c <? 32)%N then None
    else consTo c (readStringBody r)
  end.

(** Leading digits: their value, how many there are, and the rest. *)
Fixpoint readDigits (s : jsstring) (acc : Z) (n : Z) : Z * Z * jsstring :=
  match s with
  | c :: r => if isDigit c then readDigits r (acc * 10 + Z.of_N (c - 48)) (n + 1)
              else (acc, n, s)
  | [] => (acc, n, s)
  end.

Definition readExponent (s : jsstring) : option (Z * jsstring) :=
  match s with
  | c :: r =>
    if ((c =? 101) || (c =? 69))%N then
      let '(sign, r1) :=
        match r with
        | 43%N :: r1 => (1%Z, r1)
        | 45%N :: r1 => ((-1)%Z, r1)
        | _ => (1%Z, r)
        end in
      let '(x, n, r2) := readDigits r1 0 0 in
      if (n =? 0)%Z then None else Some ((sign * x)%Z, r2)
    else Some (0%Z, s)
  | [] => Some (0%Z, s)
  end.

Definition readFraction (s : jsstring) (int : Z) : option (Z * Z * jsstring) :=
  match s with
  | 46%N :: r =>
    let '(x, n, r1) := readDigits r int 0 in
    if (n =? 0)%Z then None else Some (x, n, r1)
  | _ => Some (int, 0%Z, s)
  end.

Definition readNumber (s : jsstring) : option (JsValue * jsstring) :=
  let '(sign, s1) :=
    match s with
    | 45%N :: r => ((-1)%Z, r)
    | _ => (1%Z, s)
    end in
  match s1 with
  | c :: r =>
    if isDigit c then
      let '(int, r1) :=
        if (c =? 48)%N then (0%Z, r)
        else let '(x, _, r1) := readDigits s1 0 0 in (x, r1) in
      match readFraction r1 int with
      | Some (mant, nfrac, r2) =>
        match readExponent r2 with
        | Some (ex, r3) => Some (VNumber (sign * mant) (ex - nfrac), r3)
        | None => None
        end
      | None => None
      end
    else None
  | [] => None
  end.

Definition readLiteral (word : jsstring) (v : JsValue) (s : jsstring)
  : option (JsValue * jsstring) :=
  if startsWith s word then Some (v, skipn (List.length word) s) else None.

Fixpoint readValue (fuel : nat) (s : jsstring) {struct fuel}
  : option (JsValue * jsstring) :=
  match fuel with
  | O => None
  | S f =>
    match skipWs s with
    | [] => None
    | c :: r =>
      if (c =? 123)%N then
        match skipWs r with
        | 125%N :: r' => Some (VObject [], r')
        | _ => readMembers f r []
        end
      else if (c =? 91)%N then
        match skipWs r with
        | 93%N :: r' => Some (VArray [], r')
        | _ => readElements f r []
        end
      else if (c =? 34)%N then
        match readStringBody r with
        | Some (body, r') => Some (VString body, r')
        | None => None
        end
      else if (c =? 116)%N then readLiteral (utf16 "true") (VBool true) (c :: r)
      else if (c =? 102)%N then readLiteral (utf16 "false") (VBool false) (c :: r)
      else if (c =? 110)%N then readLiteral (utf16 "null") VNull (c :: r)
      else readNumber (c :: r)
    end
  end
with readElements (fuel : nat) (s : jsstring) (acc : list JsValue) {struct fuel}
  : option (JsValue * jsstring) :=
  match fuel with
  | O => None
  | S f =>
    match readValue f s with
    | Some (v, r) =>
      match skipWs r with
      | 44%N :: r' => readElements f r' (acc ++ [v])
      | 93%N :: r' => Some (VArray (acc ++ [v]), r')
      | _ => None
      end
    | None => None
    end
  end
with readMembers (fuel : nat) (s : jsstring) (acc : list (jsstring * JsValue))
  {struct fuel} : option (JsValue * jsstring) :=
  match fuel with
  | O => None
  | S f =>
    match skipWs s with
    | 34%N :: r =>
      match readStringBody r with
      | Some (key, r1) =>
        match skipWs r1 with
        | 58%N :: r2 =>
          match readValue f r2 with
          | Some (v, r3) =>
            match skipWs r3 with
            | 44%N :: r4 => readMembers f r4 (acc ++ [(key, v)])
            | 125%N :: r4 => Some (VObject (acc ++ [(key, v)]), r4)
            | _ => None
            end
          | None => None
          end
        | _ => None
        end
      | None => None
      end
    | _ => None
    end
  end.

(** [JSON.parse text]: [None] is the SyntaxError.  Every recursive call
    consumes a character, so the length of the text bounds the depth. *)
Definition jsonParse (text : jsstring) : option JsValue :=
  match readValue (S (List.length text)) text with
  | Some (v, rest) =>
    match skipWs rest with
    | [] => Some v
    | _ => None
    end
  | None => None
  end.

End Json.

Import Json.

(* ------------------------------------------------------------------ *)
(** * types.ts *)

Module Types.

Inductive ErrorCode : Type := TIMEOUT | EMPTY_RESPONSE | SPAWN_ERROR | PARSE_ERROR.

(** [AgentResult]; an optional field is an [option]. *)
Record AgentResult : Type := mkAgentResult {
  agent : jsstring;
  text : jsstring;
  success : bool;
  duration : option Z;
  errorCode : option ErrorCode;
  attempt : option nat
}.

Definition withDuration (r : AgentResult) (d : Z) : AgentResult :=
  {| agent := agent r; text := text r; success := success r;
     duration := Some d; errorCode := errorCode r; attempt := attempt r |}.

(** [ExpertConfig.prompt]: a string or a function of the task. *)
Inductive Prompt : Type :=
| PromptString (s : jsstring)
| PromptFunction (f : jsstring -> jsstring).

Record ExpertConfig : Type := mkExpert {
  name : jsstring;
  prompt : option Prompt;
  expertTimeout : option Z;        (* [timeout] *)
  retries : option Z;
  priority : option Z;
  enabled : option bool
}.

Record ChairConfig : Type := mkChair {
  chairAgent : jsstring;           (* [agent] *)
  chairTimeout : option Z;         (* [timeout] *)
  promptTemplate : option (jsstring -> list AgentResult -> jsstring);
  maxExpertTextLength : option Z
}.

(** [ConsiliumHooks]: a hook is caller code, so the record only says which
    hooks are defined; what a call of a hook does is part of the world. *)
Record ConsiliumHooks : Type := mkHooks {
  onStart : bool;
  onExpertStart : bool;
  onExpertEnd : bool;
  onExpertError : bool;
  onChairStart : bool;
  onChairEnd : bool;
  onChairError : bool;
  onEnd : bool;
  onError : bool
}.

Record TimeoutConfig : Type := mkTimeouts {
  timeoutExpert : Z;               (* [timeouts.expert] *)
  timeoutChair : Z;                (* [timeouts.chair] *)
  timeoutShutdown : Z              (* [timeouts.shutdown] *)
}.

Record RetryConfig : Type := mkRetry {
  expertRetries : Z;
  chairRetries : Z;
  delay : Z;
  exponentialBackoff : bool
}.

Inductive OutputFormat : Type := FormatText | FormatMarkdown | FormatJson.

Record OutputConfig : Type := mkOutput {
  file : option jsstring;          (* [false] is [None] *)
  format : OutputFormat
}.

Record ConsiliumConfig : Type := mkConfig {
  experts : list ExpertConfig;
  chair : ChairConfig;
  timeouts : TimeoutConfig;
  retry : RetryConfig;
  output : OutputConfig;
  hooks : option ConsiliumHooks
}.

Record ConsiliumResult : Type := mkResult {
  resultText : jsstring;           (* [text] *)
  resultExperts : list AgentResult; (* [experts] *)
  resultChair : AgentResult;       (* [chair] *)
  totalTime : Z;
  parallelTime : Z;
  resultSuccess : bool;            (* [success] *)
  metadata : option (list (jsstring * JsValue))
}.

(** [RunOptions]; field [x] of the source is [optX] here. *)
Record RunOptions : Type := mkRunOptions {
  optExperts : option (list jsstring);
  optChair : option jsstring;
  optTimeout : option Z;
  optOutputFile : option jsstring;
  optHooks : option ConsiliumHooks;
  optMetadata : option (list (jsstring * JsValue))
}.

Inductive ConsiliumStatus : Type :=
| idle | running_experts | running_chair | completed | failed | cancelled.

(** What a call can throw. *)
Inductive Err : Type :=
| AlreadyRunning (s : ConsiliumStatus)   (* 'Consilium уже запущен' *)
| CliNotFound                            (* 'OpenCode CLI не найден' *)
| NoActiveExperts                        (* 'Нет активных экспертов' *)
| TypeError                              (* of a failed string conversion *)
| Raised.                                (* thrown by caller code or by I/O *)

(** How a call ends: it returns, it throws (an asynchronous call rejects),
    or an exception escapes an event handler.  In the last case the promise
    the handler was to resolve stays pending for ever and the exception is
    uncaught (by default the Node process exits): nothing that waits for
    the call goes on, and no [catch] block sees the exception. *)
Inductive Completion (A : Type) : Type :=
| Returned (a : A)
| Thrown (e : Err)
| Uncaught.

Arguments Thrown {A} e.
Arguments Uncaught {A}.

End Types.

Import Types.

(* ------------------------------------------------------------------ *)
(** * The built-ins the engine calls *)

Record Platform : Type := mkPlatform {
  (** [JSON.parse]; [None] is the SyntaxError. *)
  JSON_parse : jsstring -> option JsValue;
  (** Number::toString. *)
  numberToString : Z -> Z -> jsstring;
  (** [String.prototype.toUpperCase]. *)
  toUpperCase : jsstring -> jsstring;
  (** [template.replace(/\$\{task\}/g, task)]. *)
  replaceTask : jsstring -> jsstring -> jsstring
}.

(* ------------------------------------------------------------------ *)
(** * defaults.ts *)

Module Defaults.

Section WithPlatform.

Variable P : Platform.

(** The loop body of the default chair template: one section per expert. *)
Definition expertSection (r : AgentResult) : jsstring :=
  let cleanText := substring0 (text r) 3000 in
  utf16 "### " ++ toUpperCase P (agent r) ++ nl ++ cleanText ++ nl ++ nl.

Fixpoint appendExperts (prompt : jsstring) (experts : list AgentResult)
  : jsstring :=
  match experts with
  | [] => prompt
  | r :: rest => appendExperts (prompt ++ expertSection r) rest
  end.

Definition DEFAULT_CHAIR_PROMPT_TEMPLATE (task : jsstring)
  (experts : list AgentResult) : jsstring :=
  let prompt := utf16 "Синтезируй мнения экспертов и составь итоговый план." ++ nl ++ nl in
  let prompt := prompt ++ (utf16 "## Задача" ++ nl ++ task ++ nl ++ nl) in
  let prompt := prompt ++ (utf16 "## Мнения экспертов" ++ nl) in
  let prompt := appendExperts prompt experts in
  let prompt := prompt ++ (utf16 "## Требования к ответу" ++ nl) in
  let prompt := prompt ++ (utf16 "1. **Резюме** (1-2 предложения)" ++ nl) in
  let prompt := prompt ++ (utf16 "2. **Топ-3 приоритетных действия** с обоснованием" ++ nl) in
  let prompt := prompt ++ (utf16 "3. **Главный риск** и митигация" ++ nl) in
  let prompt := prompt ++ utf16 "4. **Оценка трудозатрат** (если применимо)" in
  prompt.

Definition DEFAULT_EXPERTS : list ExpertConfig :=
  [ {| name := utf16 "arch"; prompt := None; expertTimeout := None;
       retries := None; priority := Some 1%Z; enabled := Some true |};
    {| name := utf16 "ux"; prompt := None; expertTimeout := None;
       retries := None; priority := Some 2%Z; enabled := Some true |};
    {| name := utf16 "ba"; prompt := None; expertTimeout := None;
       retries := None; priority := Some 3%Z; enabled := Some true |};
    {| name := utf16 "sec"; prompt := None; expertTimeout := None;
       retries := None; priority := Some 4%Z; enabled := Some true |} ].

Definition DEFAULT_CHAIR : ChairConfig :=
  {| chairAgent := utf16 "consilium"; chairTimeout := None;
     promptTemplate := Some DEFAULT_CHAIR_PROMPT_TEMPLATE;
     maxExpertTextLength := Some 3000%Z |}.

Definition DEFAULT_CONFIG : ConsiliumConfig :=
  {| experts := DEFAULT_EXPERTS;
     chair := DEFAULT_CHAIR;
     timeouts := {| timeoutExpert := 300000; timeoutChair := 600000;
                    timeoutShutdown := 5000 |};
     retry := {| expertRetries := 1; chairRetries := 1; delay := 1000;
                 exponentialBackoff := true |};
     output := {| file := Some (utf16 "consilium_result.txt");
                  format := FormatMarkdown |};
     hooks := None |}.

End WithPlatform.

(** [DEFAULT_EXPERT_PROMPTS[name] ?? DEFAULT_EXPERT_PROMPTS.default]: every
    entry is a function of the task (the names of the members of
    [Object.prototype] are not expert names). *)
Definition DEFAULT_EXPERT_PROMPTS (expertName : jsstring) (task : jsstring)
  : jsstring :=
  if JS.eqb expertName (utf16 "arch") then
    utf16 "Как архитектор, оцени задачу кратко (3-5 предложений): " ++ task
  else if JS.eqb expertName (utf16 "ux") then
    utf16 "Как UX-специалист, оцени задачу кратко (3-5 предложений): " ++ task
  else if JS.eqb expertName (utf16 "ba") then
    utf16 "Как бизнес-аналитик, оцени задачу кратко (3-5 предложений): " ++ task
  else if JS.eqb expertName (utf16 "sec") then
    utf16 "Как эксперт по безопасности, оцени задачу кратко (3-5 предложений): " ++ task
  else
    utf16 "Проанализируй задачу как эксперт (кратко, 3-5 предложений): " ++ task.

End Defaults.

(* ------------------------------------------------------------------ *)
(** * agents.ts *)

Module Agents.

(** ** The cancellation registry: the flag and the live process handles *)

Record Registry : Type := mkRegistry {
  cancelledFlag : bool;
  activeProcesses : list nat
}.

Definition cancel (g : Registry) : Registry :=
  {| cancelledFlag := true; activeProcesses := [] |}.

Definition resetCancel (g : Registry) : Registry :=
  {| cancelledFlag := false; activeProcesses := activeProcesses g |}.

Definition isCancelled (g : Registry) : bool := cancelledFlag g.

(** ** [calculateRetryDelay]

    [attempt] is never negative at the call site, where [Math.pow] and
    [Z.pow] agree. *)
Definition calculateRetryDelay (attempt : Z) (baseDelay : Z)
  (exponentialBackoff : bool) : Z :=
  if negb exponentialBackoff then baseDelay
  else (baseDelay * 2 ^ attempt)%Z.

(** ** What the world does during a launch *)

Inductive ProcEvent : Type :=
| StdoutData (chunk : jsstring)
| StderrData (chunk : jsstring)
| Close
| ProcError (message : jsstring)
| TimerFired.

(** The closure of one [callAgentOnce]: the two buffers, the [finished]
    guard, whether the child is in [activeProcesses], the value the
    promise was resolved with, and whether the close handler threw. *)
Record LaunchState : Type := mkLaunch {
  stdout : jsstring;
  stderr : jsstring;
  finished : bool;
  registered : bool;
  resolved : option AgentResult;
  handlerThrew : bool
}.

(** What one task invocation meets: the flag at the top of iteration [k],
    and for attempt [k] the events of its process, the measured
    [Date.now() - startTime] and whether the error hook throws. *)
Record CallWorld : Type := mkCallWorld {
  cancelledAtTop : nat -> bool;
  procEvents : nat -> list ProcEvent;
  elapsed : nat -> Z;
  errorHookThrows : nat -> bool
}.

(** What [callAgent] does, in order: it sleeps ([setTimeout] is called with
    the delay [ms] and awaited), it spawns the process of an attempt, the
    launch of an attempt settles with an outcome or its close handler
    throws, and the error hook is called. *)
Inductive Event : Type :=
| EvSleep (ms : Z)
| EvSpawn (agentName : jsstring) (attemptIndex : nat)
| EvSettle (attemptIndex : nat) (r : AgentResult)
| EvUncaught (attemptIndex : nat)
| EvHook (isChair : bool) (r : AgentResult).

Record CallOptions : Type := mkCallOptions {
  optionTimeout : option Z;
  optionRetries : option Z;
  optionIsChair : option bool
}.

Definition withDefault {A : Type} (o : option A) (d : A) : A :=
  match o with Some a => a | None => d end.

(** [x || d] on an optional number: [undefined] and [0] give [d]. *)
Definition orElse (o : option Z) (d : Z) : Z :=
  match o with
  | Some x => if (x =? 0)%Z then d else x
  | None => d
  end.

(** ** What the world does around one expert, and in which order the
    experts' promises settle *)

Record TaskWorld : Type := mkTaskWorld {
  startHookThrows : bool;
  callWorld : CallWorld;
  endHookThrows : bool
}.

(** The state of [Promise.all]: one slot per input promise, the count of
    those still pending, and the outcome once there is one. *)
Record AllState : Type := mkAll {
  values : list (option AgentResult);
  remaining : nat;
  outcome : option (Completion (list AgentResult))
}.

Fixpoint setNth {A : Type} (i : nat) (x : A) (l : list A) : list A :=
  match l, i with
  | [], _ => []
  | _ :: t, O => x :: t
  | h :: t, S j => h :: setNth j x t
  end.

Fixpoint collect {A : Type} (l : list (option A)) : list A :=
  match l with
  | [] => []
  | Some a :: t => a :: collect t
  | None :: t => collect t
  end.

Definition allInit (n : nat) : AllState :=
  {| values := repeat None n; remaining := n;
     outcome := if Nat.eqb n 0 then Some (Returned []) else None |}.

(** Promise [i] settles. *)
Definition allStep (st : AllState) (arrival : nat * Completion AgentResult)
  : AllState :=
  match outcome st with
  | Some _ => st
  | None =>
    match arrival with
    | (i, Returned v) =>
      let vs := setNth i (Some v) (values st) in
      let rem := pred (remaining st) in
      {| values := vs; remaining := rem;
         outcome := if Nat.eqb rem 0 then Some (Returned (collect vs)) else None |}
    | (_, Thrown e) =>
      {| values := values st; remaining := remaining st;
         outcome := Some (Thrown e) |}
    | (_, Uncaught) =>
      {| values := values st; remaining := remaining st;
         outcome := Some Uncaught |}
    end
  end.

Definition Promise_all (n : nat) (arrivals : list (nat * Completion AgentResult))
  : option (Completion (list AgentResult)) :=
  outcome (fold_left allStep arrivals (allInit n)).

(** Every promise settles exactly once.  A completion order is any list of
    indices: the promises it names settle in that order (a repeated or
    foreign index is dropped), the others after them in index order.  A
    permutation of [0 .. n-1] is its own schedule. *)
Fixpoint dedup (seen : list nat) (l : list nat) : list nat :=
  match l with
  | [] => []
  | i :: t =>
    if existsb (Nat.eqb i) seen then dedup seen t else i :: dedup (i :: seen) t
  end.

Definition schedule (n : nat) (order : list nat) : list nat :=
  let named := dedup [] (filter (fun i => Nat.ltb i n) order) in
  named ++ filter (fun i => negb (existsb (Nat.eqb i) named)) (seq 0 n).

Section WithPlatform.

Variable P : Platform.

(** ** [parseJsonOutput] *)

(** The body of the [try]: the element pushed for one trimmed line, if
    any.  A SyntaxError of [JSON.parse] and the TypeError of [event.type]
    on [null] are caught. *)
Definition decodeLine (trimmed : jsstring) : option JsValue :=
  match JSON_parse P trimmed with
  | None => None
  | Some event =>
    match getMember event (utf16 "type") with
    | None => None
    | Some ty =>
      if strictEqualsString ty (utf16 "text") then
        let payload := getMemberOpt (getMemberOpt event (utf16 "part")) (utf16 "text") in
        if truthy payload then Some payload else None
      else None
    end
  end.

Fixpoint parseLoop (lines : list jsstring) (textParts : list JsValue)
  : list JsValue :=
  match lines with
  | [] => textParts
  | line :: rest =>
    let trimmed := trim line in
    if negb (nonEmpty trimmed) then parseLoop rest textParts
    else match decodeLine trimmed with
         | Some part => parseLoop rest (textParts ++ [part])
         | None => parseLoop rest textParts
         end
  end.

(** [textParts.join('')] is outside the [try]: the TypeError of a string
    conversion is thrown to the caller. *)
Definition parseJsonOutput (output : jsstring) : Completion jsstring :=
  let lines := split_nl (trim output) in
  let textParts := parseLoop lines [] in
  match allSome (map (elementToString (numberToString P)) textParts) with
  | Some parts => Returned (joinWith [] parts)
  | None => Thrown TypeError
  end.

(** ** [buildPrompt] *)

Definition buildPrompt (expert : ExpertConfig) (task : jsstring) : jsstring :=
  match prompt expert with
  | Some (PromptFunction f) => f task
  | Some (PromptString s) =>
    if nonEmpty s then replaceTask P s task
    else Defaults.DEFAULT_EXPERT_PROMPTS (name expert) task
  | None => Defaults.DEFAULT_EXPERT_PROMPTS (name expert) task
  end.

(** ** [callAgentOnce] *)

Definition timeoutResult (agentName : jsstring) (attemptIndex : nat)
  : AgentResult :=
  {| agent := agentName;
     text := utf16 "[Таймаут " ++ agentName ++ utf16 "]";
     success := false; duration := None;
     errorCode := Some TIMEOUT; attempt := Some attemptIndex |}.

(** What the close handler resolves the promise with, once the output is
    decoded. *)
Definition decodedResult (agentName : jsstring) (attemptIndex : nat)
  (text err : jsstring) : AgentResult :=
  if negb (nonEmpty text) then
    let errorDetails :=
      if nonEmpty err then utf16 " stderr: " ++ substring0 err 500 else [] in
    {| agent := agentName;
       text := utf16 "[Агент " ++ agentName ++ utf16 " не вернул текст]" ++ errorDetails;
       success := false; duration := None;
       errorCode := Some EMPTY_RESPONSE; attempt := Some attemptIndex |}
  else
    {| agent := agentName; text := text; success := true; duration := None;
       errorCode := None; attempt := Some attemptIndex |}.

(** The close handler from [parseJsonOutput(stdout)] on: [None] when the
    decoder throws, which nothing in the handler catches. *)
Definition closeResult (agentName : jsstring) (attemptIndex : nat)
  (out err : jsstring) : option AgentResult :=
  match parseJsonOutput out with
  | Returned text => Some (decodedResult agentName attemptIndex text err)
  | _ => None
  end.

Definition errorResult (agentName : jsstring) (attemptIndex : nat)
  (message : jsstring) : AgentResult :=
  {| agent := agentName;
     text := utf16 "[Ошибка: " ++ message ++ utf16 "]";
     success := false; duration := None;
     errorCode := Some SPAWN_ERROR; attempt := Some attemptIndex |}.

(** [resolve(r)]: only the first call settles the promise. *)
Definition resolveWith (st : LaunchState) (r : AgentResult) : option AgentResult :=
  match resolved st with
  | Some r0 => Some r0
  | None => Some r
  end.

(** One handler runs. *)
Definition launchStep (agentName : jsstring) (attemptIndex : nat)
  (st : LaunchState) (ev : ProcEvent) : LaunchState :=
  match ev with
  | StdoutData chunk =>
    {| stdout := stdout st ++ chunk; stderr := stderr st;
       finished := finished st; registered := registered st;
       resolved := resolved st; handlerThrew := handlerThrew st |}
  | StderrData chunk =>
    {| stdout := stdout st; stderr := stderr st ++ chunk;
       finished := finished st; registered := registered st;
       resolved := resolved st; handlerThrew := handlerThrew st |}
  | TimerFired =>
    if finished st then st
    else {| stdout := stdout st; stderr := stderr st;
            finished := true; registered := false;
            resolved := resolveWith st (timeoutResult agentName attemptIndex);
            handlerThrew := handlerThrew st |}
  | Close =>
    if finished st then st
    else
      match closeResult agentName attemptIndex (stdout st) (stderr st) with
      | Some r =>
        {| stdout := stdout st; stderr := stderr st;
           finished := true; registered := false;
           resolved := resolveWith st r;
           handlerThrew := handlerThrew st |}
      | None =>
        (* [finished] is set, the timer cleared and the child removed
           before the decoder is called *)
        {| stdout := stdout st; stderr := stderr st;
           finished := true; registered := false;
           resolved := resolved st; handlerThrew := true |}
      end
  | ProcError message =>
    if finished st then st
    else {| stdout := stdout st; stderr := stderr st;
            finished := true; registered := false;
            resolved := resolveWith st (errorResult agentName attemptIndex message);
            handlerThrew := handlerThrew st |}
  end.

Definition launchInit : LaunchState :=
  {| stdout := []; stderr := []; finished := false; registered := true;
     resolved := None; handlerThrew := false |}.

(** The handlers run in the order of the events; the countdown timer stays
    armed until a handler clears it, so a launch whose events hold no
    [Close], [ProcError] or [TimerFired] ends when the timer fires. *)
Definition launchRun (agentName : jsstring) (attemptIndex : nat)
  (events : list ProcEvent) : LaunchState :=
  launchStep agentName attemptIndex
    (fold_left (launchStep agentName attemptIndex) events launchInit)
    TimerFired.

Definition callAgentOnce (agentName : jsstring) (promptText : jsstring)
  (timeoutMs : Z) (attemptIndex : nat) (events : list ProcEvent)
  : Completion AgentResult :=
  let final := launchRun agentName attemptIndex events in
  if handlerThrew final then Uncaught
  else Returned (withDefault (resolved final)
                             (timeoutResult agentName attemptIndex)).

(** ** [callAgent] *)

Definition cancelledResult (agentName : jsstring) (attemptIndex : nat)
  : AgentResult :=
  {| agent := agentName; text := utf16 "[Отменено]"; success := false;
     duration := None; errorCode := Some TIMEOUT;
     attempt := Some attemptIndex |}.

Definition exhaustedResult (agentName : jsstring) : AgentResult :=
  {| agent := agentName; text := utf16 "[Все попытки исчерпаны]";
     success := false; duration := None; errorCode := Some TIMEOUT;
     attempt := None |}.

(** [config.hooks] and then [isChair ? onChairError : onExpertError]. *)
Definition errorHookDefined (config : ConsiliumConfig) (isChair : bool) : bool :=
  match hooks config with
  | Some h => if isChair then onChairError h else onExpertError h
  | None => false
  end.

Definition prepend {A : Type} (evs : list Event) (r : list Event * A)
  : list Event * A :=
  (evs ++ fst r, snd r).

Section Loop.

Variables (agentName promptText : jsstring) (config : ConsiliumConfig)
          (timeout : Z) (isChair : bool) (w : CallWorld).

(** The [for] loop from iteration [attemptIndex] on, with
    [remaining = maxAttempts - attemptIndex] iterations left. *)
Fixpoint callAgentLoop (remaining : nat) (attemptIndex : nat)
  (lastError : option AgentResult) {struct remaining}
  : list Event * Completion AgentResult :=
  match remaining with
  | O => ([], Returned (withDefault lastError (exhaustedResult agentName)))
  | S remaining' =>
    if cancelledAtTop w attemptIndex then
      ([], Returned (cancelledResult agentName attemptIndex))
    else
      let sleep :=
        if Nat.ltb 0 attemptIndex then
          [EvSleep (calculateRetryDelay (Z.of_nat attemptIndex - 1)
                      (delay (retry config))
                      (exponentialBackoff (retry config)))]
        else [] in
      match callAgentOnce agentName promptText timeout attemptIndex
              (procEvents w attemptIndex) with
      | Returned result =>
        let done := sleep ++ [EvSpawn agentName attemptIndex;
                              EvSettle attemptIndex result] in
        if success result then
          (done, Returned (withDuration result (elapsed w attemptIndex)))
        else if errorHookDefined config isChair then
          if errorHookThrows w attemptIndex then
            (done ++ [EvHook isChair result], Thrown Raised)
          else
            prepend (done ++ [EvHook isChair result])
              (callAgentLoop remaining' (S attemptIndex) (Some result))
        else
          prepend done (callAgentLoop remaining' (S attemptIndex) (Some result))
      | Thrown e =>
        (sleep ++ [EvSpawn agentName attemptIndex], Thrown e)
      | Uncaught =>
        (sleep ++ [EvSpawn agentName attemptIndex; EvUncaught attemptIndex],
         Uncaught)
      end
  end.

End Loop.

Definition callAgent (agentName promptText : jsstring)
  (config : ConsiliumConfig) (options : CallOptions) (w : CallWorld)
  : list Event * Completion AgentResult :=
  let timeout := withDefault (optionTimeout options) (timeoutExpert (timeouts config)) in
  let retries := withDefault (optionRetries options) (expertRetries (retry config)) in
  let isChair := withDefault (optionIsChair options) false in
  let maxAttempts := (retries + 1)%Z in
  callAgentLoop agentName promptText config timeout isChair w
    (Z.to_nat maxAttempts) 0 None.

(** ** [callExpertsParallel] *)

(** [e.enabled !== false] *)
Definition isEnabled (e : ExpertConfig) : bool :=
  match enabled e with
  | Some false => false
  | _ => true
  end.

Definition hookDefined (config : ConsiliumConfig)
  (which : ConsiliumHooks -> bool) : bool :=
  match hooks config with
  | Some h => which h
  | None => false
  end.

(** The asynchronous function mapped over the enabled experts. *)
Definition expertTask (task : jsstring) (config : ConsiliumConfig)
  (expert : ExpertConfig) (tw : TaskWorld) : Completion AgentResult :=
  let promptText := buildPrompt expert task in
  if hookDefined config onExpertStart && startHookThrows tw then Thrown Raised
  else
    match snd (callAgent (name expert) promptText config
                 {| optionTimeout := Some (orElse (expertTimeout expert)
                                             (timeoutExpert (timeouts config)));
                    optionRetries := Some (withDefault (retries expert)
                                             (expertRetries (retry config)));
                    optionIsChair := Some false |}
                 (callWorld tw)) with
    | Thrown e => Thrown e
    | Uncaught => Uncaught
    | Returned result =>
      if hookDefined config onExpertEnd && endHookThrows tw then Thrown Raised
      else Returned result
    end.

(** Promise [i] of [promises] settling, as [Promise.all] sees it. *)
Definition arrivalOf (task : jsstring) (config : ConsiliumConfig)
  (enabledExperts : list ExpertConfig) (worlds : nat -> TaskWorld) (i : nat)
  : list (nat * Completion AgentResult) :=
  match nth_error enabledExperts i with
  | Some expert => [(i, expertTask task config expert (worlds i))]
  | None => []
  end.

Definition callExpertsParallel (expertList : list ExpertConfig)
  (task : jsstring) (config : ConsiliumConfig)
  (worlds : nat -> TaskWorld) (order : list nat)
  : option (Completion (list AgentResult)) :=
  let enabledExperts := filter isEnabled expertList in
  let n := List.length enabledExperts in
  Promise_all n
    (flat_map (arrivalOf task config enabledExperts worlds) (schedule n order)).

(** ** [callChair] *)

(** The prompt [callChair] passes on: the custom template if the chair
    configuration has one, the default template otherwise. *)
Definition chairPrompt (expertResults : list AgentResult) (task : jsstring)
  (config : ConsiliumConfig) : jsstring :=
  match promptTemplate (chair config) with
  | Some template => template task expertResults
  | None => Defaults.DEFAULT_CHAIR_PROMPT_TEMPLATE P task expertResults
  end.

Definition callChair (expertResults : list AgentResult) (task : jsstring)
  (config : ConsiliumConfig) (tw : TaskWorld) : Completion AgentResult :=
  let promptText := chairPrompt expertResults task config in
  if hookDefined config onChairStart && startHookThrows tw then Thrown Raised
  else
    match snd (callAgent (chairAgent (chair config)) promptText config
                 {| optionTimeout := Some (orElse (chairTimeout (chair config))
                                             (timeoutChair (timeouts config)));
                    optionRetries := Some (chairRetries (retry config));
                    optionIsChair := Some true |}
                 (callWorld tw)) with
    | Thrown e => Thrown e
    | Uncaught => Uncaught
    | Returned result =>
      if hookDefined config onChairEnd && endHookThrows tw then Thrown Raised
      else Returned result
    end.

End WithPlatform.

End Agents.

(* ------------------------------------------------------------------ *)
(** * index.ts: the [Consilium] class *)

Module Index.

Import Agents.

(** The fields of an instance that [run] reads or writes. *)
Record Instance : Type := mkInstance {
  config : ConsiliumConfig;
  status : ConsiliumStatus;
  startTime : Z
}.

(** [new Consilium(config)] *)
Definition newConsilium (c : ConsiliumConfig) : Instance :=
  {| config := c; status := idle; startTime := 0%Z |}.

Definition getStatus (inst : Instance) : ConsiliumStatus := status inst.

Definition setStatus (inst : Instance) (s : ConsiliumStatus) : Instance :=
  {| config := config inst; status := s; startTime := startTime inst |}.

Definition setChairAgent (inst : Instance) (a : jsstring) : Instance :=
  let c := config inst in
  let ch := chair c in
  {| config := {| experts := experts c;
                  chair := {| chairAgent := a;
                              chairTimeout := chairTimeout ch;
                              promptTemplate := promptTemplate ch;
                              maxExpertTextLength := maxExpertTextLength ch |};
                  timeouts := timeouts c; retry := retry c;
                  output := output c; hooks := hooks c |};
     status := status inst; startTime := startTime inst |}.

(** [{...a, ...b}] on two hook records. *)
Definition spreadHooks (a b : option ConsiliumHooks) : ConsiliumHooks :=
  let get (f : ConsiliumHooks -> bool) :=
    match b with
    | Some hb => f hb
    | None => false
    end || match a with
           | Some ha => f ha
           | None => false
           end in
  {| onStart := get onStart; onExpertStart := get onExpertStart;
     onExpertEnd := get onExpertEnd; onExpertError := get onExpertError;
     onChairStart := get onChairStart; onChairEnd := get onChairEnd;
     onChairError := get onChairError; onEnd := get onEnd;
     onError := get onError |}.

(** [use(plugin)] *)
Definition use (inst : Instance) (pluginHooks : option ConsiliumHooks)
  : Instance :=
  match pluginHooks with
  | Some _ =>
    let c := config inst in
    {| config := {| experts := experts c; chair := chair c;
                    timeouts := timeouts c; retry := retry c;
                    output := output c;
                    hooks := Some (spreadHooks (hooks c) pluginHooks) |};
       status := status inst; startTime := startTime inst |}
  | None => inst
  end.

(** What the world does during one [run]. *)
Record RunWorld : Type := mkRunWorld {
  nowAtStart : Z;                       (* [Date.now()] at the start *)
  cliAvailable : bool;                  (* [checkOpenCodeAvailable()] *)
  onStartThrows : bool;
  expertWorlds : nat -> TaskWorld;
  completionOrder : list nat;
  cancelledAfterExperts : bool;         (* [isCancelled()] after the experts *)
  chairWorld : TaskWorld;
  cancelledAfterChair : bool;           (* [isCancelled()] after the chair *)
  nowAtEnd : Z;                         (* [Date.now()] when the result is built *)
  saveThrows : bool;
  onEndThrows : bool;
  onErrorThrows : bool
}.

(** [createCancelledResult(experts, chair?)] *)
Definition createCancelledResult (inst : Instance) (now : Z)
  (expertResults : list AgentResult) (chairResult : option AgentResult)
  : ConsiliumResult :=
  {| resultText := utf16 "[Консилиум отменён]";
     resultExperts := expertResults;
     resultChair :=
       withDefault chairResult
         {| agent := chairAgent (chair (config inst));
            text := utf16 "[Отменено]"; success := false;
            duration := None; errorCode := None; attempt := None |};
     totalTime := (now - startTime inst)%Z;
     parallelTime := 0%Z;
     resultSuccess := false;
     metadata := Some [(utf16 "cancelled", VBool true)] |}.

(** [expertResults.reduce((max, r) => Math.max(max, r.duration || 0), 0)] *)
Definition maxDuration (expertResults : list AgentResult) : Z :=
  fold_left (fun acc r => Z.max acc (withDefault (duration r) 0%Z))
            expertResults 0%Z.

Fixpoint nameIn (names : list jsstring) (n : jsstring) : bool :=
  match names with
  | [] => false
  | m :: rest => JS.eqb m n || nameIn rest n
  end.

(** The experts [run] asks: those named in the options if there are any
    names, the enabled ones of the configuration otherwise. *)
Definition selectExperts (inst : Instance) (options : RunOptions)
  : list ExpertConfig :=
  match optExperts options with
  | Some names =>
    filter (fun e => nameIn names (name e)) (experts (config inst))
  | None => filter isEnabled (experts (config inst))
  end.

Section WithPlatform.

Variable P : Platform.

(** The [catch] block of [run]. *)
Definition runCatch (inst : Instance) (hooksMerged : ConsiliumHooks)
  (w : RunWorld) (e : Err) : Instance * Completion ConsiliumResult :=
  let inst := setStatus inst failed in
  if onError hooksMerged && onErrorThrows w then (inst, Thrown Raised)
  else (inst, Thrown e).

(** The [try] block of [run] from the chair call on. *)
Definition runChair (inst : Instance) (task : jsstring) (options : RunOptions)
  (hooksMerged : ConsiliumHooks) (w : RunWorld)
  (expertResults : list AgentResult)
  : Instance * Completion ConsiliumResult :=
  let inst := setStatus inst running_chair in
  let chairName :=
    match optChair options with
    | Some a => if nonEmpty a then a else chairAgent (chair (config inst))
    | None => chairAgent (chair (config inst))
    end in
  let originalChairAgent := chairAgent (chair (config inst)) in
  let inst := setChairAgent inst chairName in
  match callChair P expertResults task (config inst) (chairWorld w) with
  | Thrown e => runCatch inst hooksMerged w e
  | Uncaught => (inst, Uncaught)
  | Returned chairResult =>
    let inst := setChairAgent inst originalChairAgent in
    if cancelledAfterChair w then
      let inst := setStatus inst cancelled in
      (inst, Returned (createCancelledResult inst (nowAtEnd w) expertResults
                         (Some chairResult)))
    else
      let inst := setStatus inst completed in
      let result :=
        {| resultText := text chairResult;
           resultExperts := expertResults;
           resultChair := chairResult;
           totalTime := (nowAtEnd w - startTime inst)%Z;
           parallelTime := maxDuration expertResults;
           resultSuccess := success chairResult;
           metadata := optMetadata options |} in
      let saving :=
        match optOutputFile options, file (output (config inst)) with
        | Some _, Some f => nonEmpty f
        | _, _ => false
        end in
      if saving && saveThrows w then runCatch inst hooksMerged w Raised
      else if onEnd hooksMerged && onEndThrows w then
        runCatch inst hooksMerged w Raised
      else (inst, Returned result)
  end.

(** [run(task, options)]: the instance afterwards and how the call ends;
    [None] if it never settles. *)
Definition run (inst : Instance) (task : jsstring) (options : RunOptions)
  (w : RunWorld) : option (Instance * Completion ConsiliumResult) :=
  match status inst with
  | idle =>
    (* resetCancel() *)
    let inst := {| config := config inst; status := running_experts;
                   startTime := nowAtStart w |} in
    if negb (cliAvailable w) then Some (inst, Thrown CliNotFound)
    else
      let hooksMerged := spreadHooks (hooks (config inst)) (optHooks options) in
      if onStart hooksMerged && onStartThrows w then
        Some (runCatch inst hooksMerged w Raised)
      else
        let expertList := selectExperts inst options in
        if Nat.eqb (List.length expertList) 0 then
          Some (runCatch inst hooksMerged w NoActiveExperts)
        else
          match callExpertsParallel P expertList task (config inst)
                  (expertWorlds w) (completionOrder w) with
          | None => None
          | Some (Thrown e) => Some (runCatch inst hooksMerged w e)
          | Some Uncaught => Some (inst, Uncaught)
          | Some (Returned expertResults) =>
            if cancelledAfterExperts w then
              let inst := setStatus inst cancelled in
              Some (inst, Returned (createCancelledResult inst (nowAtEnd w)
                                      expertResults None))
            else Some (runChair inst task options hooksMerged w expertResults)
          end
  | s => Some (inst, Thrown (AlreadyRunning s))
  end.

End WithPlatform.

(** ** The operations on an instance and on the registry it shares

    [runSimple] is [run]; [getConfig], [onProgress] and [dryRun] do not
    touch the status and stand with [getStatus]. *)

Inductive Op : Type :=
| OpRun (task : jsstring) (options : RunOptions) (w : RunWorld)
| OpCancel
| OpResetCancel
| OpUse (pluginHooks : option ConsiliumHooks)
| OpGetStatus.

(** One operation on the pair of an instance and the registry.  During
    the awaits of [run] anything may call [cancel], so the registry after
    a [run] is not determined by the call. *)
Inductive step (P : Platform) : Instance * Registry -> Op -> Instance * Registry -> Prop :=
| StepRun inst g task options w inst' c g' :
    run P inst task options w = Some (inst', c) ->
    step P (inst, g) (OpRun task options w) (inst', g')
| StepCancel inst g :
    step P (inst, g) OpCancel (inst, cancel g)
| StepResetCancel inst g :
    step P (inst, g) OpResetCancel (inst, resetCancel g)
| StepUse inst g h :
    step P (inst, g) (OpUse h) (use inst h, g)
| StepGetStatus inst g :
    step P (inst, g) OpGetStatus (inst, g).

Inductive steps (P : Platform) : Instance * Registry -> list Op -> Instance * Registry -> Prop :=
| StepsNil s : steps P s [] s
| StepsCons s op s' ops s'' :
    step P s op s' -> steps P s' ops s'' -> steps P s (op :: ops) s''.

End Index.

(* ------------------------------------------------------------------ *)
(** * A reference platform, for running the engine on concrete inputs *)

Module Reference.

(** Decimal digits of a natural number. *)
Fixpoint digitsFuel (fuel : nat) (n : N) (acc : jsstring) : jsstring :=
  match fuel with
  | O => acc
  | S f =>
    let acc' := (48 + n mod 10)%N :: acc in
    if (n <? 10)%N then acc' else digitsFuel f (n / 10)%N acc'
  end.

Definition digits (n : N) : jsstring := digitsFuel (S (N.to_nat (N.log2 n))) n [].

(** Number::toString on the integers [m * 10^e] with [0 <= e] and
    [|m * 10^e| <= 2^53], which print as their decimal digits.  On other
    numbers the built-in chooses the shortest decimal that reads back as
    the same double; the reference prints mantissa and exponent there and
    is not used on such numbers. *)
Definition numberToStringRef (m e : Z) : jsstring :=
  let v := (m * 10 ^ e)%Z in
  if ((0 <=? e) && (Z.abs v <=? 2 ^ 53))%Z then
    (if (v <? 0)%Z then utf16 "-" else []) ++ digits (Z.to_N (Z.abs v))
  else
    (if (m <? 0)%Z then utf16 "-" else []) ++ digits (Z.to_N (Z.abs m))
    ++ utf16 "e" ++ (if (e <? 0)%Z then utf16 "-" else [])
    ++ digits (Z.to_N (Z.abs e)).

(** [template.replace(/\$\{task\}/g, task)] for a task without [$], where
    the replacement text is the task itself.  [skip] counts the code units
    of a placeholder still to drop. *)
Fixpoint replaceFrom (template task : jsstring) (skip : nat) : jsstring :=
  match template with
  | [] => []
  | c :: rest =>
    match skip with
    | S k => replaceFrom rest task k
    | O =>
      if startsWith template (utf16 "${task}")
      then task ++ replaceFrom rest task 6
      else c :: replaceFrom rest task 0
    end
  end.

Definition replaceTaskRef (template task : jsstring) : jsstring :=
  replaceFrom template task 0.

Definition platform : Platform :=
  {| JSON_parse := jsonParse;
     numberToString := numberToStringRef;
     toUpperCase := toUpperCaseAscii;
     replaceTask := replaceTaskRef |}.

End Reference.

(* ------------------------------------------------------------------ *)
(** * The vocabulary of the specification *)

Module Spec.

Import Agents.

(** ** The decoder, in the words of the wire format *)

Section WithPlatform.

Variable P : Platform.

Definition isBlank (line : jsstring) : bool := negb (nonEmpty (trim line)).

(** A record is tagged as the text kind when its [type] is ['text']. *)
Definition taggedText (record : JsValue) : bool :=
  match getMember record (utf16 "type") with
  | Some ty => strictEqualsString ty (utf16 "text")
  | None => false
  end.

(** The nested payload of a record, [part.text]. *)
Definition payloadOf (record : JsValue) : JsValue :=
  getMemberOpt (getMemberOpt record (utf16 "part")) (utf16 "text").

(** The nested text payload of a record: the string itself; nothing when
    the payload is absent or falsy; the string conversion of any other
    value, [None] when there is no such conversion. *)
Definition nestedText (record : JsValue) : option jsstring :=
  if truthy (payloadOf record)
  then elementToString (numberToString P) (payloadOf record)
  else Some [].

(** What one line contributes. *)
Definition lineText (line : jsstring) : option jsstring :=
  if isBlank line then Some []
  else match JSON_parse P (trim line) with
       | None => Some []
       | Some record => if taggedText record then nestedText record else Some []
       end.

(** The text payload of a line: the payload of a parseable record tagged
    as the text kind when that payload is a string; nothing for a blank
    line, for a line that fails to parse and for any other record. *)
Definition textOfLine (line : jsstring) : jsstring :=
  if isBlank line then []
  else match JSON_parse P (trim line) with
       | None => []
       | Some record =>
         if taggedText record then
           match payloadOf record with
           | VString payload => payload
           | _ => []
           end
         else []
       end.

(** The text records of the stream carry text: the payload of each is a
    string, or is absent or falsy. *)
Definition carriesText (output : jsstring) : Prop :=
  forall line record,
    In line (split_nl (trim output)) ->
    isBlank line = false ->
    JSON_parse P (trim line) = Some record ->
    taggedText record = true ->
    (exists payload, payloadOf record = VString payload)
    \/ truthy (payloadOf record) = false.

(** The decoder returns a text for every input stream. *)
Definition decodesEveryStream : Prop :=
  forall output, exists text, parseJsonOutput P output = Returned text.

(** The decoded text of any stream; a payload without a string conversion
    makes the decoder throw. *)
Definition decodedText (output : jsstring) : Completion jsstring :=
  match allSome (map lineText (split_nl (trim output))) with
  | Some parts => Returned (List.concat parts)
  | None => Thrown TypeError
  end.

End WithPlatform.

(** ** Outcomes *)

(** The invariant of an invocation outcome. *)
Definition outcomeInvariant (r : AgentResult) : Prop :=
  success r = true -> errorCode r = None /\ text r <> [].

(** ** A launch whose process exits normally *)

Definition isData (ev : ProcEvent) : bool :=
  match ev with
  | StdoutData _ | StderrData _ => true
  | _ => false
  end.

(** The output captured from a run of data events. *)
Fixpoint stdoutOf (events : list ProcEvent) : jsstring :=
  match events with
  | [] => []
  | StdoutData chunk :: rest => chunk ++ stdoutOf rest
  | _ :: rest => stdoutOf rest
  end.

Fixpoint stderrOf (events : list ProcEvent) : jsstring :=
  match events with
  | [] => []
  | StderrData chunk :: rest => chunk ++ stderrOf rest
  | _ :: rest => stderrOf rest
  end.

(** ** The retry controller's trace *)

(** The attempts a trace performs: its process spawns. *)
Fixpoint attempts (trace : list Event) : nat :=
  match trace with
  | [] => 0
  | EvSpawn _ _ :: rest => S (attempts rest)
  | _ :: rest => attempts rest
  end.

Fixpoint sleeps (trace : list Event) : list Z :=
  match trace with
  | [] => []
  | EvSleep ms :: rest => ms :: sleeps rest
  | _ :: rest => sleeps rest
  end.

(** The delay the retry policy prescribes before attempt [k >= 1]. *)
Definition expectedDelay (config : ConsiliumConfig) (k : nat) : Z :=
  if exponentialBackoff (retry config)
  then (delay (retry config) * 2 ^ (Z.of_nat k - 1))%Z
  else delay (retry config).

Definition isSpawn (ev : Event) : bool :=
  match ev with
  | EvSpawn _ _ => true
  | _ => false
  end.

Definition isLaunchEvent (ev : Event) : bool :=
  match ev with
  | EvSpawn _ _ | EvSettle _ _ | EvUncaught _ => true
  | _ => false
  end.

(** What [callAgent] takes from its options and, by default, from the
    configuration. *)
Definition timeoutOf (config : ConsiliumConfig) (options : CallOptions) : Z :=
  withDefault (optionTimeout options) (timeoutExpert (timeouts config)).

Definition retriesOf (config : ConsiliumConfig) (options : CallOptions) : Z :=
  withDefault (optionRetries options) (expertRetries (retry config)).

Definition isChairOf (options : CallOptions) : bool :=
  withDefault (optionIsChair options) false.

Section Iterations.

Variables (P : Platform) (agentName promptText : jsstring)
          (config : ConsiliumConfig) (timeout : Z) (isChair : bool)
          (w : CallWorld).

(** How attempt [k] ends in world [w]. *)
Definition attemptOutcome (k : nat) : Completion AgentResult :=
  callAgentOnce P agentName promptText timeout k (procEvents w k).

(** How the launch of attempt [k] ends in the trace. *)
Definition launchEnd (k : nat) : list Event :=
  match attemptOutcome k with
  | Returned r => [EvSettle k r]
  | Thrown _ => []
  | Uncaught => [EvUncaught k]
  end.

(** What follows a launch that settled: the error hook after a failure, if
    one is configured. *)
Definition afterLaunch (k : nat) : list Event :=
  match attemptOutcome k with
  | Returned r =>
    if success r then []
    else if errorHookDefined config isChair then [EvHook isChair r] else []
  | _ => []
  end.

(** What a full iteration [k] of the attempt loop does: the backoff sleep
    (none before attempt 0), the launch and its end, and the error hook. *)
Definition iterationEvents (k : nat) : list Event :=
  (if Nat.eqb k 0 then [] else [EvSleep (expectedDelay config k)])
  ++ [EvSpawn agentName k] ++ launchEnd k ++ afterLaunch k.

(** Iteration [k] runs to its end and the loop goes on: the flag is clear
    at its top, the attempt settles with a failure, and the error hook does
    not throw. *)
Definition continues (k : nat) : bool :=
  negb (cancelledAtTop w k)
  && match attemptOutcome k with
     | Returned r =>
       negb (success r)
       && negb (errorHookDefined config isChair && errorHookThrows w k)
     | _ => false
     end.

End Iterations.

(** ** The state of [Promise.all] while its promises settle *)

Definition valueOf (c : Completion AgentResult) : option AgentResult :=
  match c with
  | Returned r => Some r
  | _ => None
  end.

Definition inb (i : nat) (l : list nat) : bool := existsb (Nat.eqb i) l.

Section PromiseAll.

Variables (n : nat) (task : nat -> Completion AgentResult).

(** The slots once the promises of [processed] have settled, all of them
    fulfilled. *)
Definition slots (processed : list nat) : list (option AgentResult) :=
  map (fun i => if inb i processed then valueOf (task i) else None) (seq 0 n).

(** The values of all promises, in index order. *)
Definition allValues : list AgentResult :=
  collect (map (fun i => valueOf (task i)) (seq 0 n)).

Definition fulfilled (i : nat) : Prop := exists r, task i = Returned r.

Definition allInvariant (processed : list nat) (st : AllState) : Prop :=
  match outcome st with
  | None =>
    List.length processed < n
    /\ (forall i, In i processed -> fulfilled i)
    /\ remaining st = n - List.length processed
    /\ values st = slots processed
  | Some (Returned rs) =>
    rs = allValues /\ (forall i, i < n -> fulfilled i)
  | Some (Thrown e) => exists i, In i processed /\ task i = Thrown e
  | Some Uncaught => exists i, In i processed /\ task i = Uncaught
  end.

End PromiseAll.

(** Promise [i] of the fan-out: the task of the [i]-th enabled expert. *)
Definition taskAt (P : Platform) (task : jsstring) (config : ConsiliumConfig)
  (enabledExperts : list ExpertConfig) (worlds : nat -> TaskWorld) (i : nat)
  : Completion AgentResult :=
  match nth_error enabledExperts i with
  | Some e => expertTask P task config e (worlds i)
  | None => Thrown Raised
  end.

(** ** The default chair input, as the fan-in example words it *)

(** The default input contains the identity and the text of every outcome,
    the text cut to the configured maximum length. *)
Definition containsIdentityAndText (P : Platform) (config : ConsiliumConfig)
  (task : jsstring) (results : list AgentResult) : Prop :=
  forall r, In r results ->
    includes (chairPrompt P results task config) (agent r) = true
    /\ includes (chairPrompt P results task config)
         (substring0 (text r)
            (withDefault (maxExpertTextLength (chair config)) 3000%Z)) = true.

(** The three lines of the literal stream of the wire-format example. *)
Definition textRecordLine (payload : jsstring) : jsstring :=
  utf16 "{" ++ dq ++ utf16 "type" ++ dq ++ utf16 ":" ++ dq ++ utf16 "text" ++ dq
  ++ utf16 "," ++ dq ++ utf16 "part" ++ dq ++ utf16 ":{" ++ dq ++ utf16 "text"
  ++ dq ++ utf16 ":" ++ dq ++ payload ++ dq ++ utf16 "}}".

Definition textRecord (payload : jsstring) : JsValue :=
  VObject [(utf16 "type", VString (utf16 "text"));
           (utf16 "part", VObject [(utf16 "text", VString payload)])].

Definition literalStream : jsstring :=
  textRecordLine (utf16 "A") ++ nl ++ utf16 "garbage" ++ nl
  ++ textRecordLine (utf16 "B").

(** A text record whose payload is an object with a [toString] member. *)
Definition stubbornLine : jsstring :=
  utf16 "{" ++ dq ++ utf16 "type" ++ dq ++ utf16 ":" ++ dq ++ utf16 "text" ++ dq
  ++ utf16 "," ++ dq ++ utf16 "part" ++ dq ++ utf16 ":{" ++ dq ++ utf16 "text"
  ++ dq ++ utf16 ":{" ++ dq ++ utf16 "toString" ++ dq ++ utf16 ":1}}}".

End Spec.
(* ------------------------------------------------------------------ *)
(** * Concrete rounds *)

Module Examples.

Import Agents Spec.

Definition config : ConsiliumConfig := Defaults.DEFAULT_CONFIG Reference.platform.

(** The default configuration with three retries and the error hook of
    the experts defined. *)
Definition patientConfig : ConsiliumConfig :=
  {| experts := experts config; chair := chair config;
     timeouts := timeouts config;
     retry := {| expertRetries := 3; chairRetries := 1; delay := 1000;
                 exponentialBackoff := true |};
     output := output config;
     hooks := Some {| onStart := false; onExpertStart := false;
                      onExpertEnd := false; onExpertError := true;
                      onChairStart := false; onChairEnd := false;
                      onChairError := false; onEnd := false;
                      onError := false |} |}.

Definition noOptions : CallOptions :=
  {| optionTimeout := None; optionRetries := None; optionIsChair := None |}.

(** The process prints one text record and exits. *)
Definition answering (payload : jsstring) : list ProcEvent :=
  [StdoutData (textRecordLine payload); StdoutData nl; Close].

(** The process prints something that is no record and exits. *)
Definition babbling : list ProcEvent :=
  [StdoutData (utf16 "garbage"); Close].

(** Every attempt answers [A]; nobody cancels. *)
Definition answeringWorld : CallWorld :=
  {| cancelledAtTop := fun _ => false;
     procEvents := fun _ => answering (utf16 "A");
     elapsed := fun _ => 42%Z;
     errorHookThrows := fun _ => false |}.

(** Every attempt fails; nobody cancels. *)
Definition failingWorld : CallWorld :=
  {| cancelledAtTop := fun _ => false;
     procEvents := fun _ => babbling;
     elapsed := fun _ => 42%Z;
     errorHookThrows := fun _ => false |}.

(** Every attempt fails, and the round is cancelled during the second
    attempt: the flag is set from the top of iteration 2 on. *)
Definition cancelledWorld : CallWorld :=
  {| cancelledAtTop := fun k => Nat.leb 2 k;
     procEvents := fun _ => babbling;
     elapsed := fun _ => 42%Z;
     errorHookThrows := fun _ => false |}.

(** Around every expert: no hook throws and the process answers [A]. *)
Definition answeringTask : TaskWorld :=
  {| startHookThrows := false; callWorld := answeringWorld;
     endHookThrows := false |}.

Definition noRunOptions : RunOptions :=
  {| optExperts := None; optChair := None; optTimeout := None;
     optOutputFile := None; optHooks := None; optMetadata := None |}.

(** A round in which every process answers and nobody cancels. *)
Definition quietRound : Index.RunWorld :=
  {| Index.nowAtStart := 1000; Index.cliAvailable := true;
     Index.onStartThrows := false;
     Index.expertWorlds := fun _ => answeringTask;
     Index.completionOrder := [2; 0; 3; 1];
     Index.cancelledAfterExperts := false;
     Index.chairWorld := answeringTask;
     Index.cancelledAfterChair := false;
     Index.nowAtEnd := 1500;
     Index.saveThrows := false; Index.onEndThrows := false;
     Index.onErrorThrows := false |}.

(** The same round, cancelled while the experts run. *)
Definition cancelledRound : Index.RunWorld :=
  {| Index.nowAtStart := 1000; Index.cliAvailable := true;
     Index.onStartThrows := false;
     Index.expertWorlds := fun _ => answeringTask;
     Index.completionOrder := [2; 0; 3; 1];
     Index.cancelledAfterExperts := true;
     Index.chairWorld := answeringTask;
     Index.cancelledAfterChair := true;
     Index.nowAtEnd := 1500;
     Index.saveThrows := false; Index.onEndThrows := false;
     Index.onErrorThrows := false |}.

(** A round on a machine without the OpenCode CLI. *)
Definition roundWithoutCli : Index.RunWorld :=
  {| Index.nowAtStart := 1000; Index.cliAvailable := false;
     Index.onStartThrows := false;
     Index.expertWorlds := fun _ => answeringTask;
     Index.completionOrder := [];
     Index.cancelledAfterExperts := false;
     Index.chairWorld := answeringTask;
     Index.cancelledAfterChair := false;
     Index.nowAtEnd := 1500;
     Index.saveThrows := false; Index.onEndThrows := false;
     Index.onErrorThrows := false |}.

(** The two outcomes of the fan-in example. *)
Definition outcomeOf (agentName answer : jsstring) : AgentResult :=
  {| agent := agentName; text := answer; success := true;
     duration := Some 42%Z; errorCode := None; attempt := Some 0 |}.

Definition twoOutcomes : list AgentResult :=
  [outcomeOf (utf16 "a") (utf16 "X"); outcomeOf (utf16 "b") (utf16 "Y")].

(** A configuration without a custom synthesis function, for a given
    [maxExpertTextLength]. *)
Definition plainChairConfig (limit : Z) : ConsiliumConfig :=
  {| experts := experts config;
     chair := {| chairAgent := utf16 "consilium"; chairTimeout := None;
                 promptTemplate := None;
                 maxExpertTextLength := Some limit |};
     timeouts := timeouts config; retry := retry config;
     output := output config; hooks := None |}.

End Examples.

(* ------------------------------------------------------------------ *)
(** * What a trace records about the error hook *)

Module Observed.

Import Agents.

(** The calls of the error hook in a trace: which of the two hooks was
    called ([true] is [onChairError]) and with which outcome. *)
Fixpoint hookCalls (trace : list Event) : list (bool * AgentResult) :=
  match trace with
  | [] => []
  | EvHook isChair r :: rest => (isChair, r) :: hookCalls rest
  | _ :: rest => hookCalls rest
  end.

(** The outcomes of the attempts of a trace that settled with a failure. *)
Fixpoint failedSettles (trace : list Event) : list AgentResult :=
  match trace with
  | [] => []
  | EvSettle _ r :: rest =>
    if success r then failedSettles rest else r :: failedSettles rest
  | _ :: rest => failedSettles rest
  end.

End Observed.

(* ------------------------------------------------------------------ *)
(** * Points of a round *)

Module Rounds.

Import Agents Index.

(** The instance once [run] has passed its status check: the start time
    is taken and the status is ['running_experts']. *)
Definition started (inst : Instance) (w : RunWorld) : Instance :=
  {| config := config inst; status := running_experts;
     startTime := nowAtStart w |}.

(** [mergedOptions.chair || this.config.chair.agent] *)
Definition chosenChair (inst : Instance) (options : RunOptions) : jsstring :=
  match optChair options with
  | Some a => if nonEmpty a then a else chairAgent (chair (config inst))
  | None => chairAgent (chair (config inst))
  end.

(** The hooks of a round: [mergeHooks(mergedOptions.hooks)]. *)
Definition roundHooks (inst : Instance) (options : RunOptions) : ConsiliumHooks :=
  spreadHooks (hooks (config inst)) (optHooks options).

(** The same world, except for what writing the result file does. *)
Definition withSaveThrows (w : RunWorld) (b : bool) : RunWorld :=
  {| nowAtStart := nowAtStart w; cliAvailable := cliAvailable w;
     onStartThrows := onStartThrows w; expertWorlds := expertWorlds w;
     completionOrder := completionOrder w;
     cancelledAfterExperts := cancelledAfterExperts w;
     chairWorld := chairWorld w;
     cancelledAfterChair := cancelledAfterChair w;
     nowAtEnd := nowAtEnd w; saveThrows := b;
     onEndThrows := onEndThrows w; onErrorThrows := onErrorThrows w |}.

(** The configuration the chair is called with: the configured one with
    the chosen chair as its agent. *)
Definition chairConfig (inst : Instance) (options : RunOptions)
  : ConsiliumConfig :=
  config (setChairAgent inst (chosenChair inst options)).

(** A terminal status. *)
Definition isTerminal (s : ConsiliumStatus) : bool :=
  match s with
  | completed | failed | cancelled => true
  | _ => false
  end.

End Rounds.

(* ------------------------------------------------------------------ *)
(** * index.ts: [Consilium.dryRun] *)

Module DryRun.

Import Agents Index.

(** The prompt [dryRun] shows for an expert:
    [typeof expert.prompt === 'function' ? expert.prompt(task)
     : (expert.prompt?.replace(/\$\{task\}/g, task) || task)].
    The pattern matches nowhere in the empty string, whose replacement is
    the empty string. *)
Definition shownPrompt (P : Platform) (expert : ExpertConfig) (task : jsstring)
  : jsstring :=
  match prompt expert with
  | Some (PromptFunction f) => f task
  | Some (PromptString s) =>
    let replaced := if nonEmpty s then replaceTask P s task else [] in
    if nonEmpty replaced then replaced else task
  | None => task
  end.

Record DryRunResult : Type := mkDryRun {
  expertPrompts : list (jsstring * jsstring);   (* [{agent, prompt}] *)
  chairPromptTemplate : jsstring
}.

Definition dryRun (P : Platform) (inst : Instance) (task : jsstring)
  : DryRunResult :=
  let expertList := filter isEnabled (experts (config inst)) in
  {| expertPrompts := map (fun e => (name e, shownPrompt P e task)) expertList;
     chairPromptTemplate :=
       match promptTemplate (chair (config inst)) with
       | Some template => template task []
       | None => []
       end |}.

End DryRun.

(* ------------------------------------------------------------------ *)
(** * config.ts *)

Module Config.

Import Agents Index.

(** [EXCLUDED_AGENTS] of [defaults.ts]. *)
Definition EXCLUDED_AGENTS : list jsstring :=
  [utf16 "build"; utf16 "plan"; utf16 "compaction"; utf16 "summary";
   utf16 "title"; utf16 "explore"; utf16 "general"; utf16 "consilium"].

(** [l.map((x, index) => f(x, index))], the first index being [i]. *)
Fixpoint mapFrom {A B : Type} (f : A -> nat -> B) (i : nat) (l : list A)
  : list B :=
  match l with
  | [] => []
  | x :: rest => f x i :: mapFrom f (S i) rest
  end.

(** [l.filter((x, index) => f(x, index))], the first index being [i]. *)
Fixpoint filterFrom {A : Type} (f : A -> nat -> bool) (i : nat) (l : list A)
  : list A :=
  match l with
  | [] => []
  | x :: rest =>
    if f x i then x :: filterFrom f (S i) rest else filterFrom f (S i) rest
  end.

(** [names.indexOf(n)]; [None] is -1. *)
Fixpoint indexOf (names : list jsstring) (n : jsstring) : option nat :=
  match names with
  | [] => None
  | m :: rest => if JS.eqb m n then Some 0 else option_map S (indexOf rest n)
  end.

(** The object literal that [extractAgentsFromOpenCode] and
    [createMinimalConfig] build for a name: enabled, with the priority
    [index + 1] and the default prompt of the name (for a name that is no
    member of [Object.prototype], as in [Defaults]). *)
Definition expertNamed (expertName : jsstring) (index : nat) : ExpertConfig :=
  {| name := expertName;
     prompt := Some (PromptFunction (Defaults.DEFAULT_EXPERT_PROMPTS expertName));
     expertTimeout := None; retries := None;
     priority := Some (Z.of_nat index + 1)%Z;
     enabled := Some true |}.

(** ** [extractAgentsFromOpenCode] *)

(** [typeof v === 'object'] *)
Definition typeofObject (v : JsValue) : bool :=
  match v with
  | VNull | VArray _ | VObject _ => true
  | _ => false
  end.

Section ObjectKeys.

(** [Object.keys], a built-in. *)
Variable objectKeys : JsValue -> list jsstring.

Definition extractAgentsFromOpenCode (openCodeConfig : JsValue)
  (excludedAgents : list jsstring) : list ExpertConfig :=
  if negb (truthy openCodeConfig) || negb (typeofObject openCodeConfig) then []
  else
    let agentSection := getMemberOpt openCodeConfig (utf16 "agent") in
    if negb (truthy agentSection) || negb (typeofObject agentSection) then []
    else
      let agents := objectKeys agentSection in
      mapFrom expertNamed 0
        (filter (fun n => negb (nameIn excludedAgents n)) agents).

End ObjectKeys.

(** ** [validateConfig] *)

(** [names.filter((n, i) => names.indexOf(n) !== i)] *)
Definition duplicates (names : list jsstring) : list jsstring :=
  filterFrom (fun n i => match indexOf names n with
                         | Some j => negb (Nat.eqb j i)
                         | None => true
                         end) 0 names.

(** [config.experts] is an array here, which is truthy. *)
Definition validateConfig (config : ConsiliumConfig) : list jsstring :=
  let warnings := [] in
  let warnings :=
    if Nat.eqb (List.length (experts config)) 0
    then warnings ++ [utf16 "Список экспертов пуст. Добавьте хотя бы одного эксперта."]
    else warnings in
  let names := map name (experts config) in
  let dups := duplicates names in
  let warnings :=
    if Nat.ltb 0 (List.length dups)
    then warnings ++ [utf16 "Обнаружены дубликаты экспертов: "
                      ++ joinWith (utf16 ", ") dups]
    else warnings in
  let warnings :=
    if (timeoutExpert (timeouts config) <? 10000)%Z
    then warnings ++ [utf16 "Таймаут эксперта слишком маленький (< 10 сек). Возможны ложные таймауты."]
    else warnings in
  let warnings :=
    if (timeoutChair (timeouts config) <? 30000)%Z
    then warnings ++ [utf16 "Таймаут председателя слишком маленький (< 30 сек). Возможны ложные таймауты."]
    else warnings in
  let warnings :=
    if negb (nonEmpty (chairAgent (chair config)))
    then warnings ++ [utf16 "Не указан агент-председатель. Используется значение по умолчанию."]
    else warnings in
  warnings.

(** ** [createMinimalConfig] *)


(** ** [deepMerge]

    A value is [undefined], [null], an array, a plain object, or anything
    else (a string, a number, a boolean, a function), which the merge
    copies without looking inside.  Keys are taken to differ from
    [__proto__], the one key whose assignment and lookup go through the
    prototype; the order of the keys of the result plays no part below. *)

Section Merge.

Variable Atom : Type.

Inductive Tree : Type :=
| TUndefined
| TNull
| TAtom (a : Atom)
| TArray (items : list Tree)
| TObject (fields : list (jsstring * Tree)).

(** [o[k]] on own properties; [None] is [undefined] for a missing key. *)
Fixpoint lookup (k : jsstring) (fields : list (jsstring * Tree))
  : option Tree :=
  match fields with
  | [] => None
  | (k', v) :: rest => if JS.eqb k' k then Some v else lookup k rest
  end.

(** [o[k] = v] *)
Fixpoint setKey (k : jsstring) (v : Tree) (fields : list (jsstring * Tree))
  : list (jsstring * Tree) :=
  match fields with
  | [] => [(k, v)]
  | (k', v') :: rest =>
    if JS.eqb k' k then (k, v) :: rest else (k', v') :: setKey k v rest
  end.

(** The body of [deepMerge] on the own properties of a source object;
    the recursion is on the source value. *)
Fixpoint mergeInto (target : list (jsstring * Tree)) (source : Tree)
  {struct source} : list (jsstring * Tree) :=
  match source with
  | TObject sourceEntries =>
    (fix loop (entries result : list (jsstring * Tree)) {struct entries}
       : list (jsstring * Tree) :=
       match entries with
       | [] => result
       | (key, sourceValue) :: rest =>
         loop rest
           match sourceValue, lookup key target with
           | TObject _, Some (TObject targetFields) =>
             setKey key (TObject (mergeInto targetFields sourceValue)) result
           | TUndefined, _ => result
           | _, _ => setKey key sourceValue result
           end
       end) sourceEntries target
  | _ => target
  end.

Definition deepMerge (target source : list (jsstring * Tree))
  : list (jsstring * Tree) :=
  mergeInto target (TObject source).

(** What the loop body of [deepMerge] does with one own property of the
    source. *)
Definition mergeEntry (target result : list (jsstring * Tree))
  (entry : jsstring * Tree) : list (jsstring * Tree) :=
  match snd entry, lookup (fst entry) target with
  | TObject sourceFields, Some (TObject targetFields) =>
    setKey (fst entry) (TObject (deepMerge targetFields sourceFields)) result
  | TUndefined, _ => result
  | _, _ => setKey (fst entry) (snd entry) result
  end.

(** The value of key [k] after the merge, read off the two inputs. *)
Definition mergedValue (target source : list (jsstring * Tree)) (k : jsstring)
  : option Tree :=
  match lookup k source with
  | None | Some TUndefined => lookup k target
  | Some (TObject sourceFields) =>
    match lookup k target with
    | Some (TObject targetFields) =>
      Some (TObject (deepMerge targetFields sourceFields))
    | _ => Some (TObject sourceFields)
    end
  | Some v => Some v
  end.

End Merge.

End Config.

(* ------------------------------------------------------------------ *)
(** * cli.ts: [parseArgs] *)

Module Cli.

(** A number read by [parseInt]: an integer or [NaN]. *)
Inductive Num : Type := NaN | Int (z : Z).

Definition isDigit (c : N) : bool := ((48 <=? c) && (c <=? 57))%N.

(** The value of the longest prefix of decimal digits, after [acc]. *)
Fixpoint digitsValue (s : jsstring) (acc : Z) : Z :=
  match s with
  | c :: rest =>
    if isDigit c then digitsValue rest (acc * 10 + (Z.of_N c - 48))%Z else acc
  | [] => acc
  end.

(** [parseInt(s, 10)]: leading white space is skipped, then an optional
    sign, then the longest run of decimal digits; [NaN] if there is none.
    (The built-in rounds the integer to a double, which changes nothing up
    to [2^53].) *)
Definition parseInt10 (s : jsstring) : Num :=
  let s := trimStart s in
  let signed :=
    match s with
    | c :: rest =>
      if (c =? 45)%N then ((-1)%Z, rest)
      else if (c =? 43)%N then (1%Z, rest)
      else (1%Z, s)
    | [] => (1%Z, s)
    end in
  match snd signed with
  | c :: _ =>
    if isDigit c then Int (fst signed * digitsValue (snd signed) 0)%Z else NaN
  | [] => NaN
  end.

(** [CLIOptions]: an optional string or number that is absent or
    [undefined] is [None]; a flag that is absent is [false]. *)
Record CLIOptions : Type := mkCLIOptions {
  task : jsstring;
  config : option jsstring;
  experts : option jsstring;
  chair : option jsstring;
  expertTimeout : option Num;
  chairTimeout : option Num;
  output : option jsstring;
  format : option jsstring;
  logLevel : option jsstring;
  retries : option Num;
  silent : bool;
  help : bool;
  version : bool;
  verbose : bool;
  listAgents : bool;
  init : bool;
  dryRun : bool
}.

(** [options.f = x], for each field [f] *)
Definition set_task (o : CLIOptions) (x : jsstring) : CLIOptions :=
  {| task := x; config := config o; experts := experts o; chair := chair o;
     expertTimeout := expertTimeout o; chairTimeout := chairTimeout o;
     output := output o; format := format o; logLevel := logLevel o;
     retries := retries o; silent := silent o; help := help o;
     version := version o; verbose := verbose o; listAgents := listAgents o;
     init := init o; dryRun := dryRun o |}.

Definition set_config (o : CLIOptions) (x : option jsstring) : CLIOptions :=
  {| task := task o; config := x; experts := experts o; chair := chair o;
     expertTimeout := expertTimeout o; chairTimeout := chairTimeout o;
     output := output o; format := format o; logLevel := logLevel o;
     retries := retries o; silent := silent o; help := help o;
     version := version o; verbose := verbose o; listAgents := listAgents o;
     init := init o; dryRun := dryRun o |}.

Definition set_experts (o : CLIOptions) (x : option jsstring) : CLIOptions :=
  {| task := task o; config := config o; experts := x; chair := chair o;
     expertTimeout := expertTimeout o; chairTimeout := chairTimeout o;
     output := output o; format := format o; logLevel := logLevel o;
     retries := retries o; silent := silent o; help := help o;
     version := version o; verbose := verbose o; listAgents := listAgents o;
     init := init o; dryRun := dryRun o |}.

Definition set_chair (o : CLIOptions) (x : option jsstring) : CLIOptions :=
  {| task := task o; config := config o; experts := experts o; chair := x;
     expertTimeout := expertTimeout o; chairTimeout := chairTimeout o;
     output := output o; format := format o; logLevel := logLevel o;
     retries := retries o; silent := silent o; help := help o;
     version := version o; verbose := verbose o; listAgents := listAgents o;
     init := init o; dryRun := dryRun o |}.

Definition set_expertTimeout (o : CLIOptions) (x : option Num) : CLIOptions :=
  {| task := task o; config := config o; experts := experts o;
     chair := chair o; expertTimeout := x; chairTimeout := chairTimeout o;
     output := output o; format := format o; logLevel := logLevel o;
     retries := retries o; silent := silent o; help := help o;
     version := version o; verbose := verbose o; listAgents := listAgents o;
     init := init o; dryRun := dryRun o |}.

Definition set_chairTimeout (o : CLIOptions) (x : option Num) : CLIOptions :=
  {| task := task o; config := config o; experts := experts o;
     chair := chair o; expertTimeout := expertTimeout o; chairTimeout := x;
     output := output o; format := format o; logLevel := logLevel o;
     retries := retries o; silent := silent o; help := help o;
     version := version o; verbose := verbose o; listAgents := listAgents o;
     init := init o; dryRun := dryRun o |}.

Definition set_output (o : CLIOptions) (x : option jsstring) : CLIOptions :=
  {| task := task o; config := config o; experts := experts o;
     chair := chair o; expertTimeout := expertTimeout o;
     chairTimeout := chairTimeout o; output := x; format := format o;
     logLevel := logLevel o; retries := retries o; silent := silent o;
     help := help o; version := version o; verbose := verbose o;
     listAgents := listAgents o; init := init o; dryRun := dryRun o |}.

Definition set_format (o : CLIOptions) (x : option jsstring) : CLIOptions :=
  {| task := task o; config := config o; experts := experts o;
     chair := chair o; expertTimeout := expertTimeout o;
     chairTimeout := chairTimeout o; output := output o; format := x;
     logLevel := logLevel o; retries := retries o; silent := silent o;
     help := help o; version := version o; verbose := verbose o;
     listAgents := listAgents o; init := init o; dryRun := dryRun o |}.

Definition set_logLevel (o : CLIOptions) (x : option jsstring) : CLIOptions :=
  {| task := task o; config := config o; experts := experts o;
     chair := chair o; expertTimeout := expertTimeout o;
     chairTimeout := chairTimeout o; output := output o; format := format o;
     logLevel := x; retries := retries o; silent := silent o; help := help o;
     version := version o; verbose := verbose o; listAgents := listAgents o;
     init := init o; dryRun := dryRun o |}.

Definition set_retries (o : CLIOptions) (x : option Num) : CLIOptions :=
  {| task := task o; config := config o; experts := experts o;
     chair := chair o; expertTimeout := expertTimeout o;
     chairTimeout := chairTimeout o; output := output o; format := format o;
     logLevel := logLevel o; retries := x; silent := silent o;
     help := help o; version := version o; verbose := verbose o;
     listAgents := listAgents o; init := init o; dryRun := dryRun o |}.

Definition set_silent (o : CLIOptions) (x : bool) : CLIOptions :=
  {| task := task o; config := config o; experts := experts o;
     chair := chair o; expertTimeout := expertTimeout o;
     chairTimeout := chairTimeout o; output := output o; format := format o;
     logLevel := logLevel o; retries := retries o; silent := x;
     help := help o; version := version o; verbose := verbose o;
     listAgents := listAgents o; init := init o; dryRun := dryRun o |}.

Definition set_help (o : CLIOptions) (x : bool) : CLIOptions :=
  {| task := task o; config := config o; experts := experts o;
     chair := chair o; expertTimeout := expertTimeout o;
     chairTimeout := chairTimeout o; output := output o; format := format o;
     logLevel := logLevel o; retries := retries o; silent := silent o;
     help := x; version := version o; verbose := verbose o;
     listAgents := listAgents o; init := init o; dryRun := dryRun o |}.

Definition set_version (o : CLIOptions) (x : bool) : CLIOptions :=
  {| task := task o; config := config o; experts := experts o;
     chair := chair o; expertTimeout := expertTimeout o;
     chairTimeout := chairTimeout o; output := output o; format := format o;
     logLevel := logLevel o; retries := retries o; silent := silent o;
     help := help o; version := x; verbose := verbose o;
     listAgents := listAgents o; init := init o; dryRun := dryRun o |}.

Definition set_verbose (o : CLIOptions) (x : bool) : CLIOptions :=
  {| task := task o; config := config o; experts := experts o;
     chair := chair o; expertTimeout := expertTimeout o;
     chairTimeout := chairTimeout o; output := output o; format := format o;
     logLevel := logLevel o; retries := retries o; silent := silent o;
     help := help o; version := version o; verbose := x;
     listAgents := listAgents o; init := init o; dryRun := dryRun o |}.

Definition set_listAgents (o : CLIOptions) (x : bool) : CLIOptions :=
  {| task := task o; config := config o; experts := experts o;
     chair := chair o; expertTimeout := expertTimeout o;
     chairTimeout := chairTimeout o; output := output o; format := format o;
     logLevel := logLevel o; retries := retries o; silent := silent o;
     help := help o; version := version o; verbose := verbose o;
     listAgents := x; init := init o; dryRun := dryRun o |}.

Definition set_init (o : CLIOptions) (x : bool) : CLIOptions :=
  {| task := task o; config := config o; experts := experts o;
     chair := chair o; expertTimeout := expertTimeout o;
     chairTimeout := chairTimeout o; output := output o; format := format o;
     logLevel := logLevel o; retries := retries o; silent := silent o;
     help := help o; version := version o; verbose := verbose o;
     listAgents := listAgents o; init := x; dryRun := dryRun o |}.

Definition set_dryRun (o : CLIOptions) (x : bool) : CLIOptions :=
  {| task := task o; config := config o; experts := experts o;
     chair := chair o; expertTimeout := expertTimeout o;
     chairTimeout := chairTimeout o; output := output o; format := format o;
     logLevel := logLevel o; retries := retries o; silent := silent o;
     help := help o; version := version o; verbose := verbose o;
     listAgents := listAgents o; init := init o; dryRun := x |}.

(** [{ task: '' }] *)
Definition initialOptions : CLIOptions :=
  {| task := []; config := None; experts := None; chair := None;
     expertTimeout := None; chairTimeout := None; output := None;
     format := None; logLevel := None; retries := None; silent := false;
     help := false; version := false; verbose := false;
     listAgents := false; init := false; dryRun := false |}.

Definition isFlag (arg : jsstring) (flag : string) : bool :=
  JS.eqb arg (utf16 flag).

(** The [default] branch of the switch. *)
Definition positional (options : CLIOptions) (arg : jsstring) : CLIOptions :=
  if nonEmpty arg && negb (startsWith arg (utf16 "-")) then
    set_task options
      (if nonEmpty (task options) then task options ++ utf16 " " ++ arg
       else arg)
  else options.

(** [parseInt(argv[++i] ?? '0', 10)] *)
Definition numberAt (next : option jsstring) : Num :=
  match next with
  | Some value => parseInt10 value
  | None => parseInt10 (utf16 "0")
  end.

(** The [for] loop over [argv] from the current index on.  An option that
    takes a value reads [argv[++i]], which is [undefined] past the end of
    [argv], where the loop ends. *)
Fixpoint parseLoop (argv : list jsstring) (options : CLIOptions)
  : CLIOptions :=
  match argv with
  | [] => options
  | arg :: rest =>
    if isFlag arg "-h" || isFlag arg "--help" then
      parseLoop rest (set_help options true)
    else if isFlag arg "-v" || isFlag arg "--version" then
      parseLoop rest (set_version options true)
    else if isFlag arg "-V" || isFlag arg "--verbose" then
      parseLoop rest (set_verbose options true)
    else if isFlag arg "-s" || isFlag arg "--silent" then
      parseLoop rest (set_silent options true)
    else if isFlag arg "-c" || isFlag arg "--config" then
      match rest with
      | value :: rest' => parseLoop rest' (set_config options (Some value))
      | [] => set_config options None
      end
    else if isFlag arg "-e" || isFlag arg "--experts" then
      match rest with
      | value :: rest' => parseLoop rest' (set_experts options (Some value))
      | [] => set_experts options None
      end
    else if isFlag arg "--chair" then
      match rest with
      | value :: rest' => parseLoop rest' (set_chair options (Some value))
      | [] => set_chair options None
      end
    else if isFlag arg "--expert-timeout" then
      match rest with
      | value :: rest' =>
        parseLoop rest' (set_expertTimeout options (Some (numberAt (Some value))))
      | [] => set_expertTimeout options (Some (numberAt None))
      end
    else if isFlag arg "--chair-timeout" then
      match rest with
      | value :: rest' =>
        parseLoop rest' (set_chairTimeout options (Some (numberAt (Some value))))
      | [] => set_chairTimeout options (Some (numberAt None))
      end
    else if isFlag arg "-o" || isFlag arg "--output" then
      match rest with
      | value :: rest' => parseLoop rest' (set_output options (Some value))
      | [] => set_output options None
      end
    else if isFlag arg "-f" || isFlag arg "--format" then
      match rest with
      | value :: rest' => parseLoop rest' (set_format options (Some value))
      | [] => set_format options None
      end
    else if isFlag arg "-l" || isFlag arg "--log-level" then
      match rest with
      | value :: rest' => parseLoop rest' (set_logLevel options (Some value))
      | [] => set_logLevel options None
      end
    else if isFlag arg "-r" || isFlag arg "--retries" then
      match rest with
      | value :: rest' =>
        parseLoop rest' (set_retries options (Some (numberAt (Some value))))
      | [] => set_retries options (Some (numberAt None))
      end
    else if isFlag arg "--list-agents" then
      parseLoop rest (set_listAgents options true)
    else if isFlag arg "--init" then parseLoop rest (set_init options true)
    else if isFlag arg "--dry-run" then parseLoop rest (set_dryRun options true)
    else parseLoop rest (positional options arg)
  end.

Definition parseArgs (argv : list jsstring) : CLIOptions :=
  parseLoop argv initialOptions.

(** The options that read the next argument as their value. *)
Definition takesValue (arg : jsstring) : bool :=
  isFlag arg "-c" || isFlag arg "--config"
  || isFlag arg "-e" || isFlag arg "--experts"
  || isFlag arg "--chair"
  || isFlag arg "--expert-timeout" || isFlag arg "--chair-timeout"
  || isFlag arg "-o" || isFlag arg "--output"
  || isFlag arg "-f" || isFlag arg "--format"
  || isFlag arg "-l" || isFlag arg "--log-level"
  || isFlag arg "-r" || isFlag arg "--retries".

(** A command line that does not end on an option whose value is still
    to come. *)
Fixpoint complete (argv : list jsstring) : bool :=
  match argv with
  | [] => true
  | arg :: rest =>
    if takesValue arg then
      match rest with
      | _ :: rest' => complete rest'
      | [] => false
      end
    else complete rest
  end.

(** A word: an argument that is not empty and does not start with a
    dash. *)
Definition isWord (arg : jsstring) : bool :=
  nonEmpty arg && negb (startsWith arg (utf16 "-")).

(** The task after the words [words] have been added to [start], as the
    [default] branch adds them. *)
Definition joined (start : jsstring) (words : list jsstring) : jsstring :=
  fold_left (fun t arg => if nonEmpty t then t ++ utf16 " " ++ arg else arg)
            words start.

End Cli.

(* ------------------------------------------------------------------ *)
(** * More concrete calls, rounds and configurations *)

Module Cases.

Import Agents Spec.

(** Call options that ask for no attempt at all. *)
Definition noAttemptOptions : CallOptions :=
  {| optionTimeout := None; optionRetries := Some (-1)%Z;
     optionIsChair := None |}.

(** Every attempt fails and the error hook throws when it is first
    called. *)
Definition throwingHookWorld : CallWorld :=
  {| cancelledAtTop := fun _ => false;
     procEvents := fun _ => Examples.babbling;
     elapsed := fun _ => 42%Z;
     errorHookThrows := fun _ => true |}.

(** Around an expert whose every attempt fails; no hook throws. *)
Definition failingTask : TaskWorld :=
  {| startHookThrows := false; callWorld := Examples.failingWorld;
     endHookThrows := false |}.

(** Around an expert whose start hook throws. *)
Definition throwingTask : TaskWorld :=
  {| startHookThrows := true; callWorld := Examples.answeringWorld;
     endHookThrows := false |}.

(** An expert that is to be tried once, whatever the configuration says. *)
Definition impatientExpert : ExpertConfig :=
  {| name := utf16 "arch"; prompt := None; expertTimeout := None;
     retries := Some 0%Z; priority := Some 1%Z; enabled := Some true |}.

(** An expert that is switched off. *)
Definition disabledExpert : ExpertConfig :=
  {| name := utf16 "ux"; prompt := None; expertTimeout := None;
     retries := None; priority := Some 2%Z; enabled := Some false |}.

(** The default configuration with a start hook for the experts. *)
Definition watchedConfig : ConsiliumConfig :=
  {| experts := experts Examples.config; chair := chair Examples.config;
     timeouts := timeouts Examples.config; retry := retry Examples.config;
     output := output Examples.config;
     hooks := Some {| onStart := false; onExpertStart := true;
                      onExpertEnd := false; onExpertError := false;
                      onChairStart := false; onChairEnd := false;
                      onChairError := false; onEnd := false;
                      onError := false |} |}.

(** Run options that name the expert [ux] and the chair [judge]. *)
Definition pickyOptions : RunOptions :=
  {| optExperts := Some [utf16 "ux"]; optChair := Some (utf16 "judge");
     optTimeout := None; optOutputFile := None; optHooks := None;
     optMetadata := None |}.

(** Run options that name an expert nobody configured. *)
Definition strangerOptions : RunOptions :=
  {| optExperts := Some [utf16 "nobody"]; optChair := None;
     optTimeout := None; optOutputFile := None; optHooks := None;
     optMetadata := None |}.

(** The default configuration with [ux] switched off. *)
Definition quietUxConfig : ConsiliumConfig :=
  {| experts :=
       [ {| name := utf16 "arch"; prompt := None; expertTimeout := None;
            retries := None; priority := Some 1%Z; enabled := Some true |};
         disabledExpert ];
     chair := chair Examples.config;
     timeouts := timeouts Examples.config; retry := retry Examples.config;
     output := output Examples.config; hooks := None |}.

(** The quiet round, cancelled while the chair runs. *)
Definition cancelledLate : Index.RunWorld :=
  {| Index.nowAtStart := 1000; Index.cliAvailable := true;
     Index.onStartThrows := false;
     Index.expertWorlds := fun _ => Examples.answeringTask;
     Index.completionOrder := [2; 0; 3; 1];
     Index.cancelledAfterExperts := false;
     Index.chairWorld := Examples.answeringTask;
     Index.cancelledAfterChair := true;
     Index.nowAtEnd := 1500;
     Index.saveThrows := false; Index.onEndThrows := false;
     Index.onErrorThrows := false |}.

(** The quiet round with a chair whose start hook throws. *)
Definition chairHookThrows : Index.RunWorld :=
  {| Index.nowAtStart := 1000; Index.cliAvailable := true;
     Index.onStartThrows := false;
     Index.expertWorlds := fun _ => Examples.answeringTask;
     Index.completionOrder := [2; 0; 3; 1];
     Index.cancelledAfterExperts := false;
     Index.chairWorld := throwingTask;
     Index.cancelledAfterChair := false;
     Index.nowAtEnd := 1500;
     Index.saveThrows := false; Index.onEndThrows := false;
     Index.onErrorThrows := false |}.

(** The default configuration with a start hook for the chair. *)
Definition watchedChairConfig : ConsiliumConfig :=
  {| experts := experts Examples.config; chair := chair Examples.config;
     timeouts := timeouts Examples.config; retry := retry Examples.config;
     output := output Examples.config;
     hooks := Some {| onStart := false; onExpertStart := false;
                      onExpertEnd := false; onExpertError := false;
                      onChairStart := true; onChairEnd := false;
                      onChairError := false; onEnd := false;
                      onError := false |} |}.

(** A stand-in for [Object.keys] on objects whose keys are distinct and
    none of which is an array index: the keys in the order written. *)
Definition keysInOrder (v : JsValue) : list jsstring :=
  match v with
  | VObject fields => map fst fields
  | _ => []
  end.

(** An [opencode.json] with three agents. *)
Definition openCodeConfig : JsValue :=
  VObject [(utf16 "agent",
            VObject [(utf16 "build", VObject []);
                     (utf16 "arch", VObject []);
                     (utf16 "reviewer", VObject [])])].

(** Two configuration objects with numbers as their only atoms: the
    defaults, and a user file that sets one timeout and the experts. *)
Definition defaultsTree : list (jsstring * Config.Tree Z) :=
  [(utf16 "timeouts",
    Config.TObject [(utf16 "expert", Config.TAtom 300000%Z);
                    (utf16 "chair", Config.TAtom 600000%Z)]);
   (utf16 "experts", Config.TArray [Config.TAtom 1%Z; Config.TAtom 2%Z])].

Definition userTree : list (jsstring * Config.Tree Z) :=
  [(utf16 "experts", Config.TArray [Config.TAtom 7%Z]);
   (utf16 "timeouts", Config.TObject [(utf16 "expert", Config.TAtom 5000%Z)])].

(** The outcome of an attempt of [arch] whose process babbles. *)
Definition babbled (attemptIndex : nat) : AgentResult :=
  {| agent := utf16 "arch";
     text := utf16 "[Агент arch не вернул текст]";
     success := false; duration := None;
     errorCode := Some EMPTY_RESPONSE; attempt := Some attemptIndex |}.

End Cases.

(* ------------------------------------------------------------------ *)
(** * The lines of a stream *)

Module Lines.

Import Spec.

(** The lines of a stream that are not blank, each trimmed. *)
Definition contents (s : jsstring) : list jsstring :=
  filter nonEmpty (map trim (split_nl s)).

(** What a trimmed line that is not blank adds to the decoded text. *)
Definition trimmedText (P : Platform) (t : jsstring) : option jsstring :=
  match JSON_parse P t with
  | None => Some []
  | Some record => if taggedText record then nestedText P record else Some []
  end.

(** The decoded text of a list of such lines. *)
Definition textOf (P : Platform) (trimmedLines : list jsstring)
  : Completion jsstring :=
  match allSome (map (trimmedText P) trimmedLines) with
  | Some parts => Returned (List.concat parts)
  | None => Thrown TypeError
  end.

End Lines.

(* ------------------------------------------------------------------ *)
(** * Properties *)

Import Agents Spec Index.

Unset Implicit Arguments.

(** ** The decoder *)

Lemma allSome_app {A : Type} (l1 l2 : list (option A)) :
  allSome (l1 ++ l2)
  = match allSome l1, allSome l2 with
    | Some a, Some b => Some (a ++ b)
    | _, _ => None
    end.
Proof.
  induction l1 as [|[x|] l1 IH]; cbn [app allSome].
  - now destruct (allSome l2).
  - rewrite IH. destruct (allSome l1), (allSome l2); reflexivity.
  - reflexivity.
Qed.

Section Decoder.

Variable P : Platform.

Local Notation toText := (elementToString (numberToString P)).

Lemma joinWith_empty (parts : list jsstring) :
  joinWith [] parts = List.concat parts.
Proof.
  induction parts as [|p rest IH]; [reflexivity|].
  destruct rest as [|q rest'].
  - simpl. now rewrite app_nil_r.
  - change (joinWith [] (p :: q :: rest')) with (p ++ [] ++ joinWith [] (q :: rest')).
    rewrite IH. reflexivity.
Qed.

Lemma lineText_decodeLine (line : jsstring) :
  isBlank line = false ->
  lineText P line =
  match decodeLine P (trim line) with
  | Some part => toText part
  | None => Some []
  end.
Proof.
  intros Hnb. unfold lineText, decodeLine, taggedText, nestedText, payloadOf.
  rewrite Hnb.
  destruct (JSON_parse P (trim line)) as [event|]; [|reflexivity].
  destruct (getMember event (utf16 "type")) as [ty|]; [|reflexivity].
  destruct (strictEqualsString ty (utf16 "text")); [|reflexivity].
  destruct (truthy _); reflexivity.
Qed.

(** A line that contributes the empty text changes nothing. *)
Lemma concat_allSome_skip (l1 l2 : list (option jsstring)) :
  option_map (@List.concat N) (allSome (l1 ++ Some [] :: l2))
  = option_map (@List.concat N) (allSome (l1 ++ l2)).
Proof.
  rewrite !allSome_app. cbn [allSome].
  destruct (allSome l1) as [a|], (allSome l2) as [b|]; cbn; try reflexivity.
  now rewrite !concat_app.
Qed.

Lemma parseLoop_texts (lines : list jsstring) (textParts : list JsValue) :
  option_map (@List.concat N) (allSome (map toText (parseLoop P lines textParts)))
  = option_map (@List.concat N)
      (allSome (map toText textParts ++ map (lineText P) lines)).
Proof.
  revert textParts.
  induction lines as [|line rest IH]; intros textParts; cbn [parseLoop map].
  - now rewrite app_nil_r.
  - destruct (negb (nonEmpty (trim line))) eqn:Hblank.
    + rewrite IH. unfold lineText at 2, isBlank. rewrite Hblank.
      now rewrite concat_allSome_skip.
    + rewrite (lineText_decodeLine line Hblank).
      destruct (decodeLine P (trim line)) as [part|]; rewrite IH.
      * rewrite map_app, <- app_assoc. reflexivity.
      * now rewrite concat_allSome_skip.
Qed.

Lemma parseJsonOutput_decodedText (output : jsstring) :
  parseJsonOutput P output = decodedText P output.
Proof.
  unfold parseJsonOutput, decodedText.
  pose proof (parseLoop_texts (split_nl (trim output)) []) as H.
  cbn [map app] in H.
  destruct (allSome (map toText (parseLoop P (split_nl (trim output)) [])))
    as [a|], (allSome (map (lineText P) (split_nl (trim output)))) as [b|];
    cbn in H; try discriminate; [|reflexivity].
  inversion H as [Hab]. now rewrite joinWith_empty, Hab.
Qed.

Lemma lineText_skipped (line : jsstring) :
  isBlank line = true \/ JSON_parse P (trim line) = None ->
  lineText P line = Some [].
Proof.
  unfold lineText. intros [Hb|Hp].
  - now rewrite Hb.
  - rewrite Hp. now destruct (isBlank line).
Qed.

Lemma decodedText_nothing (output : jsstring) :
  (forall line, In line (split_nl (trim output)) ->
     isBlank line = true \/ JSON_parse P (trim line) = None) ->
  decodedText P output = Returned [].
Proof.
  unfold decodedText. intros Hall.
  assert (H : exists parts,
             allSome (map (lineText P) (split_nl (trim output))) = Some parts
             /\ List.concat parts = []).
  { induction (split_nl (trim output)) as [|line rest IH].
    - now exists [].
    - destruct IH as (parts & Hparts & Hnil);
        [intros l Hl; apply Hall; now right|].
      exists ([] :: parts). cbn [map allSome].
      rewrite (lineText_skipped line (Hall line (or_introl eq_refl))), Hparts.
      split; [reflexivity|exact Hnil]. }
  destruct H as (parts & -> & ->). reflexivity.
Qed.

Lemma literalStream_lines :
  split_nl (trim literalStream)
  = [textRecordLine (utf16 "A"); utf16 "garbage"; textRecordLine (utf16 "B")].
Proof. vm_compute. reflexivity. Qed.

Lemma lineText_text (line : jsstring) (record : JsValue) (payload : jsstring) :
  isBlank line = false ->
  JSON_parse P (trim line) = Some record ->
  taggedText record = true ->
  payloadOf record = VString payload ->
  lineText P line = Some payload.
Proof.
  intros Hnb Hparse Htag Hpayload. unfold lineText, nestedText.
  rewrite Hnb, Hparse, Htag, Hpayload. now destruct payload.
Qed.

End Decoder.

Lemma lineText_textOfLine (P : Platform) (line : jsstring) :
  (forall record,
      isBlank line = false ->
      JSON_parse P (trim line) = Some record ->
      taggedText record = true ->
      (exists payload, payloadOf record = VString payload)
      \/ truthy (payloadOf record) = false) ->
  lineText P line = Some (textOfLine P line).
Proof.
  intros Htext. unfold lineText, textOfLine, nestedText.
  destruct (isBlank line); [reflexivity|].
  destruct (JSON_parse P (trim line)) as [record|]; [|reflexivity].
  destruct (taggedText record) eqn:Htag; [|reflexivity].
  destruct (Htext record eq_refl eq_refl Htag) as [(payload & ->)|Hfalsy].
  - now destruct payload.
  - rewrite Hfalsy. destruct (payloadOf record); try reflexivity.
    now destruct s.
Qed.

Lemma allSome_map {A B : Type} (f : A -> option B) (g : A -> B) (l : list A) :
  (forall x, In x l -> f x = Some (g x)) ->
  allSome (map f l) = Some (map g l).
Proof.
  induction l as [|x l IH]; intros Hl; [reflexivity|].
  cbn [map allSome]. rewrite (Hl x (or_introl eq_refl)).
  rewrite IH by (intros y Hy; apply Hl; now right). reflexivity.
Qed.

(** C6, as worded, fails: not every input stream is decoded.  On a text
    record whose payload is an object with a [toString] member of its own,
    [textParts.join('')] throws a TypeError, outside the [try]. *)
Lemma parseJsonOutput_stubborn_counterexample :
  ~ decodesEveryStream Reference.platform.
Proof.
  intros Hall. destruct (Hall stubbornLine) as (text & Htext).
  vm_compute in Htext. discriminate.
Qed.

(** C6, amended.  For every input stream whose text records carry text (a
    string payload, or none), the decoder returns the concatenation, in
    line order and with no separator, of the text payloads of its lines: a
    blank line and a line that fails to parse are skipped without error, a
    parseable record tagged as the text kind contributes its nested text
    payload.  When [JSON.parse] reads the two records of the literal stream
    of the example and rejects [garbage], that stream decodes to [AB]; a
    stream whose lines are all blank or unparseable decodes to the empty
    string.  For every stream at all the decoder does what [decodedText]
    says: a payload that is no string is converted as [join] converts it,
    and the decoder throws when there is no conversion. *)
Theorem parseJsonOutput_decodes (P : Platform) :
  (forall output,
      carriesText P output ->
      parseJsonOutput P output
      = Returned (List.concat (map (textOfLine P) (split_nl (trim output)))))
  /\ (JSON_parse P (textRecordLine (utf16 "A")) = Some (textRecord (utf16 "A")) ->
      JSON_parse P (utf16 "garbage") = None ->
      JSON_parse P (textRecordLine (utf16 "B")) = Some (textRecord (utf16 "B")) ->
      parseJsonOutput P literalStream = Returned (utf16 "AB"))
  /\ (forall output,
        (forall line, In line (split_nl (trim output)) ->
           isBlank line = true \/ JSON_parse P (trim line) = None) ->
        parseJsonOutput P output = Returned [])
  /\ (forall output, parseJsonOutput P output = decodedText P output).
Proof.
  split; [|split; [|split]].
  - intros output Htext.
    rewrite parseJsonOutput_decodedText. unfold decodedText.
    rewrite (allSome_map (lineText P) (textOfLine P)); [reflexivity|].
    intros line Hline. apply lineText_textOfLine.
    intros record. now apply Htext.
  - intros HA Hg HB.
    rewrite parseJsonOutput_decodedText. unfold decodedText.
    rewrite literalStream_lines.
    cbn [map].
    rewrite (lineText_text P (textRecordLine (utf16 "A")) (textRecord (utf16 "A"))
               (utf16 "A")),
            (lineText_text P (textRecordLine (utf16 "B")) (textRecord (utf16 "B"))
               (utf16 "B"));
      try (vm_compute; reflexivity); try assumption.
    rewrite (lineText_skipped P (utf16 "garbage")) by (right; exact Hg).
    reflexivity.
  - intros output Hall. rewrite parseJsonOutput_decodedText.
    now apply decodedText_nothing.
  - apply parseJsonOutput_decodedText.
Qed.

(** The reference reader satisfies the three premises on [JSON.parse]; with
    it the literal stream carries text and decodes to [AB], and a blank
    stream decodes to nothing. *)
Lemma parseJsonOutput_decodes_witness :
  parseJsonOutput Reference.platform literalStream = Returned (utf16 "AB")
  /\ parseJsonOutput Reference.platform literalStream
     = Returned (List.concat (map (textOfLine Reference.platform)
                                  (split_nl (trim literalStream))))
  /\ parseJsonOutput Reference.platform (utf16 "   ") = Returned [].
Proof.
  destruct (parseJsonOutput_decodes Reference.platform)
    as (Htext & Hlit & Hnone & _).
  split; [|split].
  - apply Hlit; vm_compute; reflexivity.
  - apply Htext. intros line record Hin Hnb Hparse Htag. left.
    rewrite literalStream_lines in Hin.
    destruct Hin as [<-|[<-|[<-|[]]]].
    + exists (utf16 "A"). vm_compute in Hparse. inversion Hparse. reflexivity.
    + vm_compute in Hparse. discriminate.
    + exists (utf16 "B"). vm_compute in Hparse. inversion Hparse. reflexivity.
  - apply Hnone. intros line Hin. left.
    vm_compute in Hin. destruct Hin as [<-|[]]. reflexivity.
Defined.

(** The one stream the decoder does not decode: the payload of the record
    has no string conversion, and [join] throws outside the [try]. *)
Example parseJsonOutput_throws :
  parseJsonOutput Reference.platform stubbornLine = Thrown TypeError.
Proof. vm_compute. reflexivity. Qed.

(** Payloads that are no strings are converted as [join] converts them. *)
Example parseJsonOutput_converts :
  parseJsonOutput Reference.platform
    (utf16 "{" ++ dq ++ utf16 "type" ++ dq ++ utf16 ":" ++ dq ++ utf16 "text" ++ dq
     ++ utf16 "," ++ dq ++ utf16 "part" ++ dq ++ utf16 ":{" ++ dq ++ utf16 "text"
     ++ dq ++ utf16 ":[1,[true,null],{}]}}")
  = Returned (utf16 "1,true,,[object Object]").
Proof. vm_compute. reflexivity. Qed.

(** ** The launcher *)

Section Launcher.

Variables (P : Platform) (agentName : jsstring) (attemptIndex : nat).

Local Notation stepL := (launchStep P agentName attemptIndex).

Lemma launch_data_prefix (pre : list ProcEvent) (st : LaunchState) :
  forallb isData pre = true ->
  fold_left stepL pre st
  = {| stdout := stdout st ++ stdoutOf pre; stderr := stderr st ++ stderrOf pre;
       finished := finished st; registered := registered st;
       resolved := resolved st; handlerThrew := handlerThrew st |}.
Proof.
  revert st. induction pre as [|ev pre IH]; intros st Hdata; simpl.
  - rewrite !app_nil_r. now destruct st.
  - simpl in Hdata. apply andb_prop in Hdata as [Hev Hpre].
    destruct ev; try discriminate; rewrite (IH _ Hpre); simpl;
      now rewrite <- ?app_assoc.
Qed.

(** Once [finished] is set no handler changes how the launch ends. *)
Lemma launch_finished_step (st : LaunchState) (ev : ProcEvent) :
  finished st = true ->
  finished (stepL st ev) = true
  /\ resolved (stepL st ev) = resolved st
  /\ handlerThrew (stepL st ev) = handlerThrew st.
Proof.
  intros Hfin. destruct ev; simpl; rewrite ?Hfin; auto.
Qed.

Lemma launch_finished_fold (events : list ProcEvent) (st : LaunchState) :
  finished st = true ->
  finished (fold_left stepL events st) = true
  /\ resolved (fold_left stepL events st) = resolved st
  /\ handlerThrew (fold_left stepL events st) = handlerThrew st.
Proof.
  revert st. induction events as [|ev events IH]; intros st Hfin; simpl; [auto|].
  destruct (launch_finished_step st ev Hfin) as (Hf & Hr & Ht).
  destruct (IH _ Hf) as (Hf' & Hr' & Ht'). repeat split; congruence.
Qed.

(** A launch whose first terminal event is [Close] ends as the close
    handler does on the output captured so far. *)
Lemma callAgentOnce_close (promptText : jsstring) (timeoutMs : Z)
  (pre post : list ProcEvent) :
  forallb isData pre = true ->
  callAgentOnce P agentName promptText timeoutMs attemptIndex (pre ++ Close :: post)
  = match closeResult P agentName attemptIndex (stdoutOf pre) (stderrOf pre) with
    | Some r => Returned r
    | None => Uncaught
    end.
Proof.
  intros Hdata. unfold callAgentOnce, launchRun.
  rewrite fold_left_app.
  rewrite (launch_data_prefix pre launchInit Hdata).
  cbn [fold_left].
  set (st := stepL _ Close).
  assert (Hfin : finished st = true).
  { subst st. cbn. now destruct (closeResult _ _ _ _ _). }
  destruct (launch_finished_fold post st Hfin) as (Hf & Hr & Ht).
  destruct (launch_finished_step (fold_left stepL post st) TimerFired Hf)
    as (_ & Hr2 & Ht2).
  cbv zeta. rewrite Hr2, Ht2, Hr, Ht. subst st. cbn.
  now destruct (closeResult _ _ _ _ _).
Qed.

(** Whatever holds of the timeout outcome, of the spawn-error outcomes and
    of what the close handler resolves with, holds of the outcome of a
    launch. *)
Lemma callAgentOnce_result (Q : AgentResult -> Prop)
  (promptText : jsstring) (timeoutMs : Z) (events : list ProcEvent) :
  Q (timeoutResult agentName attemptIndex) ->
  (forall message, Q (errorResult agentName attemptIndex message)) ->
  (forall out err r, closeResult P agentName attemptIndex out err = Some r -> Q r) ->
  forall r,
    callAgentOnce P agentName promptText timeoutMs attemptIndex events = Returned r ->
    Q r.
Proof.
  intros Htimeout Herror Hclose.
  assert (Hstep : forall st ev,
            (forall r, resolved st = Some r -> Q r) ->
            forall r, resolved (stepL st ev) = Some r -> Q r).
  { intros st ev Hst r. unfold launchStep, resolveWith.
    destruct ev; simpl; try apply Hst;
      destruct (finished st); try apply Hst.
    - destruct (closeResult P agentName attemptIndex (stdout st) (stderr st))
        as [r0|] eqn:Hc; simpl; [|apply Hst].
      destruct (resolved st) as [r1|] eqn:Hres; intros Hr; inversion Hr; subst.
      + apply Hst. reflexivity.
      + eapply Hclose, Hc.
    - simpl. destruct (resolved st) as [r1|] eqn:Hres; intros Hr;
        inversion Hr; subst; [now apply Hst|apply Herror].
    - simpl. destruct (resolved st) as [r1|] eqn:Hres; intros Hr;
        inversion Hr; subst; [now apply Hst|apply Htimeout]. }
  assert (Hfold : forall evs st,
            (forall r, resolved st = Some r -> Q r) ->
            forall r, resolved (fold_left stepL evs st) = Some r -> Q r).
  { intros evs. induction evs as [|ev evs IH]; intros st Hst; simpl.
    - exact Hst.
    - apply IH. now apply Hstep. }
  intros r. unfold callAgentOnce, launchRun. cbv zeta.
  destruct (handlerThrew _); [discriminate|].
  destruct (resolved (stepL (fold_left stepL events launchInit) TimerFired))
    as [r0|] eqn:Hr; simpl; intros Hret; inversion Hret; subst.
  - revert Hr. apply Hstep, Hfold. simpl. discriminate.
  - exact Htimeout.
Qed.

Lemma callAgentOnce_not_thrown (promptText : jsstring) (timeoutMs : Z)
  (events : list ProcEvent) (e : Err) :
  callAgentOnce P agentName promptText timeoutMs attemptIndex events <> Thrown e.
Proof.
  unfold callAgentOnce. cbv zeta. now destruct (handlerThrew _).
Qed.

Lemma closeResult_invariant (out err : jsstring) (r : AgentResult) :
  closeResult P agentName attemptIndex out err = Some r -> outcomeInvariant r.
Proof.
  unfold closeResult, decodedResult, outcomeInvariant.
  destruct (parseJsonOutput P out) as [text|e|]; try discriminate.
  intros Hr. inversion Hr; subst.
  destruct text as [|c rest]; simpl; intros Hs.
  - discriminate.
  - split; [reflexivity|discriminate].
Qed.

Lemma callAgentOnce_invariant (promptText : jsstring) (timeoutMs : Z)
  (events : list ProcEvent) (r : AgentResult) :
  callAgentOnce P agentName promptText timeoutMs attemptIndex events = Returned r ->
  outcomeInvariant r.
Proof.
  apply callAgentOnce_result.
  - intros Hs. discriminate Hs.
  - intros message Hs. discriminate Hs.
  - apply closeResult_invariant.
Qed.

Lemma callAgentOnce_agent (promptText : jsstring) (timeoutMs : Z)
  (events : list ProcEvent) (r : AgentResult) :
  callAgentOnce P agentName promptText timeoutMs attemptIndex events = Returned r ->
  agent r = agentName.
Proof.
  apply (callAgentOnce_result (fun r => agent r = agentName)); try reflexivity.
  intros out err r0. unfold closeResult, decodedResult.
  destruct (parseJsonOutput P out) as [text|e|]; try discriminate.
  intros Hr. inversion Hr; subst. now destruct (negb _).
Qed.

End Launcher.

(** A process that prints the stubborn record and exits: the close handler
    throws after it has set [finished] and cleared the timer, so the
    promise of the launch is never resolved. *)
Example callAgentOnce_uncaught :
  callAgentOnce Reference.platform (utf16 "arch") (utf16 "task") 1000 0
    [StdoutData stubbornLine; Close; TimerFired] = Uncaught.
Proof. vm_compute. reflexivity. Qed.

(** C7.  A launch whose process exits normally (its first terminal event is
    the close of the process, after any number of output chunks) and whose
    captured output decodes to the empty text resolves with a failure
    outcome classified EMPTY_RESPONSE. *)
Theorem callAgentOnce_empty_response (P : Platform) (agentName promptText : jsstring)
  (timeoutMs : Z) (attemptIndex : nat) (pre post : list ProcEvent) :
  forallb isData pre = true ->
  parseJsonOutput P (stdoutOf pre) = Returned [] ->
  exists r,
    callAgentOnce P agentName promptText timeoutMs attemptIndex
      (pre ++ Close :: post) = Returned r
    /\ success r = false /\ errorCode r = Some EMPTY_RESPONSE
    /\ agent r = agentName /\ attempt r = Some attemptIndex.
Proof.
  intros Hdata Hempty.
  rewrite callAgentOnce_close by assumption.
  unfold closeResult. rewrite Hempty.
  eexists. split; [reflexivity|]. cbn. auto.
Qed.

(** A process that prints one unparseable line and exits. *)
Lemma callAgentOnce_empty_response_witness :
  exists r,
    callAgentOnce Reference.platform (utf16 "arch") (utf16 "task") 1000 0
      ([StdoutData (utf16 "garbage")] ++ Close :: [TimerFired]) = Returned r
    /\ success r = false /\ errorCode r = Some EMPTY_RESPONSE
    /\ agent r = utf16 "arch" /\ attempt r = Some 0.
Proof.
  apply (callAgentOnce_empty_response Reference.platform (utf16 "arch")
           (utf16 "task") 1000 0 [StdoutData (utf16 "garbage")] [TimerFired]).
  - reflexivity.
  - vm_compute. reflexivity.
Defined.

(** ** The retry controller *)

(** A list with a single spawn splits around it in one way only. *)
Lemma spawn_split_unique (s t pre post : list Event) (x y : Event) :
  forallb (fun ev => negb (isSpawn ev)) s = true ->
  forallb (fun ev => negb (isSpawn ev)) t = true ->
  isSpawn y = true ->
  s ++ x :: t = pre ++ y :: post ->
  pre = s /\ y = x.
Proof.
  intros Hs Ht Hy. revert pre.
  induction s as [|a s IH]; intros pre Heq.
  - destruct pre as [|z pre]; cbn in Heq; inversion Heq; subst; [now split|].
    exfalso. rewrite forallb_app in Ht. cbn in Ht. rewrite Hy in Ht.
    cbn in Ht. now rewrite andb_false_r in Ht.
  - cbn in Hs. apply andb_prop in Hs as [Ha Hs].
    destruct pre as [|z pre]; cbn in Heq; inversion Heq; subst.
    + rewrite Hy in Ha. discriminate.
    + destruct (IH Hs pre) as [-> ->]; [assumption|now split].
Qed.

Section RetryController.

Variables (P : Platform) (agentName promptText : jsstring)
          (config : ConsiliumConfig) (timeout : Z) (isChair : bool)
          (w : CallWorld).

Local Notation loop := (callAgentLoop P agentName promptText config timeout isChair w).
Local Notation outcomeAt := (attemptOutcome P agentName promptText timeout w).
Local Notation iter := (iterationEvents P agentName promptText config timeout isChair w).
Local Notation goesOn := (continues P agentName promptText config timeout isChair w).
Local Notation ending := (launchEnd P agentName promptText timeout w).
Local Notation after := (afterLaunch P agentName promptText config timeout isChair w).

Lemma calculateRetryDelay_expected (k : nat) :
  calculateRetryDelay (Z.of_nat k - 1) (delay (retry config))
    (exponentialBackoff (retry config))
  = expectedDelay config k.
Proof.
  unfold calculateRetryDelay, expectedDelay.
  now destruct (exponentialBackoff (retry config)).
Qed.

Lemma sleep_guard (a : nat) :
  (if Nat.ltb 0 a
   then [EvSleep (calculateRetryDelay (Z.of_nat a - 1) (delay (retry config))
                    (exponentialBackoff (retry config)))]
   else [])
  = (if Nat.eqb a 0 then [] else [EvSleep (expectedDelay config a)]).
Proof.
  rewrite calculateRetryDelay_expected. now destruct a.
Qed.

(** One iteration that goes on. *)
Lemma loop_continue (remaining a : nat) (lastError : option AgentResult) :
  goesOn a = true ->
  exists r,
    outcomeAt a = Returned r
    /\ loop (S remaining) a lastError
       = prepend (iter a) (loop remaining (S a) (Some r)).
Proof.
  unfold continues. intros Hgo.
  apply andb_prop in Hgo as [Hc Hgo]. apply negb_true_iff in Hc.
  destruct (outcomeAt a) as [r|e|] eqn:Hout; try discriminate.
  apply andb_prop in Hgo as [Hs Hhook]. apply negb_true_iff in Hs, Hhook.
  exists r. split; [reflexivity|].
  cbn [callAgentLoop]. rewrite Hc, sleep_guard.
  unfold attemptOutcome in Hout. rewrite Hout, Hs.
  unfold iterationEvents, launchEnd, afterLaunch, attemptOutcome.
  rewrite Hout, Hs.
  destruct (errorHookDefined config isChair); simpl in Hhook.
  - rewrite Hhook. unfold prepend. now rewrite <- !app_assoc.
  - unfold prepend. now rewrite <- !app_assoc.
Qed.

(** The trace is made of whole iterations; the last one may end early. *)
Lemma loop_shape (remaining a : nat) (lastError : option AgentResult) :
  exists m, m <= remaining
            /\ fst (loop remaining a lastError) = flat_map iter (seq a m).
Proof.
  revert a lastError.
  induction remaining as [|remaining IH]; intros a lastError.
  - exists 0. split; [lia|reflexivity].
  - destruct (goesOn a) eqn:Hgo.
    + destruct (loop_continue remaining a lastError Hgo) as (r & _ & Heq).
      rewrite Heq.
      destruct (IH (S a) (Some r)) as (m & Hm & Htr).
      exists (S m). split; [lia|].
      unfold prepend. cbn [fst seq flat_map]. now rewrite Htr.
    + cbn [callAgentLoop].
      destruct (cancelledAtTop w a) eqn:Hc.
      { exists 0. split; [lia|reflexivity]. }
      rewrite sleep_guard.
      unfold continues in Hgo. rewrite Hc in Hgo. cbn [negb andb] in Hgo.
      exists 1. split; [lia|].
      cbn [seq flat_map]. rewrite app_nil_r.
      unfold iterationEvents, launchEnd, afterLaunch.
      unfold attemptOutcome in *.
      destruct (callAgentOnce P agentName promptText timeout a (procEvents w a))
        as [r|e|] eqn:Hout.
      * destruct (success r) eqn:Hs.
        -- cbn [fst]. rewrite <- ?app_assoc; reflexivity.
        -- destruct (errorHookDefined config isChair); simpl in Hgo.
           ++ destruct (errorHookThrows w a); [|discriminate].
              cbn [fst]. rewrite <- ?app_assoc; reflexivity.
           ++ discriminate.
      * cbn [fst]. reflexivity.
      * cbn [fst]. rewrite <- ?app_assoc; reflexivity.
Qed.

(** Iterations that all go on are a prefix of the run. *)
Lemma loop_prefix (k remaining a : nat) (lastError : option AgentResult) :
  (forall j, a <= j < a + k -> goesOn j = true) ->
  exists lastError',
    loop (k + remaining) a lastError
    = prepend (flat_map iter (seq a k)) (loop remaining (a + k) lastError').
Proof.
  revert a lastError.
  induction k as [|k IH]; intros a lastError Hgo.
  - exists lastError. rewrite Nat.add_0_r. unfold prepend. simpl.
    now destruct (loop remaining a lastError).
  - cbn [Nat.add].
    destruct (loop_continue (k + remaining) a lastError) as (r & _ & Heq);
      [apply Hgo; lia|].
    rewrite Heq.
    destruct (IH (S a) (Some r)) as (last' & Heq').
    { intros j Hj. apply Hgo. lia. }
    exists last'. rewrite Heq'. unfold prepend. cbn [fst snd seq flat_map].
    rewrite <- app_assoc. now replace (a + S k) with (S a + k) by lia.
Qed.

Lemma attempts_app (t1 t2 : list Event) :
  attempts (t1 ++ t2) = attempts t1 + attempts t2.
Proof.
  induction t1 as [|ev t1 IH]; [reflexivity|].
  destruct ev; simpl; now rewrite IH.
Qed.

Lemma sleeps_app (t1 t2 : list Event) :
  sleeps (t1 ++ t2) = sleeps t1 ++ sleeps t2.
Proof.
  induction t1 as [|ev t1 IH]; [reflexivity|].
  destruct ev; simpl; now rewrite IH.
Qed.

(** What follows the spawn in an iteration: no sleep, no spawn, and among
    the launch events only the end of the launch. *)
Lemma iteration_tail (k : nat) :
  attempts (ending k ++ after k) = 0
  /\ sleeps (ending k ++ after k) = []
  /\ filter isLaunchEvent (ending k ++ after k) = ending k
  /\ forallb (fun ev => negb (isSpawn ev)) (ending k ++ after k) = true.
Proof.
  unfold launchEnd, afterLaunch.
  destruct (outcomeAt k) as [r|e|]; [|now repeat split..].
  destruct (success r); [now repeat split|].
  destruct (errorHookDefined config isChair); now repeat split.
Qed.

Lemma attempts_iter (k : nat) : attempts (iter k) = 1.
Proof.
  unfold iterationEvents. rewrite attempts_app.
  cbn [app attempts].
  destruct (iteration_tail k) as (Ha & _). rewrite Ha.
  now destruct (Nat.eqb k 0).
Qed.

Lemma attempts_iterations (a m : nat) :
  attempts (flat_map iter (seq a m)) = m.
Proof.
  revert a. induction m as [|m IH]; intros a; [reflexivity|].
  cbn [seq flat_map]. now rewrite attempts_app, attempts_iter, IH.
Qed.

Lemma sleeps_iter (k : nat) :
  sleeps (iter k) = if Nat.eqb k 0 then [] else [expectedDelay config k].
Proof.
  unfold iterationEvents. rewrite sleeps_app.
  cbn [app sleeps].
  destruct (iteration_tail k) as (_ & Hs & _). rewrite Hs.
  now destruct (Nat.eqb k 0).
Qed.

Lemma sleeps_iterations_from (a m : nat) :
  1 <= a ->
  sleeps (flat_map iter (seq a m)) = map (expectedDelay config) (seq a m).
Proof.
  revert a. induction m as [|m IH]; intros a Ha; [reflexivity|].
  cbn [seq flat_map map]. rewrite sleeps_app, sleeps_iter, IH by lia.
  destruct a; [lia|reflexivity].
Qed.

Lemma sleeps_iterations (m : nat) :
  sleeps (flat_map iter (seq 0 m)) = map (expectedDelay config) (seq 1 (m - 1)).
Proof.
  destruct m as [|m]; [reflexivity|].
  cbn [seq flat_map]. rewrite sleeps_app, sleeps_iter, sleeps_iterations_from by lia.
  simpl. now rewrite Nat.sub_0_r.
Qed.

Lemma launches_iterations (a m : nat) :
  filter isLaunchEvent (flat_map iter (seq a m))
  = flat_map (fun k => EvSpawn agentName k :: ending k) (seq a m).
Proof.
  revert a. induction m as [|m IH]; intros a; [reflexivity|].
  cbn [seq flat_map]. rewrite filter_app, IH. f_equal.
  unfold iterationEvents. rewrite filter_app.
  cbn [app filter isLaunchEvent].
  destruct (iteration_tail a) as (_ & _ & Hl & _).
  rewrite Hl. now destruct (Nat.eqb a 0).
Qed.

Lemma settle_in_iterations (a m k : nat) (r : AgentResult) :
  In (EvSettle k r) (flat_map iter (seq a m)) ->
  a <= k < a + m /\ outcomeAt k = Returned r.
Proof.
  rewrite in_flat_map. intros (j & Hj & Hin).
  apply in_seq in Hj.
  unfold iterationEvents, launchEnd, afterLaunch in Hin.
  rewrite !in_app_iff in Hin.
  destruct Hin as [Hin|[Hin|[Hin|Hin]]].
  - destruct (Nat.eqb j 0); simpl in Hin; [easy|]. destruct Hin as [Hin|[]]. discriminate.
  - simpl in Hin. destruct Hin as [Hin|[]]. discriminate.
  - destruct (outcomeAt j) as [r0|e|] eqn:Hout; simpl in Hin; try easy.
    + destruct Hin as [Hin|[]]. inversion Hin; subst. split; [lia|assumption].
    + destruct Hin as [Hin|[]]. discriminate.
  - destruct (outcomeAt j) as [r0|e|]; try easy.
    destruct (success r0); [easy|].
    destruct (errorHookDefined config isChair); simpl in Hin; [|easy].
    destruct Hin as [Hin|[]]. discriminate.
Qed.

(** A first attempt that succeeds ends the call. *)
Lemma loop_first_success (remaining : nat) (lastError : option AgentResult)
  (r0 : AgentResult) (a : nat) :
  In (EvSettle a r0) (fst (loop remaining a lastError)) ->
  success r0 = true ->
  attempts (fst (loop remaining a lastError)) = 1
  /\ snd (loop remaining a lastError) = Returned (withDuration r0 (elapsed w a)).
Proof.
  intros Hin Hs.
  assert (Hr0 : outcomeAt a = Returned r0).
  { destruct (loop_shape remaining a lastError) as (m & _ & Htr).
    rewrite Htr in Hin. now apply settle_in_iterations in Hin as [_ ?]. }
  revert Hin.
  destruct remaining as [|remaining]; [intros []|].
  cbn [callAgentLoop].
  destruct (cancelledAtTop w a); [intros []|].
  unfold attemptOutcome in Hr0. rewrite Hr0, Hs. cbn [fst snd]. intros _.
  split; [|reflexivity].
  rewrite attempts_app. now destruct (Nat.ltb 0 a).
Qed.

(** Every outcome the loop returns is one of: a cancellation outcome, the
    outcome of an attempt (with its duration when it succeeded), the last
    failure, or the exhausted outcome. *)
Lemma loop_result (Q : AgentResult -> Prop) :
  (forall k, Q (cancelledResult agentName k)) ->
  Q (exhaustedResult agentName) ->
  (forall k r, outcomeAt k = Returned r -> Q r) ->
  (forall r d, Q r -> Q (withDuration r d)) ->
  forall left a lastError,
    (forall r, lastError = Some r -> Q r) ->
    forall r, snd (loop left a lastError) = Returned r -> Q r.
Proof.
  intros Hcancel Hexhausted Hattempt Hduration.
  induction left as [|left IH]; intros a lastError Hlast r.
  - cbn [callAgentLoop snd]. intros Hr. inversion Hr; subst.
    destruct lastError as [r0|]; simpl; [now apply Hlast|assumption].
  - cbn [callAgentLoop].
    destruct (cancelledAtTop w a).
    { cbn [snd]. intros Hr. inversion Hr; subst. apply Hcancel. }
    pose proof (Hattempt a) as Ha. unfold attemptOutcome in Ha.
    destruct (callAgentOnce P agentName promptText timeout a (procEvents w a))
      as [r0|e|]; [|discriminate..].
    specialize (Ha r0 eq_refl).
    destruct (success r0).
    { cbn [snd]. intros Hr. inversion Hr; subst. now apply Hduration. }
    assert (Hnext : forall r1, Some r0 = Some r1 -> Q r1)
      by (intros r1 Hr1; inversion Hr1; subst; exact Ha).
    destruct (errorHookDefined config isChair).
    + destruct (errorHookThrows w a); [discriminate|].
      unfold prepend. cbn [snd]. now apply IH.
    + unfold prepend. cbn [snd]. now apply IH.
Qed.

Lemma iter_spawn_split (a k : nat) (pre post : list Event) :
  iter a = pre ++ EvSpawn agentName k :: post ->
  k = a /\ pre = (if Nat.eqb a 0 then [] else [EvSleep (expectedDelay config a)]).
Proof.
  unfold iterationEvents. intros H.
  destruct (iteration_tail a) as (_ & _ & _ & Htail).
  cbn [app] in H.
  apply spawn_split_unique in H as [Hpre Hk]; try assumption; try reflexivity.
  - inversion Hk; subst. now split.
  - now destruct (Nat.eqb a 0).
Qed.

(** What stands just before the spawn of attempt [k]. *)
Lemma spawn_context (m a k : nat) (pre post : list Event) :
  flat_map iter (seq a m) = pre ++ EvSpawn agentName k :: post ->
  a <= k
  /\ (k = 0 -> pre = [])
  /\ (1 <= k -> exists pre', pre = pre' ++ [EvSleep (expectedDelay config k)]).
Proof.
  revert a pre.
  induction m as [|m IH]; intros a pre H.
  - destruct pre; discriminate.
  - cbn [seq flat_map] in H.
    apply app_eq_app in H as (l & [[Hpre Hpost] | [Hpre Hpost]]).
    + destruct l as [|x l].
      * exfalso. simpl in Hpost. destruct m as [|m]; [discriminate|].
        cbn [seq flat_map] in Hpost. unfold iterationEvents in Hpost.
        simpl in Hpost. discriminate.
      * simpl in Hpost. inversion Hpost; subst x.
        apply iter_spawn_split in Hpre as [-> ->].
        split; [lia|]. split.
        -- intros ->. reflexivity.
        -- intros Ha. destruct a; [lia|]. now exists [].
    + apply IH in Hpost as (Hle & _ & Hsleep).
      split; [lia|]. split; [lia|].
      intros Hk. destruct (Hsleep Hk) as (pre' & ->).
      exists (iter a ++ pre'). subst pre. now rewrite app_assoc.
Qed.

End RetryController.

(** C2.  A call configured with [retries = r] (a count, [0 <= r]) performs
    at most [r + 1] attempts; the attempts run one after the other, the
    launch of each attempt ended before the next is spawned; and if the
    first attempt succeeds it is the only one and its outcome is returned,
    with the measured duration attached. *)
Theorem callAgent_attempts (P : Platform) (agentName promptText : jsstring)
  (config : ConsiliumConfig) (options : CallOptions) (w : CallWorld) :
  let r := retriesOf config options in
  let call := callAgent P agentName promptText config options w in
  (0 <= r)%Z ->
  (Z.of_nat (attempts (fst call)) <= r + 1)%Z
  /\ filter isLaunchEvent (fst call)
     = flat_map (fun k => EvSpawn agentName k
                          :: launchEnd P agentName promptText
                               (timeoutOf config options) w k)
                (seq 0 (attempts (fst call)))
  /\ (forall r0, In (EvSettle 0 r0) (fst call) -> success r0 = true ->
        attempts (fst call) = 1
        /\ snd call = Returned (withDuration r0 (elapsed w 0))).
Proof.
  intros r call Hr. subst r call. unfold callAgent.
  fold (timeoutOf config options) (retriesOf config options) (isChairOf options).
  set (n := Z.to_nat (retriesOf config options + 1)).
  destruct (loop_shape P agentName promptText config (timeoutOf config options)
              (isChairOf options) w n 0 None) as (m & Hm & Htr).
  split; [|split].
  - rewrite Htr, attempts_iterations. subst n. lia.
  - rewrite Htr, attempts_iterations. apply launches_iterations.
  - intros r0. apply loop_first_success.
Qed.

(** The default configuration ([retries = 1]) against a process that
    answers at once. *)
Lemma callAgent_attempts_witness :
  let call := callAgent Reference.platform (utf16 "arch") (utf16 "task")
                Examples.config Examples.noOptions Examples.answeringWorld in
  (0 <= retriesOf Examples.config Examples.noOptions)%Z
  /\ attempts (fst call) = 1
  /\ snd call = Returned {| agent := utf16 "arch"; text := utf16 "A";
                            success := true; duration := Some 42%Z;
                            errorCode := None; attempt := Some 0 |}.
Proof.
  assert (Hr : (0 <= retriesOf Examples.config Examples.noOptions)%Z)
    by (vm_compute; discriminate).
  split; [exact Hr|].
  destruct (callAgent_attempts Reference.platform (utf16 "arch") (utf16 "task")
              Examples.config Examples.noOptions Examples.answeringWorld Hr)
    as (_ & _ & Hfirst).
  apply (Hfirst {| agent := utf16 "arch"; text := utf16 "A";
                   success := true; duration := None;
                   errorCode := None; attempt := Some 0 |}).
  - vm_compute. right. left. reflexivity.
  - reflexivity.
Defined.

(** C3.  In the trace of a call, nothing precedes the spawn of attempt 0,
    so no delay is slept before it; the spawn of every attempt [k >= 1] is
    immediately preceded by a sleep of [baseDelay * 2^(k-1)] when
    exponential backoff is enabled and of [baseDelay] when it is not; and
    these are all the sleeps of the call.  [calculateRetryDelay], called
    with [k - 1], computes these values. *)
Theorem callAgent_backoff (P : Platform) (agentName promptText : jsstring)
  (config : ConsiliumConfig) (options : CallOptions) (w : CallWorld) :
  let trace := fst (callAgent P agentName promptText config options w) in
  let baseDelay := delay (retry config) in
  let slept (k : nat) :=
    if exponentialBackoff (retry config)
    then (baseDelay * 2 ^ (Z.of_nat k - 1))%Z else baseDelay in
  (forall pre post k,
      trace = pre ++ EvSpawn agentName k :: post ->
      (k = 0 -> pre = [])
      /\ (1 <= k -> exists pre', pre = pre' ++ [EvSleep (slept k)]))
  /\ sleeps trace = map slept (seq 1 (attempts trace - 1))
  /\ (forall k,
        calculateRetryDelay (Z.of_nat k - 1) baseDelay true
        = (baseDelay * 2 ^ (Z.of_nat k - 1))%Z
        /\ calculateRetryDelay (Z.of_nat k - 1) baseDelay false = baseDelay).
Proof.
  intros trace baseDelay slept. subst trace. unfold callAgent.
  fold (timeoutOf config options) (retriesOf config options) (isChairOf options).
  set (n := Z.to_nat (retriesOf config options + 1)).
  destruct (loop_shape P agentName promptText config (timeoutOf config options)
              (isChairOf options) w n 0 None) as (m & Hm & Htr).
  rewrite Htr. split; [|split].
  - intros pre post k Hsplit.
    apply spawn_context in Hsplit as (_ & H0 & H1). split; assumption.
  - rewrite attempts_iterations. apply sleeps_iterations.
  - intros k. split; reflexivity.
Qed.

(** Three retries with backoff from 1000 ms against a process that always
    fails: the sleep before attempt 1 is 1000 ms, and the call sleeps 1000,
    2000 and 4000 ms in all. *)
Lemma callAgent_backoff_witness :
  let trace := fst (callAgent Reference.platform (utf16 "arch") (utf16 "task")
                      Examples.patientConfig Examples.noOptions
                      Examples.failingWorld) in
  (exists pre', firstn 4 trace = pre' ++ [EvSleep 1000])
  /\ sleeps trace = [1000; 2000; 4000]%Z.
Proof.
  intros trace.
  destruct (callAgent_backoff Reference.platform (utf16 "arch") (utf16 "task")
              Examples.patientConfig Examples.noOptions Examples.failingWorld)
    as (Hbefore & Hsleeps & _).
  split.
  - assert (Hsplit : trace = firstn 4 trace ++ EvSpawn (utf16 "arch") 1 :: skipn 5 trace)
      by (vm_compute; reflexivity).
    destruct (Hbefore _ _ _ Hsplit) as [_ H1].
    apply H1. lia.
  - subst trace. rewrite Hsleeps. vm_compute. reflexivity.
Defined.

(** C4.  If control reaches the top of iteration [k] of the attempt loop
    (every earlier iteration ran to its end) and the cancellation flag is
    set there, the call returns the cancellation outcome for attempt [k],
    a failure of the TIMEOUT class, and its trace is that of the [k]
    earlier iterations: no process is spawned, no backoff slept and no hook
    called in iteration [k] or after it. *)
Theorem callAgent_cancellation (P : Platform) (agentName promptText : jsstring)
  (config : ConsiliumConfig) (options : CallOptions) (w : CallWorld) (k : nat) :
  let call := callAgent P agentName promptText config options w in
  let iteration :=
    iterationEvents P agentName promptText config (timeoutOf config options)
      (isChairOf options) w in
  (Z.of_nat k < retriesOf config options + 1)%Z ->
  (forall j, j < k ->
     continues P agentName promptText config (timeoutOf config options)
       (isChairOf options) w j = true) ->
  cancelledAtTop w k = true ->
  snd call = Returned (cancelledResult agentName k)
  /\ success (cancelledResult agentName k) = false
  /\ errorCode (cancelledResult agentName k) = Some TIMEOUT
  /\ fst call = flat_map iteration (seq 0 k)
  /\ attempts (fst call) = k
  /\ sleeps (fst call) = map (expectedDelay config) (seq 1 (k - 1)).
Proof.
  intros call iteration Hk Hreach Hflag. subst call iteration.
  unfold callAgent.
  fold (timeoutOf config options) (retriesOf config options) (isChairOf options).
  assert (Hn : Z.to_nat (retriesOf config options + 1)
               = k + S (Z.to_nat (retriesOf config options + 1) - S k)) by lia.
  rewrite Hn.
  destruct (loop_prefix P agentName promptText config (timeoutOf config options)
              (isChairOf options) w k
              (S (Z.to_nat (retriesOf config options + 1) - S k)) 0 None)
    as (lastError' & Heq).
  { intros j Hj. apply Hreach. lia. }
  rewrite Heq. cbn [Nat.add callAgentLoop]. rewrite Hflag.
  unfold prepend. cbn [fst snd]. rewrite app_nil_r.
  repeat split.
  - apply attempts_iterations.
  - apply sleeps_iterations.
Qed.

(** Three retries, every attempt fails, and the flag is set when the loop
    comes to its third iteration: two attempts, one sleep, and the
    cancellation outcome for attempt 2. *)
Lemma callAgent_cancellation_witness :
  let call := callAgent Reference.platform (utf16 "arch") (utf16 "task")
                Examples.patientConfig Examples.noOptions
                Examples.cancelledWorld in
  snd call = Returned {| agent := utf16 "arch"; text := utf16 "[Отменено]";
                         success := false; duration := None;
                         errorCode := Some TIMEOUT; attempt := Some 2 |}
  /\ attempts (fst call) = 2
  /\ sleeps (fst call) = [1000%Z].
Proof.
  destruct (callAgent_cancellation Reference.platform (utf16 "arch") (utf16 "task")
              Examples.patientConfig Examples.noOptions Examples.cancelledWorld 2)
    as (Hres & _ & _ & _ & Hatt & Hsl).
  - vm_compute. reflexivity.
  - intros j Hj. destruct j as [|[|j]]; [vm_compute; reflexivity..|lia].
  - reflexivity.
  - repeat split; assumption.
Defined.

(** ** [Promise.all] *)

Section PromiseAllFacts.

Variables (n : nat) (task : nat -> Completion AgentResult).

Lemma inb_In (i : nat) (l : list nat) : inb i l = true <-> In i l.
Proof.
  unfold inb. rewrite existsb_exists. split.
  - intros (j & Hj & Heq). apply Nat.eqb_eq in Heq. now subst.
  - intros Hin. exists i. split; [assumption|apply Nat.eqb_refl].
Qed.

Lemma setNth_map_seq (f : nat -> option AgentResult) (x : option AgentResult)
  (len a i : nat) :
  setNth i x (map f (seq a len))
  = map (fun j => if Nat.eqb j (a + i) then x else f j) (seq a len).
Proof.
  revert a i. induction len as [|len IH]; intros a i; [now destruct i|].
  cbn [seq map]. destruct i as [|i]; cbn [setNth].
  - rewrite Nat.add_0_r, Nat.eqb_refl. f_equal.
    apply map_ext_in. intros j Hj. apply in_seq in Hj.
    destruct (Nat.eqb_spec j a); [lia|reflexivity].
  - destruct (Nat.eqb_spec a (a + S i)); [lia|]. f_equal.
    rewrite IH. apply map_ext. intros j.
    now replace (S a + i) with (a + S i) by lia.
Qed.

Lemma repeat_map_seq (x : option AgentResult) (len a : nat) :
  repeat x len = map (fun _ => x) (seq a len).
Proof.
  revert a. induction len as [|len IH]; intros a; simpl; [reflexivity|].
  now rewrite (IH (S a)).
Qed.

Lemma allInit_invariant : allInvariant n task [] (allInit n).
Proof.
  unfold allInvariant, allInit. cbn [outcome values remaining].
  destruct (Nat.eqb_spec n 0) as [Hz|Hz].
  - split.
    + unfold allValues. now rewrite Hz.
    + intros i Hi. lia.
  - split; [simpl; lia|]. split; [intros i []|]. split; [simpl; lia|].
    unfold slots. cbn [inb existsb]. apply repeat_map_seq.
Qed.

(** Distinct indices below [n] are at most [n], and [n] of them are all. *)
Lemma distinct_below_all (l : list nat) :
  NoDup l -> (forall i, In i l -> i < n) -> List.length l = n ->
  forall i, i < n -> In i l.
Proof.
  intros Hnd Hlt Hlen i Hi.
  apply (NoDup_length_incl Hnd (l' := seq 0 n)).
  - rewrite length_seq. lia.
  - intros j Hj. apply in_seq. specialize (Hlt j Hj). lia.
  - apply in_seq. lia.
Qed.

Lemma distinct_below_length (l : list nat) :
  NoDup l -> (forall i, In i l -> i < n) -> List.length l <= n.
Proof.
  intros Hnd Hlt.
  rewrite <- (length_seq n 0). apply NoDup_incl_length; [assumption|].
  intros j Hj. apply in_seq. specialize (Hlt j Hj). lia.
Qed.

(** One more promise settles. *)
Lemma allStep_invariant (processed : list nat) (st : AllState) (i : nat) :
  NoDup (i :: processed) -> (forall j, In j (i :: processed) -> j < n) ->
  allInvariant n task processed st ->
  allInvariant n task (i :: processed) (allStep st (i, task i)).
Proof.
  intros Hnd Hlt. unfold allInvariant, allStep.
  destruct (outcome st) as [[rs|e|]|] eqn:Hout.
  - rewrite Hout. auto.
  - rewrite Hout. intros (j & Hj & He). exists j. split; [now right|assumption].
  - rewrite Hout. intros (j & Hj & He). exists j. split; [now right|assumption].
  - intros (Hlen & Hful & Hrem & Hvals).
    destruct (task i) as [v|e|] eqn:Hti; cbn [outcome].
    + assert (Hful' : forall j, In j (i :: processed) -> fulfilled task j).
      { intros j [<-|Hj]; [now exists v|now apply Hful]. }
      assert (Hslots : setNth i (Some v) (values st) = slots n task (i :: processed)).
      { rewrite Hvals. unfold slots. rewrite setNth_map_seq.
        apply map_ext. intros j. cbn [inb existsb Nat.add].
        destruct (Nat.eqb_spec j i) as [->|Hne]; [now rewrite Hti|reflexivity]. }
      destruct (Nat.eqb (pred (remaining st)) 0) eqn:Hz; cbn [values remaining].
      * apply Nat.eqb_eq in Hz.
        assert (Hall : forall j, j < n -> In j (i :: processed)).
        { apply distinct_below_all; try assumption. simpl. lia. }
        split; [|intros j Hj; apply Hful', Hall, Hj].
        rewrite Hslots. unfold allValues, slots. f_equal.
        apply map_ext_in. intros j Hj. apply in_seq in Hj.
        assert (Hin : inb j (i :: processed) = true) by (apply inb_In, Hall; lia).
        now rewrite Hin.
      * apply Nat.eqb_neq in Hz.
        repeat split; try assumption; simpl; lia.
    + exists i. split; [now left|assumption].
    + exists i. split; [now left|assumption].
Qed.

Lemma allFold_invariant (l processed : list nat) (st : AllState) :
  NoDup (rev processed ++ l) ->
  (forall j, In j (rev processed ++ l) -> j < n) ->
  allInvariant n task processed st ->
  allInvariant n task (rev l ++ processed)
    (fold_left allStep (map (fun i => (i, task i)) l) st).
Proof.
  revert processed st.
  induction l as [|i l IH]; intros processed st Hnd Hlt Hinv; [exact Hinv|].
  cbn [map fold_left rev]. rewrite <- app_assoc. cbn [app].
  apply IH.
  - cbn [rev]. now rewrite <- app_assoc.
  - cbn [rev]. now rewrite <- app_assoc.
  - apply allStep_invariant; try assumption.
    + apply NoDup_app_remove_r in Hnd as Hp.
      constructor.
      * intros Hin. apply NoDup_remove_2 in Hnd. apply Hnd.
        apply in_or_app. left. now apply in_rev in Hin.
      * apply NoDup_rev in Hp. now rewrite rev_involutive in Hp.
    + intros j [<-|Hj]; apply Hlt, in_or_app; [right; now left|left].
      now apply in_rev in Hj.
Qed.

(** [Promise.all] over a full schedule. *)
Lemma Promise_all_settles (sched : list nat) :
  NoDup sched -> (forall j, In j sched -> j < n) -> List.length sched = n ->
  match Promise_all n (map (fun i => (i, task i)) sched) with
  | None => False
  | Some (Returned rs) => rs = allValues n task /\ (forall i, i < n -> fulfilled task i)
  | Some (Thrown e) => exists i, i < n /\ task i = Thrown e
  | Some Uncaught => exists i, i < n /\ task i = Uncaught
  end.
Proof.
  intros Hnd Hlt Hlen. unfold Promise_all.
  pose proof (allFold_invariant sched [] (allInit n)) as Hinv.
  cbn [rev app] in Hinv. rewrite app_nil_r in Hinv.
  specialize (Hinv Hnd Hlt allInit_invariant).
  unfold allInvariant in Hinv.
  destruct (outcome _) as [[rs|e|]|].
  - exact Hinv.
  - destruct Hinv as (i & Hi & He). exists i. split; [|assumption].
    apply Hlt. now apply in_rev.
  - destruct Hinv as (i & Hi & He). exists i. split; [|assumption].
    apply Hlt. now apply in_rev.
  - destruct Hinv as (Hlt' & _). rewrite length_rev in Hlt'. lia.
Qed.

Lemma allValues_Forall2 :
  (forall i, i < n -> fulfilled task i) ->
  Forall2 (fun i r => task i = Returned r) (seq 0 n) (allValues n task).
Proof.
  unfold allValues. intros Hful.
  assert (H : forall l, (forall i, In i l -> fulfilled task i) ->
              Forall2 (fun i r => task i = Returned r) l
                (collect (map (fun i => valueOf (task i)) l))).
  { induction l as [|i l IH]; intros Hl; [constructor|].
    cbn [map]. destruct (Hl i (or_introl eq_refl)) as (r & Hr).
    rewrite Hr. cbn [valueOf collect]. constructor; [assumption|].
    apply IH. intros j Hj. apply Hl. now right. }
  apply H. intros i Hi. apply in_seq in Hi. apply Hful. lia.
Qed.

End PromiseAllFacts.

(** ** The fan-out coordinator *)

Lemma callAgent_result (P : Platform) (agentName promptText : jsstring)
  (config : ConsiliumConfig) (options : CallOptions) (w : CallWorld)
  (Q : AgentResult -> Prop) :
  (forall k, Q (cancelledResult agentName k)) ->
  Q (exhaustedResult agentName) ->
  (forall k r,
      attemptOutcome P agentName promptText (timeoutOf config options) w k
      = Returned r -> Q r) ->
  (forall r d, Q r -> Q (withDuration r d)) ->
  forall r, snd (callAgent P agentName promptText config options w) = Returned r ->
            Q r.
Proof.
  intros Hc He Ha Hd r. unfold callAgent.
  apply loop_result; try assumption. discriminate.
Qed.

Lemma callAgent_agent (P : Platform) (agentName promptText : jsstring)
  (config : ConsiliumConfig) (options : CallOptions) (w : CallWorld)
  (r : AgentResult) :
  snd (callAgent P agentName promptText config options w) = Returned r ->
  agent r = agentName.
Proof.
  apply (callAgent_result P agentName promptText config options w
           (fun r => agent r = agentName)); try reflexivity.
  - intros k r0. apply callAgentOnce_agent.
  - intros r0 d Hr0. exact Hr0.
Qed.

Lemma callAgent_invariant (P : Platform) (agentName promptText : jsstring)
  (config : ConsiliumConfig) (options : CallOptions) (w : CallWorld)
  (r : AgentResult) :
  snd (callAgent P agentName promptText config options w) = Returned r ->
  outcomeInvariant r.
Proof.
  apply (callAgent_result P agentName promptText config options w outcomeInvariant).
  - intros k Hs. discriminate Hs.
  - intros Hs. discriminate Hs.
  - intros k r0. apply callAgentOnce_invariant.
  - intros r0 d Hr0. exact Hr0.
Qed.

Section FanOut.

Variables (P : Platform) (task : jsstring) (config : ConsiliumConfig).

Lemma expertTask_returned (e : ExpertConfig) (tw : TaskWorld) (r : AgentResult) :
  expertTask P task config e tw = Returned r ->
  agent r = name e /\ outcomeInvariant r.
Proof.
  unfold expertTask.
  destruct (hookDefined config onExpertStart && startHookThrows tw); [discriminate|].
  destruct (snd (callAgent _ _ _ _ _ _)) as [r0|e0|] eqn:Hcall; [|discriminate..].
  destruct (hookDefined config onExpertEnd && endHookThrows tw); [discriminate|].
  intros Hr. inversion Hr; subst. split.
  - eapply callAgent_agent, Hcall.
  - eapply callAgent_invariant, Hcall.
Qed.

Lemma dedup_In (l seen : list nat) (i : nat) :
  In i (dedup seen l) <-> In i l /\ ~ In i seen.
Proof.
  revert seen. induction l as [|j l IH]; intros seen; cbn [dedup].
  - simpl. tauto.
  - fold (inb j seen). destruct (inb j seen) eqn:Hj.
    + apply inb_In in Hj. rewrite IH. simpl. split.
      * intros [Hin Hn]. auto.
      * intros [[<-|Hin] Hn]; [contradiction|auto].
    + assert (Hnj : ~ In j seen) by (rewrite <- inb_In; congruence).
      simpl. rewrite IH. simpl. split.
      * intros [<-|[Hin Hn]]; [auto|]. split; [auto|]. intros H; apply Hn; auto.
      * intros [[<-|Hin] Hn]; [auto|].
        destruct (Nat.eq_dec j i) as [->|Hne]; [auto|].
        right. split; [assumption|]. intros [H|H]; [contradiction|contradiction].
Qed.

Lemma dedup_NoDup (l seen : list nat) : NoDup (dedup seen l).
Proof.
  revert seen. induction l as [|j l IH]; intros seen; cbn [dedup].
  - constructor.
  - destruct (existsb (Nat.eqb j) seen); [apply IH|].
    constructor; [|apply IH].
    rewrite dedup_In. intros [_ Hn]. apply Hn. now left.
Qed.

Lemma dedup_id (l seen : list nat) :
  NoDup l -> (forall i, In i l -> ~ In i seen) -> dedup seen l = l.
Proof.
  revert seen. induction l as [|j l IH]; intros seen Hnd Hseen; [reflexivity|].
  cbn [dedup]. fold (inb j seen).
  destruct (inb j seen) eqn:Hj.
  - apply inb_In in Hj. exfalso. apply (Hseen j); [now left|assumption].
  - inversion Hnd as [|? ? Hnotin Hnd']; subst. f_equal. apply IH; [assumption|].
    intros i Hi [<-|Hin]; [contradiction|]. apply (Hseen i); [now right|assumption].
Qed.

Lemma schedule_spec (n : nat) (order : list nat) :
  NoDup (schedule n order)
  /\ (forall i, In i (schedule n order) <-> i < n).
Proof.
  unfold schedule.
  set (named := dedup [] (filter (fun i => Nat.ltb i n) order)).
  assert (Hnamed : forall i, In i named -> i < n).
  { intros i Hi. apply dedup_In in Hi as [Hi _].
    apply filter_In in Hi as [_ Hi]. now apply Nat.ltb_lt. }
  split.
  - apply NoDup_app.
    + apply dedup_NoDup.
    + apply NoDup_filter, seq_NoDup.
    + intros i Hi Hi'. apply filter_In in Hi' as [_ Hi'].
      apply inb_In in Hi. unfold inb in Hi. rewrite Hi in Hi'. discriminate.
  - intros i. rewrite in_app_iff, filter_In, in_seq. split.
    + intros [Hi|[Hi _]]; [now apply Hnamed|lia].
    + intros Hi. destruct (inb i named) eqn:Hin.
      * left. now apply inb_In.
      * right. split; [lia|]. unfold inb in Hin. now rewrite Hin.
Qed.

Lemma schedule_length (n : nat) (order : list nat) :
  List.length (schedule n order) = n.
Proof.
  destruct (schedule_spec n order) as [Hnd Hin].
  transitivity (List.length (seq 0 n)); [|apply length_seq].
  apply Permutation_length.
  apply NoDup_Permutation; [assumption|apply seq_NoDup|].
  intros i. rewrite Hin, in_seq. lia.
Qed.

(** Every completion order of the [n] promises is its own schedule. *)
Lemma schedule_permutation (n : nat) (order : list nat) :
  Permutation order (seq 0 n) -> schedule n order = order.
Proof.
  intros Hperm. unfold schedule.
  assert (Hin : forall i, In i order <-> i < n).
  { intros i. split; intros Hi.
    - apply (Permutation_in _ Hperm), in_seq in Hi. lia.
    - apply (Permutation_in _ (Permutation_sym Hperm)), in_seq. lia. }
  assert (Hfilter : filter (fun i => Nat.ltb i n) order = order).
  { apply forallb_filter_id, forallb_forall. intros i Hi.
    now apply Nat.ltb_lt, Hin. }
  rewrite Hfilter, dedup_id.
  - rewrite <- app_nil_r. f_equal.
    assert (forall l, (forall i, In i l -> i < n) ->
              filter (fun i => negb (existsb (Nat.eqb i) order)) l = []) as Hnone.
    { induction l as [|i l IH]; intros Hl; [reflexivity|].
      cbn [filter]. fold (inb i order).
      assert (Hi : inb i order = true) by (apply inb_In, Hin, Hl; now left).
      rewrite Hi. apply IH. intros j Hj. apply Hl. now right. }
    apply Hnone. intros i Hi. apply in_seq in Hi. lia.
  - apply (Permutation_NoDup (Permutation_sym Hperm)), seq_NoDup.
  - intros i _ [].
Qed.

Lemma arrivals_taskAt (enabledExperts : list ExpertConfig)
  (worlds : nat -> TaskWorld) (l : list nat) :
  (forall i, In i l -> i < List.length enabledExperts) ->
  flat_map (arrivalOf P task config enabledExperts worlds) l
  = map (fun i => (i, taskAt P task config enabledExperts worlds i)) l.
Proof.
  induction l as [|i l IH]; intros Hl; [reflexivity|].
  cbn [flat_map map]. rewrite IH by (intros j Hj; apply Hl; now right).
  unfold arrivalOf, taskAt.
  destruct (nth_error enabledExperts i) eqn:Hi; [reflexivity|].
  apply nth_error_None in Hi. specialize (Hl i (or_introl eq_refl)). lia.
Qed.

(** How the fan-out ends, whatever the completion order. *)
Lemma callExpertsParallel_settles (expertList : list ExpertConfig)
  (worlds : nat -> TaskWorld) (order : list nat) :
  let enabledExperts := filter isEnabled expertList in
  let n := List.length enabledExperts in
  let promise := taskAt P task config enabledExperts worlds in
  match callExpertsParallel P expertList task config worlds order with
  | None => False
  | Some (Returned rs) =>
    rs = allValues n promise /\ (forall i, i < n -> fulfilled promise i)
  | Some (Thrown e) => exists i, i < n /\ promise i = Thrown e
  | Some Uncaught => exists i, i < n /\ promise i = Uncaught
  end.
Proof.
  intros enabledExperts n promise. unfold callExpertsParallel.
  fold enabledExperts. fold n.
  destruct (schedule_spec n order) as [Hnd Hin].
  rewrite arrivals_taskAt by (intros i Hi; now apply Hin).
  apply Promise_all_settles.
  - assumption.
  - intros j Hj. now apply Hin.
  - apply schedule_length.
Qed.

End FanOut.

Lemma nth_error_seq_lt (a len i : nat) :
  i < len -> nth_error (seq a len) i = Some (a + i).
Proof.
  revert a i. induction len as [|len IH]; intros a i Hi; [lia|].
  destruct i as [|i]; cbn [seq nth_error].
  - now rewrite Nat.add_0_r.
  - rewrite IH by lia. f_equal. lia.
Qed.

Lemma Forall2_nth_error_l {A B : Type} (R : A -> B -> Prop)
  (l1 : list A) (l2 : list B) (i : nat) (a : A) :
  Forall2 R l1 l2 -> nth_error l1 i = Some a ->
  exists b, nth_error l2 i = Some b /\ R a b.
Proof.
  intros HF. revert i. induction HF as [|x y l1 l2 Hxy HF IH]; intros i Hi.
  - destruct i; discriminate.
  - destruct i as [|i]; cbn [nth_error] in *.
    + inversion Hi; subst. now exists y.
    + now apply IH.
Qed.

Lemma Forall2_of_nth_error {A B : Type} (R : A -> B -> Prop)
  (l1 : list A) (l2 : list B) :
  List.length l1 = List.length l2 ->
  (forall i a b, nth_error l1 i = Some a -> nth_error l2 i = Some b -> R a b) ->
  Forall2 R l1 l2.
Proof.
  revert l2. induction l1 as [|x l1 IH]; intros [|y l2] Hlen Hnth;
    try discriminate; constructor.
  - apply (Hnth 0); reflexivity.
  - apply IH; [simpl in Hlen; lia|].
    intros i a b Ha Hb. apply (Hnth (S i)); assumption.
Qed.

(** The collection the fan-out returns, entry by entry. *)
Lemma callExpertsParallel_entries (P : Platform) (expertList : list ExpertConfig)
  (task : jsstring) (config : ConsiliumConfig) (worlds : nat -> TaskWorld)
  (order : list nat) (rs : list AgentResult) :
  callExpertsParallel P expertList task config worlds order = Some (Returned rs) ->
  List.length rs = List.length (filter isEnabled expertList)
  /\ (forall i e, nth_error (filter isEnabled expertList) i = Some e ->
        exists r, nth_error rs i = Some r
                  /\ expertTask P task config e (worlds i) = Returned r).
Proof.
  intros Hcall.
  pose proof (callExpertsParallel_settles P task config expertList worlds order) as Hs.
  cbv zeta in Hs. rewrite Hcall in Hs. destruct Hs as [Hrs Hful].
  apply allValues_Forall2 in Hful. rewrite <- Hrs in Hful.
  split.
  - apply Forall2_length in Hful. now rewrite length_seq in Hful.
  - intros i e Hi.
    assert (Hlt : i < List.length (filter isEnabled expertList))
      by (apply nth_error_Some; congruence).
    destruct (Forall2_nth_error_l _ _ _ i i Hful) as (r & Hr & Htask).
    { now rewrite nth_error_seq_lt. }
    exists r. split; [assumption|].
    unfold taskAt in Htask. now rewrite Hi in Htask.
Qed.

(** C1.  With [N >= 1] enabled experts, the collection the fan-out
    coordinator returns has exactly [N] entries; entry [i] is the outcome of
    the task of the [i]-th enabled expert and carries its name; and the same
    collection is returned for every order in which the concurrent tasks
    complete.  The coordinator does return whenever every task is
    fulfilled. *)
Theorem callExpertsParallel_order (P : Platform) (expertList : list ExpertConfig)
  (task : jsstring) (config : ConsiliumConfig) (worlds : nat -> TaskWorld)
  (order : list nat) :
  let enabledExperts := filter isEnabled expertList in
  let N := List.length enabledExperts in
  1 <= N ->
  ((forall i e, nth_error enabledExperts i = Some e ->
      exists r, expertTask P task config e (worlds i) = Returned r) ->
   exists rs, callExpertsParallel P expertList task config worlds order
              = Some (Returned rs))
  /\ (forall rs,
        callExpertsParallel P expertList task config worlds order
        = Some (Returned rs) ->
        List.length rs = N
        /\ Forall2 (fun e r => agent r = name e) enabledExperts rs
        /\ (forall i e, nth_error enabledExperts i = Some e ->
              exists r, nth_error rs i = Some r
                        /\ expertTask P task config e (worlds i) = Returned r)
        /\ (forall order',
              callExpertsParallel P expertList task config worlds order'
              = Some (Returned rs))).
Proof.
  intros enabledExperts N HN. split.
  - intros Hall.
    pose proof (callExpertsParallel_settles P task config expertList worlds order) as Hs.
    cbv zeta in Hs. fold enabledExperts in Hs. fold N in Hs.
    destruct (callExpertsParallel P expertList task config worlds order)
      as [[rs|e|]|]; [now exists rs| | |contradiction];
      exfalso; destruct Hs as (i & Hi & Hthrown); unfold taskAt in Hthrown;
      (destruct (nth_error enabledExperts i) as [ex|] eqn:Hex;
       [ destruct (Hall i ex Hex) as (r & Hr); congruence
       | apply nth_error_None in Hex; unfold N in Hi; lia ]).
  - intros rs Hcall.
    destruct (callExpertsParallel_entries P expertList task config worlds order rs Hcall)
      as [Hlen Hnth].
    fold enabledExperts in Hlen, Hnth. fold N in Hlen.
    split; [assumption|]. split; [|split; [assumption|]].
    + apply Forall2_of_nth_error; [unfold N in Hlen; congruence|].
      intros i e r He Hr. destruct (Hnth i e He) as (r' & Hr' & Htask).
      assert (r' = r) by congruence. subst r'.
      now apply expertTask_returned in Htask as [Hagent _].
    + intros order'.
      pose proof (callExpertsParallel_settles P task config expertList worlds order) as Hs.
      pose proof (callExpertsParallel_settles P task config expertList worlds order') as Hs'.
      cbv zeta in Hs, Hs'. rewrite Hcall in Hs. destruct Hs as [Hrs Hful].
      destruct (callExpertsParallel P expertList task config worlds order')
        as [[rs'|e|]|]; [| | |contradiction].
      * destruct Hs' as [Hrs' _]. congruence.
      * exfalso. destruct Hs' as (i & Hi & Hthrown).
        destruct (Hful i Hi) as (r & Hr). congruence.
      * exfalso. destruct Hs' as (i & Hi & Hthrown).
        destruct (Hful i Hi) as (r & Hr). congruence.
Qed.

(** The four default experts, all answering, completing in the order
    ba, arch, sec, ux. *)
Lemma callExpertsParallel_order_witness :
  exists rs,
    callExpertsParallel Reference.platform (experts Examples.config) (utf16 "task")
      Examples.config (fun _ => Examples.answeringTask) [2; 0; 3; 1]
    = Some (Returned rs)
    /\ List.length rs = 4
    /\ Forall2 (fun e r => agent r = name e) (experts Examples.config) rs.
Proof.
  assert (HN : 1 <= List.length (filter isEnabled (experts Examples.config)))
    by (vm_compute; lia).
  destruct (callExpertsParallel_order Reference.platform (experts Examples.config)
              (utf16 "task") Examples.config (fun _ => Examples.answeringTask)
              [2; 0; 3; 1] HN) as [Hreturns Hentries].
  destruct Hreturns as (rs & Hrs).
  - intros i e Hi.
    destruct i as [|[|[|[|i]]]]; cbn in Hi;
      [inversion Hi; subst; eexists; vm_compute; reflexivity..
      |destruct i; discriminate].
  - exists rs. split; [assumption|].
    destruct (Hentries rs Hrs) as (Hlen & Hnames & _).
    split; [exact Hlen|exact Hnames].
Defined.

(** ** The round driver *)

Section Round.

Variable P : Platform.

Lemma runCatch_thrown (inst : Instance) (h : ConsiliumHooks) (w : RunWorld)
  (e : Err) :
  exists e', runCatch inst h w e = (setStatus inst failed, Thrown e').
Proof.
  unfold runCatch. destruct (onError h && onErrorThrows w); eauto.
Qed.

Ltac catch_throws :=
  match goal with
  | |- context [runCatch ?i ?h ?w ?e] =>
    let e' := fresh "e" in
    let H := fresh "H" in
    destruct (runCatch_thrown i h w e) as (e' & H); rewrite H
  end.

(** A chair phase that returns a result. *)
Lemma runChair_returned (inst inst' : Instance) (task : jsstring)
  (options : RunOptions) (h : ConsiliumHooks) (w : RunWorld)
  (rs : list AgentResult) (res : ConsiliumResult) :
  runChair P inst task options h w rs = (inst', Returned res) ->
  resultExperts res = rs
  /\ (exists c, callChair P rs task c (chairWorld w) = Returned (resultChair res))
  /\ ((status inst' = cancelled /\ cancelledAfterChair w = true
       /\ resultSuccess res = false
       /\ metadata res = Some [(utf16 "cancelled", VBool true)])
      \/ (status inst' = completed /\ cancelledAfterChair w = false
          /\ resultSuccess res = success (resultChair res))).
Proof.
  unfold runChair.
  match goal with
  | |- context [callChair P rs task ?c (chairWorld w)] =>
    destruct (callChair P rs task c (chairWorld w)) as [chairResult|e|] eqn:Hchair
  end.
  - destruct (cancelledAfterChair w) eqn:Hc.
    + intros H. inversion H; subst. cbn.
      split; [reflexivity|]. split; [eauto|]. left. now repeat split.
    + match goal with
      | |- context [if ?b && saveThrows w then _ else _] =>
        destruct (b && saveThrows w)
      end.
      { catch_throws. discriminate. }
      destruct (onEnd h && onEndThrows w).
      { catch_throws. discriminate. }
      intros H. inversion H; subst. cbn.
      split; [reflexivity|]. split; [eauto|]. right. now repeat split.
  - catch_throws. discriminate.
  - discriminate.
Qed.

(** A round that returns a result. *)
Lemma run_returned (inst inst' : Instance) (task : jsstring)
  (options : RunOptions) (w : RunWorld) (res : ConsiliumResult) :
  run P inst task options w = Some (inst', Returned res) ->
  status inst = idle
  /\ cliAvailable w = true
  /\ callExpertsParallel P (selectExperts inst options) task (config inst)
       (expertWorlds w) (completionOrder w)
     = Some (Returned (resultExperts res))
  /\ ((cancelledAfterExperts w = true /\ status inst' = cancelled
       /\ success (resultChair res) = false
       /\ resultSuccess res = false
       /\ metadata res = Some [(utf16 "cancelled", VBool true)])
      \/ (cancelledAfterExperts w = false
          /\ (exists c, callChair P (resultExperts res) task c (chairWorld w)
                        = Returned (resultChair res))
          /\ (status inst' = cancelled \/ status inst' = completed))).
Proof.
  unfold run. destruct (status inst) eqn:Hst; try discriminate.
  destruct (cliAvailable w); cbn [negb]; [|discriminate].
  match goal with
  | |- context [if ?b && onStartThrows w then _ else _] =>
    destruct (b && onStartThrows w)
  end.
  { catch_throws. discriminate. }
  change (selectExperts _ options) with (selectExperts inst options).
  cbn [config].
  destruct (Nat.eqb (List.length (selectExperts inst options)) 0).
  { catch_throws. discriminate. }
  destruct (callExpertsParallel P (selectExperts inst options) task (config inst)
              (expertWorlds w) (completionOrder w)) as [[rs|e|]|];
    [| |discriminate..].
  - destruct (cancelledAfterExperts w) eqn:Hc.
    + intros H. inversion H; subst. cbn.
      repeat split. left. now repeat split.
    + intros H. inversion H as [Hrun]. clear H.
      apply runChair_returned in Hrun as (Hexp & Hchair & Hstatus).
      subst rs. repeat split. right. split; [reflexivity|]. split; [assumption|].
      destruct Hstatus as [(Hs & _)|(Hs & _)]; auto.
  - catch_throws. discriminate.
Qed.

(** [run] on an instance that is not idle throws and changes nothing. *)
Lemma run_not_idle (inst : Instance) (task : jsstring) (options : RunOptions)
  (w : RunWorld) :
  status inst <> idle ->
  run P inst task options w = Some (inst, Thrown (AlreadyRunning (status inst))).
Proof.
  unfold run. destruct (status inst); congruence.
Qed.

(** [run] never leaves an instance idle. *)
Lemma run_leaves_idle (inst inst' : Instance) (task : jsstring)
  (options : RunOptions) (w : RunWorld) (c : Completion ConsiliumResult) :
  run P inst task options w = Some (inst', c) -> status inst' <> idle.
Proof.
  destruct (status inst) eqn:Hst.
  2-6: rewrite run_not_idle by congruence; intros H; inversion H; subst;
       congruence.
  unfold run. rewrite Hst.
  assert (Hcatch : forall i h e,
             Some (runCatch i h w e) = Some (inst', c) -> status inst' <> idle).
  { intros i h e. destruct (runCatch_thrown i h w e) as (e' & ->).
    intros H; inversion H; discriminate. }
  destruct (negb (cliAvailable w)); [intros H; inversion H; discriminate|].
  match goal with
  | |- context [if ?b && onStartThrows w then _ else _] =>
    destruct (b && onStartThrows w)
  end; [apply Hcatch|].
  match goal with
  | |- context [if Nat.eqb ?n 0 then _ else _] => destruct (Nat.eqb n 0)
  end; [apply Hcatch|].
  match goal with
  | |- context [callExpertsParallel P ?l task ?c ?ws ?o] =>
    destruct (callExpertsParallel P l task c ws o) as [[rs|e0|]|]
  end; [|apply Hcatch|intros H; inversion H; discriminate|discriminate].
  destruct (cancelledAfterExperts w); [intros H; inversion H; discriminate|].
  unfold runChair.
  match goal with
  | |- context [callChair P rs task ?c (chairWorld w)] =>
    destruct (callChair P rs task c (chairWorld w))
  end; [|apply Hcatch|intros H; inversion H; discriminate].
  destruct (cancelledAfterChair w); [intros H; inversion H; discriminate|].
  match goal with
  | |- context [if ?b && saveThrows w then _ else _] =>
    destruct (b && saveThrows w)
  end; [apply Hcatch|].
  destruct (onEnd _ && onEndThrows w); [apply Hcatch|].
  intros H; inversion H; discriminate.
Qed.

(** No operation takes an instance back to idle. *)
Lemma step_keeps_busy (s s' : Instance * Registry) (op : Op) :
  step P s op s' -> status (fst s) <> idle -> status (fst s') <> idle.
Proof.
  intros Hstep. destruct Hstep as [inst g task options w inst' c g' Hrun| | |inst g h|];
    cbn [fst]; try tauto.
  - intros _. eapply run_leaves_idle, Hrun.
  - unfold use. now destruct h.
Qed.

Lemma steps_keep_busy (s s' : Instance * Registry) (ops : list Op) :
  steps P s ops s' -> status (fst s) <> idle -> status (fst s') <> idle.
Proof.
  induction 1 as [|s op s1 ops s2 Hstep Hsteps IH]; [tauto|].
  intros Hbusy. apply IH. eapply step_keeps_busy; eassumption.
Qed.

(** After a first [run], whatever happens in between, every later [run]
    throws and runs nothing. *)
Lemma second_run_throws (inst inst1 inst2 : Instance) (g g1 g2 : Registry)
  (task task' : jsstring) (options options' : RunOptions) (w w' : RunWorld)
  (ops : list Op) :
  step P (inst, g) (OpRun task options w) (inst1, g1) ->
  steps P (inst1, g1) ops (inst2, g2) ->
  run P inst2 task' options' w'
  = Some (inst2, Thrown (AlreadyRunning (status inst2))).
Proof.
  intros Hfirst Hbetween. apply run_not_idle.
  apply (steps_keep_busy _ _ _ Hbetween). cbn [fst].
  inversion Hfirst; subst. eapply run_leaves_idle; eassumption.
Qed.

End Round.

(** C5.  A round that gets through its expert phase (the instance is idle,
    the CLI is there, the start hook does not throw, some expert is
    selected, the fan-out returns) and then finds the cancellation flag set
    returns normally: [run] does not throw, the instance is [cancelled],
    and the result has [success = false] and the metadata
    [{ cancelled: true }]. *)
Theorem run_cancelled_returns (P : Platform) (inst : Instance) (task : jsstring)
  (options : RunOptions) (w : RunWorld) (rs : list AgentResult) :
  status inst = idle ->
  cliAvailable w = true ->
  onStart (spreadHooks (hooks (config inst)) (optHooks options))
    && onStartThrows w = false ->
  selectExperts inst options <> [] ->
  callExpertsParallel P (selectExperts inst options) task (config inst)
    (expertWorlds w) (completionOrder w) = Some (Returned rs) ->
  cancelledAfterExperts w = true ->
  exists inst' res,
    run P inst task options w = Some (inst', Returned res)
    /\ status inst' = cancelled
    /\ resultSuccess res = false
    /\ metadata res = Some [(utf16 "cancelled", VBool true)]
    /\ resultText res = utf16 "[Консилиум отменён]"
    /\ resultExperts res = rs
    /\ success (resultChair res) = false.
Proof.
  intros Hidle Hcli Hstart Hsome Hfan Hflag.
  unfold run. rewrite Hidle, Hcli. cbn [negb config]. rewrite Hstart.
  change (selectExperts _ options) with (selectExperts inst options).
  destruct (selectExperts inst options) as [|e l] eqn:Hsel; [contradiction|].
  cbn [List.length Nat.eqb]. rewrite Hfan, Hflag.
  eexists. eexists. split; [reflexivity|]. cbn. now repeat split.
Qed.

(** The default configuration, all four experts answering, cancelled
    while they run. *)
Lemma run_cancelled_returns_witness :
  exists inst' res,
    run Reference.platform (newConsilium Examples.config) (utf16 "task")
      Examples.noRunOptions Examples.cancelledRound
    = Some (inst', Returned res)
    /\ status inst' = cancelled
    /\ resultSuccess res = false
    /\ metadata res = Some [(utf16 "cancelled", VBool true)].
Proof.
  destruct (callExpertsParallel Reference.platform
              (selectExperts (newConsilium Examples.config) Examples.noRunOptions)
              (utf16 "task") (config (newConsilium Examples.config))
              (expertWorlds Examples.cancelledRound)
              (completionOrder Examples.cancelledRound))
    as [[rs|e|]|] eqn:Hfan; try (vm_compute in Hfan; discriminate).
  destruct (run_cancelled_returns Reference.platform
              (newConsilium Examples.config) (utf16 "task")
              Examples.noRunOptions Examples.cancelledRound rs)
    as (inst' & res & Hrun & Hst & Hsucc & Hmeta & _).
  - reflexivity.
  - reflexivity.
  - reflexivity.
  - vm_compute. discriminate.
  - exact Hfan.
  - reflexivity.
  - exists inst', res. repeat split; assumption.
Defined.

(** C9.  Every outcome the engine produces satisfies the invariant
    [success = true] implies no error code and a non-empty text: the
    outcome of a launch on each of its paths (completion, empty response,
    timeout, spawn error), the cancellation and exhausted outcomes, what
    [callAgent] returns, every entry of what the fan-out returns, what
    [callChair] returns, and the expert and chair outcomes inside every
    result of [run]. *)
Theorem outcome_invariant_everywhere (P : Platform) :
  (forall agentName promptText timeoutMs k events r,
      callAgentOnce P agentName promptText timeoutMs k events = Returned r ->
      outcomeInvariant r)
  /\ (forall agentName k text err message,
        outcomeInvariant (decodedResult agentName k text err)
        /\ outcomeInvariant (timeoutResult agentName k)
        /\ outcomeInvariant (errorResult agentName k message)
        /\ outcomeInvariant (cancelledResult agentName k)
        /\ outcomeInvariant (exhaustedResult agentName))
  /\ (forall agentName promptText config options w r,
        snd (callAgent P agentName promptText config options w) = Returned r ->
        outcomeInvariant r)
  /\ (forall expertList task config worlds order rs,
        callExpertsParallel P expertList task config worlds order
        = Some (Returned rs) ->
        Forall outcomeInvariant rs)
  /\ (forall rs task config tw r,
        callChair P rs task config tw = Returned r -> outcomeInvariant r)
  /\ (forall inst task options w inst' res,
        run P inst task options w = Some (inst', Returned res) ->
        Forall outcomeInvariant (resultExperts res)
        /\ outcomeInvariant (resultChair res)).
Proof.
  assert (Hfan : forall expertList task config worlds order rs,
             callExpertsParallel P expertList task config worlds order
             = Some (Returned rs) ->
             Forall outcomeInvariant rs).
  { intros expertList task config worlds order rs Hcall.
    apply callExpertsParallel_entries in Hcall as [Hlen Hnth].
    apply Forall_forall. intros r Hr.
    apply In_nth_error in Hr as (i & Hi).
    assert (Hlt : i < List.length rs) by (apply nth_error_Some; congruence).
    destruct (nth_error (filter isEnabled expertList) i) as [e|] eqn:He.
    - destruct (Hnth i e He) as (r' & Hr' & Htask).
      assert (r' = r) by congruence. subst r'.
      now apply expertTask_returned in Htask as [_ Hinv].
    - apply nth_error_None in He. lia. }
  assert (Hchair : forall rs task config tw r,
             callChair P rs task config tw = Returned r -> outcomeInvariant r).
  { intros rs task config tw r. unfold callChair.
    destruct (hookDefined config onChairStart && startHookThrows tw); [discriminate|].
    destruct (snd (callAgent _ _ _ _ _ _)) as [r0|e0|] eqn:Hcall; [|discriminate..].
    destruct (hookDefined config onChairEnd && endHookThrows tw); [discriminate|].
    intros Hr. inversion Hr; subst. eapply callAgent_invariant, Hcall. }
  split; [intros agentName promptText timeoutMs k events r;
          apply callAgentOnce_invariant|].
  split.
  { intros agentName k text err message.
    split.
    { unfold decodedResult, outcomeInvariant.
      destruct text as [|c rest]; simpl; intros Hs;
        [discriminate|split; [reflexivity|discriminate]]. }
    split; [intros Hs; discriminate Hs|].
    split; [intros Hs; discriminate Hs|].
    split; intros Hs; discriminate Hs. }
  split; [intros agentName promptText config options w r; apply callAgent_invariant|].
  split; [exact Hfan|]. split; [exact Hchair|].
  intros inst task options w inst' res Hrun.
  apply run_returned in Hrun as (_ & _ & Hexperts & Hrest).
  split; [eapply Hfan, Hexperts|].
  destruct Hrest as [(_ & _ & Hs & _)|(_ & (c & Hc) & _)].
  - intros Hs'. congruence.
  - eapply Hchair, Hc.
Qed.

(** A launch that answers [A]: the outcome is a success, so it has no error
    code and its text is not empty. *)
Lemma outcome_invariant_everywhere_witness :
  exists r,
    callAgentOnce Reference.platform (utf16 "arch") (utf16 "task") 1000 0
      (Examples.answering (utf16 "A")) = Returned r
    /\ success r = true /\ errorCode r = None /\ text r <> [].
Proof.
  eexists. split; [vm_compute; reflexivity|].
  split; [reflexivity|].
  destruct (outcome_invariant_everywhere Reference.platform) as (Honce & _).
  apply (Honce (utf16 "arch") (utf16 "task") 1000%Z 0
               (Examples.answering (utf16 "A"))).
  - vm_compute. reflexivity.
  - reflexivity.
Defined.

(** C10.  [run] on an idle instance whose OpenCode CLI is not available
    throws from outside the [try] block: the status stays
    [running_experts], which is none of the terminal values, although the
    [catch] block sets [failed] for every error thrown inside the [try].
    The instance is not idle, so every later [run] throws. *)
Theorem run_without_cli (P : Platform) (inst : Instance) (task : jsstring)
  (options : RunOptions) (w : RunWorld) :
  status inst = idle ->
  cliAvailable w = false ->
  exists inst',
    run P inst task options w = Some (inst', Thrown CliNotFound)
    /\ status inst' = running_experts
    /\ (forall task' options' w',
          run P inst' task' options' w'
          = Some (inst', Thrown (AlreadyRunning running_experts))).
Proof.
  intros Hidle Hcli. unfold run at 1. rewrite Hidle, Hcli. cbn [negb].
  eexists. split; [reflexivity|]. split; [reflexivity|].
  intros task' options' w'. apply (run_not_idle P). discriminate.
Qed.

Lemma run_without_cli_witness :
  exists inst',
    run Reference.platform (newConsilium Examples.config) (utf16 "task")
      Examples.noRunOptions Examples.roundWithoutCli
    = Some (inst', Thrown CliNotFound)
    /\ status inst' = running_experts.
Proof.
  destruct (run_without_cli Reference.platform (newConsilium Examples.config)
              (utf16 "task") Examples.noRunOptions Examples.roundWithoutCli)
    as (inst' & Hrun & Hstatus & _).
  - reflexivity.
  - reflexivity.
  - exists inst'. split; assumption.
Defined.

(** The sibling path: with the CLI available and no expert selected the
    error is thrown inside the [try], and the status becomes [failed]. *)
Lemma run_without_experts (P : Platform) (inst : Instance) (task : jsstring)
  (options : RunOptions) (w : RunWorld) :
  status inst = idle ->
  cliAvailable w = true ->
  onStart (spreadHooks (hooks (config inst)) (optHooks options))
    && onStartThrows w = false ->
  selectExperts inst options = [] ->
  exists inst' e,
    run P inst task options w = Some (inst', Thrown e)
    /\ status inst' = failed.
Proof.
  intros Hidle Hcli Hstart Hnone.
  unfold run. rewrite Hidle, Hcli. cbn [negb config]. rewrite Hstart.
  change (selectExperts _ options) with (selectExperts inst options).
  rewrite Hnone. cbn [List.length Nat.eqb].
  match goal with
  | |- context [runCatch ?i ?h ?w ?e] =>
    destruct (runCatch_thrown i h w e) as (e' & H); rewrite H
  end.
  eexists. exists e'. split; reflexivity.
Qed.

(** A round that returns leaves a terminal status. *)
Lemma run_returned_terminal (P : Platform) (inst inst' : Instance)
  (task : jsstring) (options : RunOptions) (w : RunWorld)
  (res : ConsiliumResult) :
  run P inst task options w = Some (inst', Returned res) ->
  status inst' = completed \/ status inst' = cancelled.
Proof.
  intros H. apply run_returned in H as (_ & _ & _ & [H|H]).
  - destruct H as (_ & -> & _). now right.
  - destruct H as (_ & _ & [-> | ->]); auto.
Qed.

(** ** The fan-in synthesizer *)

Section FanIn.

Variable P : Platform.

Lemma appendExperts_concat (prompt : jsstring) (results : list AgentResult) :
  Defaults.appendExperts P prompt results
  = prompt ++ List.concat (map (Defaults.expertSection P) results).
Proof.
  revert prompt. induction results as [|r rest IH]; intros prompt;
    cbn [Defaults.appendExperts map List.concat].
  - now rewrite app_nil_r.
  - rewrite IH. now rewrite <- app_assoc.
Qed.

Lemma startsWith_app (b c : jsstring) : startsWith (b ++ c) b = true.
Proof.
  induction b as [|x b IH]; [now destruct c|].
  simpl. now rewrite N.eqb_refl, IH.
Qed.

Lemma includes_app (a b c : jsstring) : includes (a ++ b ++ c) b = true.
Proof.
  induction a as [|x a IH].
  - cbn [app]. pose proof (startsWith_app b c) as Hstart.
    destruct (b ++ c); cbn [includes]; now rewrite Hstart.
  - cbn [app includes]. rewrite IH. apply orb_true_r.
Qed.

Lemma includes_section (results : list AgentResult) (r : AgentResult)
  (head tail piece pre post : jsstring) :
  In r results ->
  Defaults.expertSection P r = pre ++ piece ++ post ->
  includes (head ++ List.concat (map (Defaults.expertSection P) results) ++ tail)
    piece = true.
Proof.
  intros Hin Hsec. apply in_split in Hin as (l1 & l2 & ->).
  rewrite map_app, concat_app. cbn [map List.concat]. rewrite Hsec.
  replace (head ++ (List.concat (map (Defaults.expertSection P) l1)
                    ++ (pre ++ piece ++ post)
                    ++ List.concat (map (Defaults.expertSection P) l2)) ++ tail)
    with ((head ++ List.concat (map (Defaults.expertSection P) l1) ++ pre)
          ++ piece
          ++ (post ++ List.concat (map (Defaults.expertSection P) l2) ++ tail))
    by (now rewrite <- !app_assoc).
  apply includes_app.
Qed.

End FanIn.

(** What the code does with [maxExpertTextLength]: nothing.  The default
    input is the same for every configured maximum. *)
Lemma chairPrompt_ignores_limit (P : Platform) (results : list AgentResult)
  (task : jsstring) (limit : Z) :
  chairPrompt P results task (Examples.plainChairConfig limit)
  = chairPrompt P results task (Examples.plainChairConfig 3000).
Proof. reflexivity. Qed.

Example chairPrompt_limit_one :
  includes (chairPrompt Reference.platform
              [Examples.outcomeOf (utf16 "a") (utf16 "XY")] (utf16 "task")
              (Examples.plainChairConfig 1))
           (utf16 "XY") = true.
Proof. vm_compute. reflexivity. Qed.

(** C8, as worded, fails on the two outcomes of its example: with an empty
    job input the default chair input holds neither [a] nor [b], because
    the template writes the identities in upper case. *)
Lemma chairPrompt_identity_counterexample :
  ~ containsIdentityAndText Reference.platform (Examples.plainChairConfig 3000)
      [] Examples.twoOutcomes.
Proof.
  intros Hclaim.
  destruct (Hclaim (Examples.outcomeOf (utf16 "a") (utf16 "X")) (or_introl eq_refl))
    as [Hidentity _].
  vm_compute in Hidentity. discriminate.
Qed.

(** C8, amended.  Without a custom synthesis function the chair input is
    the default template: between a fixed head and tail it holds one
    section per outcome, in order, made of the outcome's identity in upper
    case and of its text cut to 3000 code units; so it contains each
    identity in upper case and, when the configured maximum length is 3000,
    each text truncated to the configured maximum. *)
Theorem chairPrompt_default (P : Platform) (config : ConsiliumConfig)
  (task : jsstring) (results : list AgentResult) (limit : Z) :
  promptTemplate (chair config) = None ->
  maxExpertTextLength (chair config) = Some limit ->
  limit = 3000%Z ->
  let prompt := chairPrompt P results task config in
  (exists head tail,
      prompt = head
               ++ List.concat
                    (map (fun r => utf16 "### " ++ toUpperCase P (agent r) ++ nl
                                   ++ substring0 (text r) limit ++ nl ++ nl)
                         results)
               ++ tail)
  /\ (forall r, In r results ->
        includes prompt (toUpperCase P (agent r)) = true
        /\ includes prompt (substring0 (text r) limit) = true).
Proof.
  intros Hdefault Hlimit -> prompt. subst prompt.
  unfold chairPrompt. rewrite Hdefault.
  unfold Defaults.DEFAULT_CHAIR_PROMPT_TEMPLATE. cbv zeta.
  rewrite appendExperts_concat.
  set (head := (utf16 "Синтезируй мнения экспертов и составь итоговый план." ++ nl ++ nl)
               ++ (utf16 "## Задача" ++ nl ++ task ++ nl ++ nl)
               ++ (utf16 "## Мнения экспертов" ++ nl)).
  match goal with
  | |- context [((((?body ++ ?t1) ++ ?t2) ++ ?t3) ++ ?t4) ++ ?t5] =>
    set (tail := t1 ++ t2 ++ t3 ++ t4 ++ t5);
    replace (((((body ++ t1) ++ t2) ++ t3) ++ t4) ++ t5)
      with (head ++ List.concat (map (Defaults.expertSection P) results) ++ tail)
      by (subst tail head; now rewrite <- !app_assoc)
  end.
  split.
  - exists head, tail. reflexivity.
  - intros r Hr. split.
    + apply (includes_section P results r head tail _ (utf16 "### ")
               (nl ++ substring0 (text r) 3000 ++ nl ++ nl) Hr).
      reflexivity.
    + apply (includes_section P results r head tail _
               (utf16 "### " ++ toUpperCase P (agent r) ++ nl) (nl ++ nl) Hr).
      unfold Defaults.expertSection. now rewrite <- !app_assoc.
Qed.

(** The two outcomes of the example under the default maximum: the input
    holds [A] and [X], [B] and [Y]. *)
Lemma chairPrompt_default_witness :
  let prompt := chairPrompt Reference.platform Examples.twoOutcomes
                  (utf16 "task") (Examples.plainChairConfig 3000) in
  (includes prompt (utf16 "A") = true /\ includes prompt (utf16 "X") = true)
  /\ (includes prompt (utf16 "B") = true /\ includes prompt (utf16 "Y") = true).
Proof.
  intros prompt.
  destruct (chairPrompt_default Reference.platform (Examples.plainChairConfig 3000)
              (utf16 "task") Examples.twoOutcomes 3000 eq_refl eq_refl eq_refl)
    as [_ Hcontains].
  split.
  - apply (Hcontains (Examples.outcomeOf (utf16 "a") (utf16 "X"))). now left.
  - apply (Hcontains (Examples.outcomeOf (utf16 "b") (utf16 "Y"))). right. now left.
Defined.

(* ------------------------------------------------------------------ *)
(** * Further properties of the engine *)

Import Observed.

(** ** The launcher: registration, and which handler decides *)

Section LauncherGuards.

Variables (P : Platform) (agentName : jsstring) (attemptIndex : nat).

Local Notation stepL := (launchStep P agentName attemptIndex).




(** A launch whose first terminal event is the timer or a spawn error. *)
Lemma callAgentOnce_guarded (promptText : jsstring) (timeoutMs : Z)
  (pre post : list ProcEvent) (ev : ProcEvent) (r : AgentResult) :
  forallb isData pre = true ->
  (forall st, finished st = false -> resolved st = None ->
     finished (stepL st ev) = true
     /\ resolved (stepL st ev) = Some r
     /\ handlerThrew (stepL st ev) = handlerThrew st) ->
  callAgentOnce P agentName promptText timeoutMs attemptIndex (pre ++ ev :: post)
  = Returned r.
Proof.
  intros Hdata Hev. unfold callAgentOnce, launchRun.
  rewrite fold_left_app.
  rewrite (launch_data_prefix P agentName attemptIndex pre launchInit Hdata).
  cbn [fold_left].
  match goal with |- context [stepL ?s ev] => set (st0 := s) end.
  destruct (Hev st0 eq_refl eq_refl) as (Hfin & Hres & Hthrew).
  destruct (launch_finished_fold P agentName attemptIndex post _ Hfin)
    as (Hf & Hr & Ht).
  destruct (launch_finished_step P agentName attemptIndex
              (fold_left stepL post (stepL st0 ev)) TimerFired Hf)
    as (_ & Hr2 & Ht2).
  cbv zeta. rewrite Hr2, Ht2, Hr, Ht, Hres, Hthrew. reflexivity.
Qed.

End LauncherGuards.


(** X2.  The first terminal event of a launch decides its outcome, and the
    [finished] guard makes every later event a no-op: if the timer fires
    first the outcome is the timeout outcome whatever the process does
    afterwards, if the spawn error comes first it is the spawn-error outcome
    with the error's message, and a process that never closes ends in the
    timeout outcome. *)
Theorem callAgentOnce_first_terminal (P : Platform)
  (agentName promptText : jsstring) (timeoutMs : Z) (k : nat)
  (pre post : list ProcEvent) (message : jsstring) :
  forallb isData pre = true ->
  callAgentOnce P agentName promptText timeoutMs k (pre ++ TimerFired :: post)
  = Returned (timeoutResult agentName k)
  /\ callAgentOnce P agentName promptText timeoutMs k
       (pre ++ ProcError message :: post)
     = Returned (errorResult agentName k message)
  /\ callAgentOnce P agentName promptText timeoutMs k pre
     = Returned (timeoutResult agentName k).
Proof.
  intros Hdata. split; [|split].
  - apply callAgentOnce_guarded; [exact Hdata|].
    intros st Hfin Hres. simpl. rewrite Hfin. simpl.
    unfold resolveWith. rewrite Hres. auto.
  - apply callAgentOnce_guarded; [exact Hdata|].
    intros st Hfin Hres. simpl. rewrite Hfin. simpl.
    unfold resolveWith. rewrite Hres. auto.
  - unfold callAgentOnce, launchRun.
    rewrite (launch_data_prefix P agentName k pre launchInit Hdata).
    reflexivity.
Qed.

Lemma callAgentOnce_first_terminal_witness :
  callAgentOnce Reference.platform (utf16 "arch") (utf16 "task") 1000 0
    ([StdoutData (Spec.textRecordLine (utf16 "A"))] ++ TimerFired :: [Close])
  = Returned (timeoutResult (utf16 "arch") 0)
  /\ callAgentOnce Reference.platform (utf16 "arch") (utf16 "task") 1000 0
       ([StdoutData (Spec.textRecordLine (utf16 "A"))]
        ++ ProcError (utf16 "ENOENT") :: [Close])
     = Returned (errorResult (utf16 "arch") 0 (utf16 "ENOENT"))
  /\ callAgentOnce Reference.platform (utf16 "arch") (utf16 "task") 1000 0
       [StdoutData (Spec.textRecordLine (utf16 "A"))]
     = Returned (timeoutResult (utf16 "arch") 0).
Proof.
  apply (callAgentOnce_first_terminal Reference.platform (utf16 "arch")
           (utf16 "task") 1000 0
           [StdoutData (Spec.textRecordLine (utf16 "A"))] [Close]
           (utf16 "ENOENT")).
  reflexivity.
Defined.

(** X3.  When the process closes first, the outcome is read from the
    standard output alone if it decodes to a text: success, that text, no
    error code, whatever was written to the standard error.  If it decodes
    to nothing, the failure text names the agent and quotes at most the
    first 500 code units of the standard error. *)
Theorem callAgentOnce_close_outcome (P : Platform)
  (agentName promptText : jsstring) (timeoutMs : Z) (k : nat)
  (pre post : list ProcEvent) :
  forallb isData pre = true ->
  (forall answer, parseJsonOutput P (stdoutOf pre) = Returned answer ->
     answer <> [] ->
     callAgentOnce P agentName promptText timeoutMs k (pre ++ Close :: post)
     = Returned {| agent := agentName; text := answer; success := true;
                   duration := None; errorCode := None; attempt := Some k |})
  /\ (parseJsonOutput P (stdoutOf pre) = Returned [] ->
      exists r,
        callAgentOnce P agentName promptText timeoutMs k (pre ++ Close :: post)
        = Returned r
        /\ text r
           = utf16 "[Агент " ++ agentName ++ utf16 " не вернул текст]"
             ++ (if nonEmpty (stderrOf pre)
                 then utf16 " stderr: " ++ firstn 500 (stderrOf pre) else [])
        /\ (List.length (text r) <= List.length agentName + 533)%nat).
Proof.
  intros Hdata. split.
  - intros answer Hparse Hne.
    rewrite (callAgentOnce_close P agentName k promptText timeoutMs pre post Hdata).
    unfold closeResult. rewrite Hparse. unfold decodedResult.
    destruct answer as [|c rest]; [now elim Hne|reflexivity].
  - intros Hparse.
    rewrite (callAgentOnce_close P agentName k promptText timeoutMs pre post Hdata).
    unfold closeResult. rewrite Hparse. unfold decodedResult. simpl negb.
    cbv iota. eexists. split; [reflexivity|]. split; [reflexivity|].
    cbn [text]. rewrite !length_app.
    destruct (nonEmpty (stderrOf pre)).
    + rewrite length_app. unfold substring0.
      assert (Hcut := firstn_le_length (Z.to_nat 500) (stderrOf pre)).
      change (Z.to_nat 500) with 500%nat in *.
      change (List.length (utf16 "[Агент ")) with 7%nat.
      change (List.length (utf16 " не вернул текст]")) with 17%nat.
      change (List.length (utf16 " stderr: ")) with 9%nat.
      lia.
    + change (List.length (utf16 "[Агент ")) with 7%nat.
      change (List.length (utf16 " не вернул текст]")) with 17%nat.
      simpl List.length. lia.
Qed.

Lemma callAgentOnce_close_outcome_witness :
  callAgentOnce Reference.platform (utf16 "arch") (utf16 "task") 1000 0
    ([StdoutData (Spec.textRecordLine (utf16 "A")); StderrData (utf16 "warn")]
     ++ Close :: [TimerFired])
  = Returned {| agent := utf16 "arch"; text := utf16 "A"; success := true;
                duration := None; errorCode := None; attempt := Some 0 |}.
Proof.
  refine (proj1 (callAgentOnce_close_outcome Reference.platform (utf16 "arch")
                   (utf16 "task") 1000 0
                   [StdoutData (Spec.textRecordLine (utf16 "A"));
                    StderrData (utf16 "warn")] [TimerFired] _) (utf16 "A") _ _).
  - reflexivity.
  - vm_compute. reflexivity.
  - discriminate.
Defined.

(** ** The retry controller: how a call ends *)

Section RetryOutcomes.

Variables (P : Platform) (agentName promptText : jsstring)
          (config : ConsiliumConfig) (timeout : Z) (isChair : bool)
          (w : CallWorld).

Local Notation loop := (callAgentLoop P agentName promptText config timeout isChair w).
Local Notation outcomeAt := (attemptOutcome P agentName promptText timeout w).
Local Notation iter := (iterationEvents P agentName promptText config timeout isChair w).
Local Notation goesOn := (continues P agentName promptText config timeout isChair w).

Lemma continues_failure (a : nat) (r : AgentResult) :
  goesOn a = true -> outcomeAt a = Returned r -> success r = false.
Proof.
  unfold continues. intros Hgo Hout. rewrite Hout in Hgo.
  apply andb_prop in Hgo as [_ Hgo]. apply andb_prop in Hgo as [Hs _].
  now apply negb_true_iff in Hs.
Qed.

(** Iterations that all go on, up to the last one the loop has. *)
Lemma loop_all_fail (k a : nat) (lastError : option AgentResult) :
  (forall j, a <= j < a + S k -> goesOn j = true) ->
  exists r,
    outcomeAt (a + k) = Returned r
    /\ success r = false
    /\ loop (S k) a lastError = (flat_map iter (seq a (S k)), Returned r).
Proof.
  revert a lastError.
  induction k as [|k IH]; intros a lastError Hgo.
  - assert (Ha : goesOn a = true) by (apply Hgo; lia).
    destruct (loop_continue P agentName promptText config timeout isChair w
                0 a lastError Ha) as (r & Hout & Heq).
    exists r. rewrite Nat.add_0_r. split; [exact Hout|].
    split; [exact (continues_failure a r Ha Hout)|].
    rewrite Heq. reflexivity.
  - assert (Ha : goesOn a = true) by (apply Hgo; lia).
    destruct (loop_continue P agentName promptText config timeout isChair w
                (S k) a lastError Ha) as (r & Hout & Heq).
    destruct (IH (S a) (Some r)) as (r' & Hout' & Hs' & Heq').
    { intros j Hj. apply Hgo. lia. }
    exists r'. replace (a + S k) with (S a + k) by lia.
    split; [exact Hout'|]. split; [exact Hs'|].
    rewrite Heq, Heq'. reflexivity.
Qed.

Lemma hookCalls_app (t1 t2 : list Event) :
  hookCalls (t1 ++ t2) = hookCalls t1 ++ hookCalls t2.
Proof.
  induction t1 as [|ev t1 IH]; [reflexivity|].
  destruct ev; simpl; now rewrite IH.
Qed.

Lemma failedSettles_app (t1 t2 : list Event) :
  failedSettles (t1 ++ t2) = failedSettles t1 ++ failedSettles t2.
Proof.
  induction t1 as [|ev t1 IH]; [reflexivity|].
  destruct ev; simpl; rewrite ?IH; try reflexivity.
  now destruct (success r).
Qed.

(** In one iteration the error hook is called once if the attempt failed
    and a hook is configured, with the flag of the call. *)
Lemma hookCalls_iter (k : nat) :
  hookCalls (iter k)
  = if errorHookDefined config isChair
    then map (pair isChair) (failedSettles (iter k)) else [].
Proof.
  unfold iterationEvents, launchEnd, afterLaunch.
  rewrite !hookCalls_app, !failedSettles_app.
  destruct (Nat.eqb k 0); cbn [hookCalls failedSettles app];
    destruct (outcomeAt k) as [r|e|]; cbn [hookCalls failedSettles app];
      try (now destruct (errorHookDefined config isChair));
      destruct (success r); cbn [hookCalls failedSettles app map];
        now destruct (errorHookDefined config isChair).
Qed.

Lemma hookCalls_iterations (a m : nat) :
  hookCalls (flat_map iter (seq a m))
  = if errorHookDefined config isChair
    then map (pair isChair) (failedSettles (flat_map iter (seq a m))) else [].
Proof.
  revert a. induction m as [|m IH]; intros a.
  - simpl. now destruct (errorHookDefined config isChair).
  - cbn [seq flat_map]. rewrite hookCalls_app, failedSettles_app, IH.
    rewrite hookCalls_iter.
    destruct (errorHookDefined config isChair); [|reflexivity].
    now rewrite map_app.
Qed.

(** As [loop_result], for a property that a duration may break. *)
Lemma loop_result_of_attempts (Q : AgentResult -> Prop) :
  (forall k, Q (cancelledResult agentName k)) ->
  Q (exhaustedResult agentName) ->
  (forall k r, outcomeAt k = Returned r -> success r = false -> Q r) ->
  (forall k r, outcomeAt k = Returned r -> success r = true ->
     Q (withDuration r (elapsed w k))) ->
  forall left a lastError,
    (forall r, lastError = Some r -> Q r) ->
    forall r, snd (loop left a lastError) = Returned r -> Q r.
Proof.
  intros Hcancel Hexhausted Hfailure Hsuccess.
  induction left as [|left IH]; intros a lastError Hlast r.
  - cbn [callAgentLoop snd]. intros Hr. inversion Hr; subst.
    destruct lastError as [r0|]; simpl; [now apply Hlast|assumption].
  - cbn [callAgentLoop].
    destruct (cancelledAtTop w a).
    { cbn [snd]. intros Hr. inversion Hr; subst. apply Hcancel. }
    pose proof (Hfailure a) as Hf. pose proof (Hsuccess a) as Hs.
    unfold attemptOutcome in Hf, Hs.
    destruct (callAgentOnce P agentName promptText timeout a (procEvents w a))
      as [r0|e|]; [|discriminate..].
    specialize (Hf r0 eq_refl). specialize (Hs r0 eq_refl).
    destruct (success r0).
    { cbn [snd]. intros Hr. inversion Hr; subst. now apply Hs. }
    assert (Hnext : forall r1, Some r0 = Some r1 -> Q r1)
      by (intros r1 Hr1; inversion Hr1; subst; now apply Hf).
    destruct (errorHookDefined config isChair).
    + destruct (errorHookThrows w a); [discriminate|].
      unfold prepend. cbn [snd]. now apply IH.
    + unfold prepend. cbn [snd]. now apply IH.
Qed.

Lemma attemptOutcome_fields (k : nat) (r : AgentResult) :
  outcomeAt k = Returned r -> duration r = None /\ attempt r = Some k.
Proof.
  unfold attemptOutcome.
  apply (callAgentOnce_result P agentName k
           (fun r => duration r = None /\ attempt r = Some k)).
  - split; reflexivity.
  - intros message. split; reflexivity.
  - intros out err r0. unfold closeResult, decodedResult.
    destruct (parseJsonOutput P out) as [answer|e|]; try discriminate.
    intros Hr. inversion Hr; subst. now destruct (negb _).
Qed.

(** A successful outcome comes from the attempt that produced it, which
    is the last attempt of the call. *)
Lemma loop_success (left a : nat) (lastError : option AgentResult)
  (r : AgentResult) :
  (forall r', lastError = Some r' -> success r' = false) ->
  snd (loop left a lastError) = Returned r ->
  success r = true ->
  exists k r0,
    a <= k /\ outcomeAt k = Returned r0
    /\ r = withDuration r0 (elapsed w k)
    /\ attempts (fst (loop left a lastError)) = S k - a.
Proof.
  revert a lastError.
  induction left as [|left IH]; intros a lastError Hlast.
  - cbn [callAgentLoop snd fst]. intros Hr Hs. inversion Hr; subst.
    destruct lastError as [r0|]; simpl in Hs.
    + rewrite (Hlast r0 eq_refl) in Hs. discriminate.
    + discriminate.
  - cbn [callAgentLoop].
    destruct (cancelledAtTop w a).
    { cbn [snd]. intros Hr Hs. inversion Hr; subst. discriminate. }
    destruct (callAgentOnce P agentName promptText timeout a (procEvents w a))
      as [r0|e|] eqn:Hout; [|discriminate..].
    destruct (success r0) eqn:Hs0.
    { cbn [snd fst]. intros Hr _. inversion Hr; subst.
      exists a, r0. split; [lia|]. split; [exact Hout|].
      split; [reflexivity|].
      rewrite attempts_app. replace (S a - a) with 1 by lia.
      now destruct (Nat.ltb 0 a). }
    assert (Hnext : forall r1, Some r0 = Some r1 -> success r1 = false)
      by (intros r1 Hr1; inversion Hr1; subst; exact Hs0).
    assert (Hdone : forall hook,
              attempts ((if Nat.ltb 0 a
                         then [EvSleep (calculateRetryDelay (Z.of_nat a - 1)
                                          (delay (retry config))
                                          (exponentialBackoff (retry config)))]
                         else [])
                        ++ [EvSpawn agentName a; EvSettle a r0] ++ hook)
              = 1 + attempts hook).
    { intros hook. rewrite attempts_app. now destruct (Nat.ltb 0 a). }
    destruct (errorHookDefined config isChair).
    + destruct (errorHookThrows w a); [discriminate|].
      unfold prepend. cbn [snd fst]. intros Hr Hs.
      destruct (IH (S a) (Some r0) Hnext Hr Hs) as (k & r1 & Hk & Hout1 & Hr1 & Hatt).
      exists k, r1. split; [lia|]. split; [exact Hout1|]. split; [exact Hr1|].
      rewrite !attempts_app, Hatt.
      destruct (Nat.ltb 0 a); cbn [attempts]; lia.
    + unfold prepend. cbn [snd fst]. intros Hr Hs.
      destruct (IH (S a) (Some r0) Hnext Hr Hs) as (k & r1 & Hk & Hout1 & Hr1 & Hatt).
      exists k, r1. split; [lia|]. split; [exact Hout1|]. split; [exact Hr1|].
      rewrite !attempts_app, Hatt.
      destruct (Nat.ltb 0 a); cbn [attempts]; lia.
Qed.

(** The attempt index an outcome reports is below the number of
    iterations of the loop. *)
Lemma loop_attempt_bound (left a : nat) (lastError : option AgentResult)
  (r : AgentResult) :
  (lastError = None -> 0 < left) ->
  (forall r', lastError = Some r' -> exists k, attempt r' = Some k /\ k < a) ->
  snd (loop left a lastError) = Returned r ->
  exists k, attempt r = Some k /\ k < a + left.
Proof.
  revert a lastError.
  induction left as [|left IH]; intros a lastError Hnone Hlast.
  - cbn [callAgentLoop snd]. intros Hr. inversion Hr; subst.
    destruct lastError as [r0|]; simpl.
    + destruct (Hlast r0 eq_refl) as (k & Hk & Hlt). exists k. split; [exact Hk|lia].
    + specialize (Hnone eq_refl). lia.
  - cbn [callAgentLoop].
    destruct (cancelledAtTop w a).
    { cbn [snd]. intros Hr. inversion Hr; subst. exists a. split; [reflexivity|lia]. }
    destruct (callAgentOnce P agentName promptText timeout a (procEvents w a))
      as [r0|e|] eqn:Hout; [|discriminate..].
    destruct (attemptOutcome_fields a r0 Hout) as (_ & Hatt).
    destruct (success r0).
    { cbn [snd]. intros Hr. inversion Hr; subst. exists a. split; [exact Hatt|lia]. }
    assert (Hnext : forall r1, Some r0 = Some r1 ->
                               exists k, attempt r1 = Some k /\ k < S a).
    { intros r1 Hr1. inversion Hr1; subst. exists a. split; [exact Hatt|lia]. }
    assert (Hsome : Some r0 = None -> 0 < left) by discriminate.
    destruct (errorHookDefined config isChair).
    + destruct (errorHookThrows w a); [discriminate|].
      unfold prepend. cbn [snd]. intros Hr.
      destruct (IH (S a) (Some r0) Hsome Hnext Hr) as (k & Hk & Hlt).
      exists k. split; [exact Hk|lia].
    + unfold prepend. cbn [snd]. intros Hr.
      destruct (IH (S a) (Some r0) Hsome Hnext Hr) as (k & Hk & Hlt).
      exists k. split; [exact Hk|lia].
Qed.

(** The iteration in which the error hook throws. *)
Lemma loop_hook_throws (left a : nat) (lastError : option AgentResult)
  (r0 : AgentResult) :
  cancelledAtTop w a = false ->
  outcomeAt a = Returned r0 ->
  success r0 = false ->
  errorHookDefined config isChair = true ->
  errorHookThrows w a = true ->
  loop (S left) a lastError = (iter a, Thrown Raised)
  /\ exists pre, iter a = pre ++ [EvHook isChair r0].
Proof.
  intros Hc Hout Hs Hdef Hthrows.
  cbn [callAgentLoop]. rewrite Hc, sleep_guard.
  unfold iterationEvents, launchEnd, afterLaunch.
  unfold attemptOutcome in *. rewrite Hout, Hs, Hdef, Hthrows.
  split.
  - now rewrite <- !app_assoc.
  - exists ((if Nat.eqb a 0 then [] else [EvSleep (expectedDelay config a)])
            ++ [EvSpawn agentName a; EvSettle a r0]).
    now rewrite <- !app_assoc.
Qed.

End RetryOutcomes.

Lemma callAgent_attempt_bound (P : Platform) (agentName promptText : jsstring)
  (config : ConsiliumConfig) (options : CallOptions) (w : CallWorld)
  (r : AgentResult) :
  (0 <= retriesOf config options)%Z ->
  snd (callAgent P agentName promptText config options w) = Returned r ->
  exists k, attempt r = Some k /\ (Z.of_nat k <= retriesOf config options)%Z.
Proof.
  unfold callAgent, retriesOf. cbv zeta. intros Hr Hret.
  match type of Hret with
  | snd (callAgentLoop _ _ _ _ ?t ?c _ ?n _ _) = _ =>
    destruct (loop_attempt_bound P agentName promptText config t c w n 0 None r)
      as (k & Hk & Hlt); [intros _; lia|discriminate|exact Hret|]
  end.
  exists k. split; [exact Hk|lia].
Qed.

(** X4.  With a retry count [r >= 0], when every attempt fails (no
    cancellation, the error hook does not throw), the call makes exactly
    [r + 1] attempts separated by the [r] prescribed delays and returns the
    outcome of the last attempt, attempt number [r]: the last failure, not
    the synthetic exhausted outcome. *)
Theorem callAgent_exhausts_retries (P : Platform) (agentName promptText : jsstring)
  (config : ConsiliumConfig) (options : CallOptions) (w : CallWorld) :
  let r := retriesOf config options in
  let call := callAgent P agentName promptText config options w in
  (0 <= r)%Z ->
  (forall j, (Z.of_nat j <= r)%Z ->
     continues P agentName promptText config (timeoutOf config options)
       (isChairOf options) w j = true) ->
  exists last,
    attemptOutcome P agentName promptText (timeoutOf config options) w
      (Z.to_nat r) = Returned last
    /\ success last = false
    /\ snd call = Returned last
    /\ attempts (fst call) = Z.to_nat r + 1
    /\ sleeps (fst call) = map (expectedDelay config) (seq 1 (Z.to_nat r)).
Proof.
  cbv zeta. unfold callAgent, retriesOf, timeoutOf, isChairOf. cbv zeta.
  set (r := withDefault (optionRetries options) (expertRetries (retry config))).
  intros Hr Hgo.
  replace (Z.to_nat (r + 1)) with (S (Z.to_nat r)) by lia.
  destruct (loop_all_fail P agentName promptText config
              (withDefault (optionTimeout options) (timeoutExpert (timeouts config)))
              (withDefault (optionIsChair options) false) w (Z.to_nat r) 0 None)
    as (last & Hout & Hs & Heq).
  { intros j Hj. apply Hgo. lia. }
  exists last. split; [exact Hout|]. split; [exact Hs|].
  rewrite Heq. cbn [fst snd]. split; [reflexivity|].
  split.
  - rewrite attempts_iterations. lia.
  - rewrite sleeps_iterations. now replace (S (Z.to_nat r) - 1) with (Z.to_nat r) by lia.
Qed.

Lemma callAgent_exhausts_retries_witness :
  let call := callAgent Reference.platform (utf16 "arch") (utf16 "task")
                Examples.patientConfig Examples.noOptions
                Examples.failingWorld in
  snd call = Returned (Cases.babbled 3)
  /\ attempts (fst call) = 4
  /\ sleeps (fst call) = [1000; 2000; 4000]%Z.
Proof.
  cbv zeta.
  destruct (callAgent_exhausts_retries Reference.platform (utf16 "arch")
              (utf16 "task") Examples.patientConfig Examples.noOptions
              Examples.failingWorld)
    as (last & Hout & _ & Hsnd & Hatt & Hsl).
  - vm_compute. discriminate.
  - intros j _. vm_compute. reflexivity.
  - split; [|split].
    + rewrite Hsnd, <- Hout. vm_compute. reflexivity.
    + exact Hatt.
    + rewrite Hsl. vm_compute. reflexivity.
Defined.

(** X5.  A negative retry count leaves no iteration to the attempt loop:
    the call returns the synthetic exhausted outcome at once
    ([success = false], error code TIMEOUT, no attempt index) without
    spawning a process, sleeping or calling a hook. *)
Theorem callAgent_without_attempts (P : Platform) (agentName promptText : jsstring)
  (config : ConsiliumConfig) (options : CallOptions) (w : CallWorld) :
  (retriesOf config options < 0)%Z ->
  callAgent P agentName promptText config options w
  = ([], Returned (exhaustedResult agentName)).
Proof.
  unfold callAgent, retriesOf. cbv zeta. intros Hr.
  replace (Z.to_nat _) with 0 by lia. reflexivity.
Qed.

Lemma callAgent_without_attempts_witness :
  callAgent Reference.platform (utf16 "arch") (utf16 "task") Examples.config
    Cases.noAttemptOptions Examples.answeringWorld
  = ([], Returned (exhaustedResult (utf16 "arch"))).
Proof.
  apply (callAgent_without_attempts Reference.platform (utf16 "arch")
           (utf16 "task") Examples.config Cases.noAttemptOptions
           Examples.answeringWorld).
  reflexivity.
Defined.

(** X6.  An error hook that throws ends the call: when the hook called
    after the failure of attempt [k] throws, the call throws, attempt [k]
    is the last attempt however many retries were left, and the hook call
    is the last thing the call did. *)
Theorem callAgent_error_hook_throws (P : Platform) (agentName promptText : jsstring)
  (config : ConsiliumConfig) (options : CallOptions) (w : CallWorld)
  (k : nat) (r0 : AgentResult) :
  let call := callAgent P agentName promptText config options w in
  (Z.of_nat k <= retriesOf config options)%Z ->
  (forall j, j < k ->
     continues P agentName promptText config (timeoutOf config options)
       (isChairOf options) w j = true) ->
  cancelledAtTop w k = false ->
  attemptOutcome P agentName promptText (timeoutOf config options) w k
  = Returned r0 ->
  success r0 = false ->
  errorHookDefined config (isChairOf options) = true ->
  errorHookThrows w k = true ->
  snd call = Thrown Raised
  /\ attempts (fst call) = k + 1
  /\ exists pre, fst call = pre ++ [EvHook (isChairOf options) r0].
Proof.
  cbv zeta. unfold callAgent, retriesOf, timeoutOf, isChairOf. cbv zeta.
  set (r := withDefault (optionRetries options) (expertRetries (retry config))).
  set (timeout := withDefault (optionTimeout options) (timeoutExpert (timeouts config))).
  set (isChair := withDefault (optionIsChair options) false).
  intros Hk Hgo Hc Hout Hs Hdef Hthrows.
  replace (Z.to_nat (r + 1)) with (k + S (Z.to_nat r - k)) by lia.
  destruct (loop_prefix P agentName promptText config timeout isChair w
              k (S (Z.to_nat r - k)) 0 None) as (last' & Heq).
  { intros j Hj. apply Hgo. lia. }
  rewrite Heq. cbn [Nat.add].
  destruct (loop_hook_throws P agentName promptText config timeout isChair w
              (Z.to_nat r - k) k last' r0 Hc Hout Hs Hdef Hthrows)
    as (Hlast & pre & Hpre).
  rewrite Hlast. unfold prepend. cbn [fst snd].
  split; [reflexivity|]. split.
  - rewrite attempts_app, attempts_iterations, attempts_iter. reflexivity.
  - exists (flat_map (iterationEvents P agentName promptText config timeout
                        isChair w) (seq 0 k) ++ pre).
    rewrite Hpre. now rewrite app_assoc.
Qed.

Lemma callAgent_error_hook_throws_witness :
  let call := callAgent Reference.platform (utf16 "arch") (utf16 "task")
                Examples.patientConfig Examples.noOptions
                Cases.throwingHookWorld in
  snd call = Thrown Raised /\ attempts (fst call) = 1.
Proof.
  cbv zeta.
  destruct (callAgent_error_hook_throws Reference.platform (utf16 "arch")
              (utf16 "task") Examples.patientConfig Examples.noOptions
              Cases.throwingHookWorld 0 (Cases.babbled 0))
    as (Hsnd & Hatt & _).
  - vm_compute. discriminate.
  - intros j Hj. inversion Hj.
  - reflexivity.
  - vm_compute. reflexivity.
  - reflexivity.
  - reflexivity.
  - reflexivity.
  - split; [exact Hsnd|exact Hatt].
Defined.

(** X7.  The error hook is called once for every attempt that settled with
    a failure, in order and with that failure, and for nothing else: never
    after a success or a cancellation.  It is the hook the call's
    [isChair] flag selects ([onChairError] for the chair, [onExpertError]
    otherwise), and without that hook nothing is called. *)
Theorem callAgent_error_hook_calls (P : Platform) (agentName promptText : jsstring)
  (config : ConsiliumConfig) (options : CallOptions) (w : CallWorld) :
  let trace := fst (callAgent P agentName promptText config options w) in
  hookCalls trace
  = if errorHookDefined config (isChairOf options)
    then map (pair (isChairOf options)) (failedSettles trace)
    else [].
Proof.
  cbv zeta. unfold callAgent, isChairOf. cbv zeta.
  destruct (loop_shape P agentName promptText config
              (withDefault (optionTimeout options) (timeoutExpert (timeouts config)))
              (withDefault (optionIsChair options) false) w
              (Z.to_nat (withDefault (optionRetries options)
                           (expertRetries (retry config)) + 1)) 0 None)
    as (m & _ & Htrace).
  rewrite Htrace. apply hookCalls_iterations.
Qed.

(** X8.  A successful outcome is the outcome of the last attempt of the
    call: it carries that attempt's index and the time measured around
    that attempt alone, not around the earlier attempts and the delays.
    A failure outcome carries no duration. *)
Theorem callAgent_success_report (P : Platform) (agentName promptText : jsstring)
  (config : ConsiliumConfig) (options : CallOptions) (w : CallWorld)
  (r : AgentResult) :
  let call := callAgent P agentName promptText config options w in
  snd call = Returned r ->
  (success r = true ->
   exists k r0,
     attemptOutcome P agentName promptText (timeoutOf config options) w k
     = Returned r0
     /\ r = withDuration r0 (elapsed w k)
     /\ attempt r = Some k
     /\ duration r = Some (elapsed w k)
     /\ attempts (fst call) = k + 1)
  /\ (success r = false -> duration r = None).
Proof.
  cbv zeta. unfold callAgent, timeoutOf. cbv zeta. intros Hret. split.
  - intros Hs.
    match type of Hret with
    | snd (callAgentLoop _ _ _ _ ?t ?c _ ?n _ _) = _ =>
      destruct (loop_success P agentName promptText config t c w n 0 None r)
        as (k & r0 & _ & Hout & Hr & Hatt);
        [discriminate|exact Hret|exact Hs|]
    end.
    exists k, r0. split; [exact Hout|]. split; [exact Hr|].
    destruct (attemptOutcome_fields P agentName promptText _ w k r0 Hout)
      as (_ & Hattempt).
    subst r. cbn [attempt duration withDuration].
    split; [exact Hattempt|]. split; [reflexivity|].
    rewrite Hatt. lia.
  - revert r Hret.
    match goal with
    | |- forall r, snd (callAgentLoop _ _ _ _ ?t ?c _ ?n _ _) = _ -> _ =>
      apply (loop_result_of_attempts P agentName promptText config t c w
               (fun r => success r = false -> duration r = None))
    end.
    + reflexivity.
    + reflexivity.
    + intros k r Hout _ _.
      exact (proj1 (attemptOutcome_fields P agentName promptText _ w k r Hout)).
    + intros k r _ Hs Hf. cbn [success withDuration] in Hf. congruence.
    + discriminate.
Qed.

Lemma callAgent_success_report_witness :
  exists k r0,
    attemptOutcome Reference.platform (utf16 "arch") (utf16 "task")
      (timeoutOf Examples.config Examples.noOptions) Examples.answeringWorld k
    = Returned r0
    /\ Examples.outcomeOf (utf16 "arch") (utf16 "A")
       = withDuration r0 (elapsed Examples.answeringWorld k)
    /\ attempt (Examples.outcomeOf (utf16 "arch") (utf16 "A")) = Some k
    /\ duration (Examples.outcomeOf (utf16 "arch") (utf16 "A"))
       = Some (elapsed Examples.answeringWorld k)
    /\ attempts (fst (callAgent Reference.platform (utf16 "arch") (utf16 "task")
                        Examples.config Examples.noOptions
                        Examples.answeringWorld)) = k + 1.
Proof.
  refine (proj1 (callAgent_success_report Reference.platform (utf16 "arch")
                   (utf16 "task") Examples.config Examples.noOptions
                   Examples.answeringWorld
                   (Examples.outcomeOf (utf16 "arch") (utf16 "A")) _) _).
  - vm_compute. reflexivity.
  - reflexivity.
Defined.

(** X9.  The retry count of an expert is its own [retries] when it has
    one, even [0], and the configured [expertRetries] only otherwise: with
    that count [n >= 0], the outcome the expert's task returns reports an
    attempt index of at most [n]. *)
Theorem expertTask_retry_budget (P : Platform) (task : jsstring)
  (config : ConsiliumConfig) (e : ExpertConfig) (tw : TaskWorld)
  (r : AgentResult) :
  let n := withDefault (retries e) (expertRetries (retry config)) in
  (0 <= n)%Z ->
  expertTask P task config e tw = Returned r ->
  exists k, attempt r = Some k /\ (Z.of_nat k <= n)%Z.
Proof.
  cbv zeta. intros Hn. unfold expertTask. cbv zeta.
  destruct (hookDefined config onExpertStart && startHookThrows tw);
    [discriminate|].
  match goal with
  | |- context [snd (callAgent ?p ?a ?pr ?c ?o ?cw)] =>
    pose proof (callAgent_attempt_bound p a pr c o cw) as Hbound;
    destruct (snd (callAgent p a pr c o cw)) as [r0|err|]; [|discriminate..]
  end.
  destruct (hookDefined config onExpertEnd && endHookThrows tw);
    [discriminate|].
  intros Hr. inversion Hr; subst. apply Hbound; [exact Hn|reflexivity].
Qed.

Lemma expertTask_retry_budget_witness :
  exists k, attempt (Cases.babbled 0) = Some k /\ (Z.of_nat k <= 0)%Z.
Proof.
  apply (expertTask_retry_budget Reference.platform (utf16 "task")
           Examples.patientConfig Cases.impatientExpert Cases.failingTask
           (Cases.babbled 0)).
  - vm_compute. discriminate.
  - vm_compute. reflexivity.
Defined.

(** ** The fan-out: experts that are switched off, tasks that reject *)

Lemma arrivals_of_nobody (P : Platform) (task : jsstring)
  (config : ConsiliumConfig) (worlds : nat -> TaskWorld) (l : list nat) :
  flat_map (arrivalOf P task config [] worlds) l = [].
Proof.
  induction l as [|i l IH]; [reflexivity|].
  cbn [flat_map]. rewrite IH. unfold arrivalOf. now destruct i.
Qed.

Lemma filter_nothing {A : Type} (f : A -> bool) (l : list A) :
  (forall x, In x l -> f x = false) -> filter f l = [].
Proof.
  induction l as [|x l IH]; intros Hl; [reflexivity|].
  cbn [filter]. rewrite (Hl x) by now left.
  apply IH. intros y Hy. apply Hl. now right.
Qed.

(** X10.  Experts with [enabled: false] are never asked: a list of
    switched-off experts (the empty list among them) makes the fan-out
    return the empty collection at once, whatever the completion order,
    without a process, a hook or an error. *)
Theorem callExpertsParallel_all_disabled (P : Platform)
  (expertList : list ExpertConfig) (task : jsstring) (config : ConsiliumConfig)
  (worlds : nat -> TaskWorld) (order : list nat) :
  (forall e, In e expertList -> isEnabled e = false) ->
  callExpertsParallel P expertList task config worlds order
  = Some (Returned []).
Proof.
  intros Hoff. unfold callExpertsParallel. cbv zeta.
  rewrite (filter_nothing isEnabled expertList Hoff).
  rewrite arrivals_of_nobody. reflexivity.
Qed.

Lemma callExpertsParallel_all_disabled_witness :
  callExpertsParallel Reference.platform [Cases.disabledExpert] (utf16 "task")
    Examples.config (fun _ => Examples.answeringTask) [0]
  = Some (Returned []).
Proof.
  apply (callExpertsParallel_all_disabled Reference.platform
           [Cases.disabledExpert] (utf16 "task") Examples.config
           (fun _ => Examples.answeringTask) [0]).
  intros e [<-|[]]. reflexivity.
Defined.

(** X11.  The fan-out returns all the outcomes or none: if the task of one
    enabled expert does not return (a hook around it throws, or its launch
    dies in a handler), the fan-out does not return a collection, whatever
    the other experts answered and in whatever order they finished; it
    throws, or never settles when the exception escaped a handler. *)
Theorem callExpertsParallel_rejects (P : Platform)
  (expertList : list ExpertConfig) (task : jsstring) (config : ConsiliumConfig)
  (worlds : nat -> TaskWorld) (order : list nat) (i : nat) (e : ExpertConfig) :
  nth_error (filter isEnabled expertList) i = Some e ->
  (forall r, expertTask P task config e (worlds i) <> Returned r) ->
  (exists err,
      callExpertsParallel P expertList task config worlds order
      = Some (Thrown err))
  \/ callExpertsParallel P expertList task config worlds order = Some Uncaught.
Proof.
  intros Hi Hfails.
  pose proof (callExpertsParallel_settles P task config expertList worlds order)
    as Hsettles. cbv zeta in Hsettles.
  destruct (callExpertsParallel P expertList task config worlds order)
    as [[rs|err|]|]; [|left; now exists err|now right|contradiction].
  exfalso. destruct Hsettles as [_ Hall].
  destruct (Hall i) as (r & Hr).
  { apply nth_error_Some. rewrite Hi. discriminate. }
  unfold taskAt in Hr. rewrite Hi in Hr. exact (Hfails r Hr).
Qed.

Lemma callExpertsParallel_rejects_witness :
  (exists err,
      callExpertsParallel Reference.platform (experts Cases.watchedConfig)
        (utf16 "task") Cases.watchedConfig
        (fun i => if Nat.eqb i 2 then Cases.throwingTask
                  else Examples.answeringTask) [0; 1; 2; 3]
      = Some (Thrown err))
  \/ callExpertsParallel Reference.platform (experts Cases.watchedConfig)
       (utf16 "task") Cases.watchedConfig
       (fun i => if Nat.eqb i 2 then Cases.throwingTask
                 else Examples.answeringTask) [0; 1; 2; 3]
     = Some Uncaught.
Proof.
  apply (callExpertsParallel_rejects Reference.platform
           (experts Cases.watchedConfig) (utf16 "task") Cases.watchedConfig
           (fun i => if Nat.eqb i 2 then Cases.throwingTask
                     else Examples.answeringTask) [0; 1; 2; 3] 2
           {| name := utf16 "ba"; prompt := None; expertTimeout := None;
              retries := None; priority := Some 3%Z; enabled := Some true |}).
  - reflexivity.
  - intros r. vm_compute. discriminate.
Defined.

(** ** The default chair template: what it reads and how long it gets *)

Section ChairTemplate.

Variable P : Platform.

Lemma length_sections (results : list AgentResult) :
  List.length (List.concat (map (Defaults.expertSection P) results))
  = list_sum (map (fun r => 7 + List.length (toUpperCase P (agent r))
                            + Nat.min 3000 (List.length (text r)))
                  results).
Proof.
  induction results as [|r results IH]; [reflexivity|].
  cbn [map List.concat]. rewrite length_app, IH.
  match goal with
  | |- _ = list_sum (?x :: ?l) => change (list_sum (x :: l)) with (x + list_sum l)
  end.
  unfold Defaults.expertSection, substring0. cbv zeta.
  rewrite !length_app, length_firstn.
  change (Z.to_nat 3000) with 3000.
  change (List.length (utf16 "### ")) with 4.
  change (List.length nl) with 1. lia.
Qed.

Lemma sections_read (rs1 rs2 : list AgentResult) :
  map (fun r => (agent r, text r)) rs1 = map (fun r => (agent r, text r)) rs2 ->
  map (Defaults.expertSection P) rs1 = map (Defaults.expertSection P) rs2.
Proof.
  revert rs2. induction rs1 as [|r1 rs1 IH]; intros [|r2 rs2] Heq;
    try discriminate; [reflexivity|].
  cbn [map] in *. inversion Heq as [[Hagent Htext Hrest]].
  rewrite (IH rs2 Hrest). unfold Defaults.expertSection.
  now rewrite Hagent, Htext.
Qed.

End ChairTemplate.

(** X12.  The default chair template reads only the name and the text of
    each expert outcome: outcomes that agree on those give the same
    prompt.  The template does not look at [success], so the placeholder
    text of a failed expert is put before the chair like an answer. *)
Theorem DEFAULT_CHAIR_PROMPT_TEMPLATE_reads (P : Platform) (task : jsstring)
  (rs1 rs2 : list AgentResult) :
  map (fun r => (agent r, text r)) rs1 = map (fun r => (agent r, text r)) rs2 ->
  Defaults.DEFAULT_CHAIR_PROMPT_TEMPLATE P task rs1
  = Defaults.DEFAULT_CHAIR_PROMPT_TEMPLATE P task rs2.
Proof.
  intros Heq. unfold Defaults.DEFAULT_CHAIR_PROMPT_TEMPLATE. cbv zeta.
  rewrite !appendExperts_concat. now rewrite (sections_read P rs1 rs2 Heq).
Qed.

Lemma DEFAULT_CHAIR_PROMPT_TEMPLATE_reads_witness :
  Defaults.DEFAULT_CHAIR_PROMPT_TEMPLATE Reference.platform (utf16 "task")
    [Cases.babbled 0]
  = Defaults.DEFAULT_CHAIR_PROMPT_TEMPLATE Reference.platform (utf16 "task")
      [Examples.outcomeOf (utf16 "arch") (utf16 "[Агент arch не вернул текст]")].
Proof.
  apply (DEFAULT_CHAIR_PROMPT_TEMPLATE_reads Reference.platform (utf16 "task")
           [Cases.babbled 0]
           [Examples.outcomeOf (utf16 "arch")
              (utf16 "[Агент arch не вернул текст]")]).
  vm_compute. reflexivity.
Defined.

(** X13.  The size of the default chair prompt: 265 code units of fixed
    text, the task in full, and for each expert a section of 7 code units,
    the upper-cased name and at most the first 3000 code units of the
    text. *)
Theorem DEFAULT_CHAIR_PROMPT_TEMPLATE_length (P : Platform) (task : jsstring)
  (results : list AgentResult) :
  List.length (Defaults.DEFAULT_CHAIR_PROMPT_TEMPLATE P task results)
  = 265 + List.length task
    + list_sum (map (fun r => 7 + List.length (toUpperCase P (agent r))
                              + Nat.min 3000 (List.length (text r)))
                    results).
Proof.
  unfold Defaults.DEFAULT_CHAIR_PROMPT_TEMPLATE. cbv zeta.
  rewrite appendExperts_concat, !length_app, length_sections.
  repeat match goal with
         | |- context [List.length (utf16 ?s)] =>
           let n := eval vm_compute in (List.length (utf16 s)) in
           change (List.length (utf16 s)) with n
         end.
  change (List.length nl) with 1. lia.
Qed.

(** ** The round driver: how a round ends *)

Import Rounds.

Section RoundEnds.

Variable P : Platform.

Lemma setChairAgent_restored (inst : Instance) (a : jsstring) :
  setChairAgent (setChairAgent inst a) (chairAgent (chair (config inst))) = inst.
Proof.
  destruct inst as [[exps [ag tm tpl lim] tmo rt out hk] st start]. reflexivity.
Qed.

(** The chair phase, by how the chair call ends. *)
Lemma runChair_cases (inst : Instance) (task : jsstring) (options : RunOptions)
  (h : ConsiliumHooks) (w : RunWorld) (rs : list AgentResult) :
  let busy := setChairAgent (setStatus inst running_chair)
                (chosenChair inst options) in
  runChair P inst task options h w rs
  = match callChair P rs task (chairConfig inst options) (chairWorld w) with
    | Thrown e => runCatch busy h w e
    | Uncaught => (busy, Uncaught)
    | Returned c =>
      if cancelledAfterChair w then
        (setStatus inst cancelled,
         Returned (createCancelledResult inst (nowAtEnd w) rs (Some c)))
      else
        let result :=
          {| resultText := text c; resultExperts := rs; resultChair := c;
             totalTime := (nowAtEnd w - startTime inst)%Z;
             parallelTime := maxDuration rs;
             resultSuccess := success c;
             metadata := optMetadata options |} in
        let saving :=
          match optOutputFile options, file (output (config inst)) with
          | Some _, Some f => nonEmpty f
          | _, _ => false
          end in
        if saving && saveThrows w then
          runCatch (setStatus inst completed) h w Raised
        else if onEnd h && onEndThrows w then
          runCatch (setStatus inst completed) h w Raised
        else (setStatus inst completed, Returned result)
    end.
Proof.
  cbv zeta. unfold runChair, chairConfig, chosenChair. cbv zeta.
  change (config (setStatus inst running_chair)) with (config inst).
  set (a := match optChair options with
            | Some a => if nonEmpty a then a else chairAgent (chair (config inst))
            | None => chairAgent (chair (config inst))
            end).
  change (config (setChairAgent (setStatus inst running_chair) a))
    with (config (setChairAgent inst a)).
  destruct (callChair P rs task (config (setChairAgent inst a)) (chairWorld w))
    as [c|e|]; try reflexivity.
  assert (Hback : setChairAgent (setChairAgent (setStatus inst running_chair) a)
                    (chairAgent (chair (config inst)))
                  = setStatus inst running_chair)
    by apply (setChairAgent_restored (setStatus inst running_chair) a).
  rewrite Hback.
  destruct inst as [cfg st start]. reflexivity.
Qed.

(** A round whose expert phase returns and is not cancelled goes on to
    the chair. *)
Lemma run_reaches_chair (inst : Instance) (task : jsstring)
  (options : RunOptions) (w : RunWorld) (rs : list AgentResult) :
  status inst = idle ->
  cliAvailable w = true ->
  onStart (roundHooks inst options) && onStartThrows w = false ->
  selectExperts inst options <> [] ->
  callExpertsParallel P (selectExperts inst options) task (config inst)
    (expertWorlds w) (completionOrder w) = Some (Returned rs) ->
  cancelledAfterExperts w = false ->
  run P inst task options w
  = Some (runChair P (started inst w) task options (roundHooks inst options) w rs).
Proof.
  intros Hst Hcli Hstart Hsome Hexperts Hc.
  unfold run. rewrite Hst, Hcli. cbn [negb]. cbv zeta.
  change (spreadHooks (hooks (config _)) (optHooks options))
    with (roundHooks inst options).
  rewrite Hstart.
  change (selectExperts _ options) with (selectExperts inst options).
  cbn [config].
  destruct (selectExperts inst options) as [|e l] eqn:Hsel; [now elim Hsome|].
  cbn [List.length Nat.eqb]. rewrite Hexperts, Hc. reflexivity.
Qed.

End RoundEnds.

Lemma callChair_agent (P : Platform) (rs : list AgentResult) (task : jsstring)
  (config : ConsiliumConfig) (tw : TaskWorld) (c : AgentResult) :
  callChair P rs task config tw = Returned c ->
  agent c = chairAgent (chair config).
Proof.
  unfold callChair. cbv zeta.
  destruct (hookDefined config onChairStart && startHookThrows tw);
    [discriminate|].
  match goal with
  | |- context [snd (callAgent ?p ?a ?pr ?cf ?o ?cw)] =>
    pose proof (callAgent_agent p a pr cf o cw) as Hagent;
    destruct (snd (callAgent p a pr cf o cw)) as [r0|err|]; [|discriminate..]
  end.
  destruct (hookDefined config onChairEnd && endHookThrows tw);
    [discriminate|].
  intros Hr. inversion Hr; subst. now apply Hagent.
Qed.

(** X14.  A round that nothing disturbs (the CLI is there, no hook and no
    write throws, nobody cancels, experts and chair return) returns a
    result built from the chair's outcome: its text and its success flag
    are the chair's, whatever the experts' outcomes were; the experts'
    outcomes are passed on as they came; [parallelTime] is the longest
    expert duration and [totalTime] the time since the start.  The
    instance ends ['completed'] with its configuration as it was, and the
    chair outcome bears the name of the chair chosen for the round. *)
Theorem run_completed (P : Platform) (inst : Instance) (task : jsstring)
  (options : RunOptions) (w : RunWorld) (rs : list AgentResult)
  (c : AgentResult) :
  status inst = idle ->
  cliAvailable w = true ->
  onStart (roundHooks inst options) && onStartThrows w = false ->
  selectExperts inst options <> [] ->
  callExpertsParallel P (selectExperts inst options) task (config inst)
    (expertWorlds w) (completionOrder w) = Some (Returned rs) ->
  cancelledAfterExperts w = false ->
  callChair P rs task (chairConfig inst options) (chairWorld w) = Returned c ->
  cancelledAfterChair w = false ->
  saveThrows w = false ->
  onEndThrows w = false ->
  run P inst task options w
  = Some ({| config := config inst; status := completed;
             startTime := nowAtStart w |},
          Returned {| resultText := text c; resultExperts := rs;
                      resultChair := c;
                      totalTime := (nowAtEnd w - nowAtStart w)%Z;
                      parallelTime := maxDuration rs;
                      resultSuccess := success c;
                      metadata := optMetadata options |})
  /\ agent c = chosenChair inst options.
Proof.
  intros Hst Hcli Hstart Hsome Hexperts Hc Hchair Hc2 Hsave Hend. split.
  - rewrite (run_reaches_chair P inst task options w rs Hst Hcli Hstart Hsome
               Hexperts Hc).
    rewrite runChair_cases. cbv zeta.
    change (chairConfig (started inst w) options) with (chairConfig inst options).
    rewrite Hchair, Hc2, Hsave, Hend, !andb_false_r. reflexivity.
  - rewrite (callChair_agent P rs task _ _ c Hchair). reflexivity.
Qed.

Lemma run_completed_witness :
  exists rs c,
    run Reference.platform (newConsilium Examples.config) (utf16 "task")
      Examples.noRunOptions Examples.quietRound
    = Some ({| config := Examples.config; status := completed;
               startTime := 1000 |},
            Returned {| resultText := text c; resultExperts := rs;
                        resultChair := c; totalTime := 500;
                        parallelTime := maxDuration rs;
                        resultSuccess := success c; metadata := None |})
    /\ agent c = utf16 "consilium".
Proof.
  exists [Examples.outcomeOf (utf16 "arch") (utf16 "A");
          Examples.outcomeOf (utf16 "ux") (utf16 "A");
          Examples.outcomeOf (utf16 "ba") (utf16 "A");
          Examples.outcomeOf (utf16 "sec") (utf16 "A")],
         (Examples.outcomeOf (utf16 "consilium") (utf16 "A")).
  apply (run_completed Reference.platform (newConsilium Examples.config)
           (utf16 "task") Examples.noRunOptions Examples.quietRound);
    vm_compute; first [reflexivity|discriminate].
Defined.

(** X15.  A cancellation seen after the chair has answered discards the
    answer: the round returns the cancellation result (the marker text,
    [success = false], [parallelTime = 0], the marker in the metadata)
    even when the chair succeeded; the chair's outcome is kept in the
    result, nothing is written and the end hook is not called, and the
    instance ends ['cancelled']. *)
Theorem run_cancelled_late (P : Platform) (inst : Instance) (task : jsstring)
  (options : RunOptions) (w : RunWorld) (rs : list AgentResult)
  (c : AgentResult) :
  status inst = idle ->
  cliAvailable w = true ->
  onStart (roundHooks inst options) && onStartThrows w = false ->
  selectExperts inst options <> [] ->
  callExpertsParallel P (selectExperts inst options) task (config inst)
    (expertWorlds w) (completionOrder w) = Some (Returned rs) ->
  cancelledAfterExperts w = false ->
  callChair P rs task (chairConfig inst options) (chairWorld w) = Returned c ->
  cancelledAfterChair w = true ->
  run P inst task options w
  = Some ({| config := config inst; status := cancelled;
             startTime := nowAtStart w |},
          Returned {| resultText := utf16 "[Консилиум отменён]";
                      resultExperts := rs; resultChair := c;
                      totalTime := (nowAtEnd w - nowAtStart w)%Z;
                      parallelTime := 0%Z;
                      resultSuccess := false;
                      metadata := Some [(utf16 "cancelled", VBool true)] |}).
Proof.
  intros Hst Hcli Hstart Hsome Hexperts Hc Hchair Hc2.
  rewrite (run_reaches_chair P inst task options w rs Hst Hcli Hstart Hsome
             Hexperts Hc).
  rewrite runChair_cases. cbv zeta.
  change (chairConfig (started inst w) options) with (chairConfig inst options).
  rewrite Hchair, Hc2. reflexivity.
Qed.

Lemma run_cancelled_late_witness :
  exists rs c,
    run Reference.platform (newConsilium Examples.config) (utf16 "task")
      Examples.noRunOptions Cases.cancelledLate
    = Some ({| config := Examples.config; status := cancelled;
               startTime := 1000 |},
            Returned {| resultText := utf16 "[Консилиум отменён]";
                        resultExperts := rs; resultChair := c;
                        totalTime := 500; parallelTime := 0%Z;
                        resultSuccess := false;
                        metadata := Some [(utf16 "cancelled", VBool true)] |})
    /\ success c = true.
Proof.
  exists [Examples.outcomeOf (utf16 "arch") (utf16 "A");
          Examples.outcomeOf (utf16 "ux") (utf16 "A");
          Examples.outcomeOf (utf16 "ba") (utf16 "A");
          Examples.outcomeOf (utf16 "sec") (utf16 "A")],
         (Examples.outcomeOf (utf16 "consilium") (utf16 "A")).
  split; [|reflexivity].
  apply (run_cancelled_late Reference.platform (newConsilium Examples.config)
           (utf16 "task") Examples.noRunOptions Cases.cancelledLate);
    vm_compute; first [reflexivity|discriminate].
Defined.

(** X16.  The chair named in the run options replaces the configured one
    only for the chair call, but the configured name is put back only
    after a call that returns: when the chair call throws, the round ends
    ['failed'] and the instance keeps the override as its chair agent. *)
Theorem run_chair_throws (P : Platform) (inst : Instance) (task : jsstring)
  (options : RunOptions) (w : RunWorld) (rs : list AgentResult) (e : Err) :
  status inst = idle ->
  cliAvailable w = true ->
  onStart (roundHooks inst options) && onStartThrows w = false ->
  selectExperts inst options <> [] ->
  callExpertsParallel P (selectExperts inst options) task (config inst)
    (expertWorlds w) (completionOrder w) = Some (Returned rs) ->
  cancelledAfterExperts w = false ->
  callChair P rs task (chairConfig inst options) (chairWorld w) = Thrown e ->
  exists inst' e',
    run P inst task options w = Some (inst', Thrown e')
    /\ status inst' = failed
    /\ chairAgent (chair (config inst')) = chosenChair inst options
    /\ (onError (roundHooks inst options) && onErrorThrows w = false -> e' = e).
Proof.
  intros Hst Hcli Hstart Hsome Hexperts Hc Hchair.
  rewrite (run_reaches_chair P inst task options w rs Hst Hcli Hstart Hsome
             Hexperts Hc).
  rewrite runChair_cases. cbv zeta.
  change (chairConfig (started inst w) options) with (chairConfig inst options).
  rewrite Hchair. unfold runCatch.
  destruct (onError (roundHooks inst options) && onErrorThrows w);
    eexists; eexists; (split; [reflexivity|]);
      (split; [reflexivity|]); (split; [reflexivity|]);
        [discriminate|reflexivity].
Qed.

Lemma run_chair_throws_witness :
  exists inst' e',
    run Reference.platform (newConsilium Cases.watchedChairConfig) (utf16 "task")
      Cases.pickyOptions Cases.chairHookThrows
    = Some (inst', Thrown e')
    /\ status inst' = failed
    /\ chairAgent (chair (config inst')) = utf16 "judge"
    /\ chairAgent (chair (config (newConsilium Cases.watchedChairConfig)))
       = utf16 "consilium".
Proof.
  destruct (run_chair_throws Reference.platform
              (newConsilium Cases.watchedChairConfig) (utf16 "task")
              Cases.pickyOptions Cases.chairHookThrows
              [Examples.outcomeOf (utf16 "ux") (utf16 "A")] Raised)
    as (inst' & e' & Hrun & Hstatus & Hchair & _);
    [vm_compute; first [reflexivity|discriminate]..|].
  exists inst', e'. split; [exact Hrun|]. split; [exact Hstatus|].
  split; [exact Hchair|reflexivity].
Defined.

(** X17.  Experts named in the run options are selected by name alone, but
    the fan-out still skips the switched-off ones: a round whose named
    experts are all switched off passes the "no active experts" check,
    asks nobody, and goes on to the chair with an empty list of opinions. *)
Theorem run_asks_nobody (P : Platform) (inst : Instance) (task : jsstring)
  (options : RunOptions) (w : RunWorld) :
  status inst = idle ->
  cliAvailable w = true ->
  onStart (roundHooks inst options) && onStartThrows w = false ->
  selectExperts inst options <> [] ->
  (forall e, In e (selectExperts inst options) -> isEnabled e = false) ->
  cancelledAfterExperts w = false ->
  run P inst task options w
  = Some (runChair P (started inst w) task options (roundHooks inst options)
            w []).
Proof.
  intros Hst Hcli Hstart Hsome Hoff Hc.
  apply run_reaches_chair; try assumption.
  now apply callExpertsParallel_all_disabled.
Qed.

Lemma run_asks_nobody_witness :
  exists c,
    run Reference.platform (newConsilium Cases.quietUxConfig) (utf16 "task")
      Cases.pickyOptions Examples.quietRound
    = Some ({| config := Cases.quietUxConfig; status := completed;
               startTime := 1000 |},
            Returned {| resultText := text c; resultExperts := [];
                        resultChair := c; totalTime := 500;
                        parallelTime := 0;
                        resultSuccess := true; metadata := None |}).
Proof.
  exists (Examples.outcomeOf (utf16 "judge") (utf16 "A")).
  rewrite (run_asks_nobody Reference.platform (newConsilium Cases.quietUxConfig)
             (utf16 "task") Cases.pickyOptions Examples.quietRound).
  - vm_compute. reflexivity.
  - reflexivity.
  - reflexivity.
  - reflexivity.
  - vm_compute. discriminate.
  - intros e He. vm_compute in He. destruct He as [<-|[]]. reflexivity.
  - reflexivity.
Defined.

Lemma runCatch_failed (inst : Instance) (h : ConsiliumHooks) (w : RunWorld)
  (e : Err) :
  runCatch inst h w e
  = (setStatus inst failed,
     Thrown (if onError h && onErrorThrows w then Raised else e)).
Proof.
  unfold runCatch. now destruct (onError h && onErrorThrows w).
Qed.

(** X18.  With the CLI available, every round that settles ends in a
    terminal status that tells how it ended: ['completed'] or
    ['cancelled'] when it returns, and then the instance's configuration
    is what it was and a completed result has the chair's success flag
    while a cancelled one has [success = false]; ['failed'] when it
    throws. *)
Theorem run_ends_terminal (P : Platform) (inst inst' : Instance)
  (task : jsstring) (options : RunOptions) (w : RunWorld)
  (c : Completion ConsiliumResult) :
  status inst = idle ->
  cliAvailable w = true ->
  run P inst task options w = Some (inst', c) ->
  match c with
  | Returned res =>
    config inst' = config inst
    /\ ((status inst' = completed
         /\ resultSuccess res = success (resultChair res))
        \/ (status inst' = cancelled /\ resultSuccess res = false))
  | Thrown _ => status inst' = failed
  | Uncaught => isTerminal (status inst') = false
  end.
Proof.
  intros Hst Hcli. unfold run. rewrite Hst, Hcli. cbn [negb]. cbv zeta.
  assert (Hcatch : forall i h e,
             Some (runCatch i h w e) = Some (inst', c) ->
             match c with
             | Returned res =>
               config inst' = config inst
               /\ ((status inst' = completed
                    /\ resultSuccess res = success (resultChair res))
                   \/ (status inst' = cancelled /\ resultSuccess res = false))
             | Thrown _ => status inst' = failed
             | Uncaught => isTerminal (status inst') = false
             end).
  { intros i h e. rewrite runCatch_failed. intros H. inversion H; subst.
    reflexivity. }
  match goal with
  | |- context [if ?b && onStartThrows w then _ else _] =>
    destruct (b && onStartThrows w)
  end; [apply Hcatch|].
  match goal with
  | |- context [if Nat.eqb ?n 0 then _ else _] => destruct (Nat.eqb n 0)
  end; [apply Hcatch|].
  match goal with
  | |- context [callExpertsParallel P ?l task ?cf ?ws ?o] =>
    destruct (callExpertsParallel P l task cf ws o) as [[rs|e0|]|]
  end; [|apply Hcatch|intros H; inversion H; subst; reflexivity|discriminate].
  destruct (cancelledAfterExperts w).
  { intros H. inversion H; subst. cbn. split; [reflexivity|]. right. now split. }
  rewrite runChair_cases. cbv zeta.
  destruct (callChair P rs task _ (chairWorld w)) as [cr|e1|];
    [|apply Hcatch|intros H; inversion H; subst; reflexivity].
  destruct (cancelledAfterChair w).
  { intros H. inversion H; subst. cbn. split; [reflexivity|]. right. now split. }
  match goal with
  | |- context [if ?b && saveThrows w then _ else _] =>
    destruct (b && saveThrows w)
  end; [apply Hcatch|].
  match goal with
  | |- context [if ?b && onEndThrows w then _ else _] =>
    destruct (b && onEndThrows w)
  end; [apply Hcatch|].
  intros H. inversion H; subst. cbn. split; [reflexivity|]. left. now split.
Qed.

Lemma run_ends_terminal_witness :
  status (setStatus (started (newConsilium Examples.config) Examples.quietRound)
            failed) = failed.
Proof.
  exact (run_ends_terminal Reference.platform (newConsilium Examples.config)
           (setStatus (started (newConsilium Examples.config) Examples.quietRound)
              failed)
           (utf16 "task") Cases.strangerOptions Examples.quietRound
           (Thrown NoActiveExperts) eq_refl eq_refl eq_refl).
Defined.

Lemma filter_named_nobody (names : list jsstring) (l : list ExpertConfig) :
  (forall e, In e l -> nameIn names (name e) = false) ->
  filter (fun e => nameIn names (name e)) l = [].
Proof.
  intros Hl. apply filter_nothing. exact Hl.
Qed.

(** X19.  When the run options list expert names, only configured experts
    with one of these names are asked, so a list that names no configured
    expert (the empty list, a misspelt name) does not fall back to the
    configured experts: the round throws "no active experts" (or what the
    error hook throws) and ends ['failed'] without asking anyone. *)
Theorem run_unknown_experts (P : Platform) (inst : Instance) (task : jsstring)
  (options : RunOptions) (w : RunWorld) (names : list jsstring) :
  status inst = idle ->
  cliAvailable w = true ->
  onStart (roundHooks inst options) && onStartThrows w = false ->
  optExperts options = Some names ->
  (forall e, In e (experts (config inst)) -> nameIn names (name e) = false) ->
  run P inst task options w
  = Some (setStatus (started inst w) failed,
          Thrown (if onError (roundHooks inst options) && onErrorThrows w
                  then Raised else NoActiveExperts)).
Proof.
  intros Hst Hcli Hstart Hnames Hnobody.
  unfold run. rewrite Hst, Hcli. cbn [negb]. cbv zeta.
  change (spreadHooks (hooks (config _)) (optHooks options))
    with (roundHooks inst options).
  rewrite Hstart.
  change (selectExperts _ options) with (selectExperts inst options).
  unfold selectExperts. rewrite Hnames.
  rewrite (filter_named_nobody names _ Hnobody).
  cbn [List.length Nat.eqb]. now rewrite runCatch_failed.
Qed.

Lemma run_unknown_experts_witness :
  run Reference.platform (newConsilium Examples.config) (utf16 "task")
    Cases.strangerOptions Examples.quietRound
  = Some (setStatus (started (newConsilium Examples.config) Examples.quietRound)
            failed,
          Thrown NoActiveExperts).
Proof.
  apply (run_unknown_experts Reference.platform (newConsilium Examples.config)
           (utf16 "task") Cases.strangerOptions Examples.quietRound
           [utf16 "nobody"]); try reflexivity.
  intros e He. vm_compute in He.
  destruct He as [<-|[<-|[<-|[<-|[]]]]]; reflexivity.
Defined.

(** X20.  The result is written only when the run options name an output
    file and the configured output file is set: without either, a round
    does not depend on whether writing would fail.  (The file named by
    the configuration alone is never written.) *)
Theorem run_saves_on_request (P : Platform) (inst : Instance) (task : jsstring)
  (options : RunOptions) (w : RunWorld) (b : bool) :
  optOutputFile options = None \/ file (output (config inst)) = None ->
  run P inst task options (withSaveThrows w b) = run P inst task options w.
Proof.
  intros Hoff. unfold run. destruct (status inst); try reflexivity.
  cbv zeta. cbn [cliAvailable onStartThrows expertWorlds completionOrder
                 cancelledAfterExperts nowAtStart nowAtEnd withSaveThrows].
  destruct (negb (cliAvailable w)); [reflexivity|].
  rewrite ?runCatch_failed.
  cbn [onErrorThrows withSaveThrows].
  match goal with
  | |- context [if ?b && onStartThrows w then _ else _] =>
    destruct (b && onStartThrows w)
  end; [reflexivity|].
  match goal with
  | |- context [if Nat.eqb ?n 0 then _ else _] => destruct (Nat.eqb n 0)
  end; [reflexivity|].
  match goal with
  | |- context [callExpertsParallel P ?l task ?cf ?ws ?o] =>
    destruct (callExpertsParallel P l task cf ws o) as [[rs|e0|]|]
  end; try reflexivity.
  rewrite ?runCatch_failed.
  destruct (cancelledAfterExperts w); [reflexivity|].
  rewrite !runChair_cases. cbv zeta.
  cbn [chairWorld cancelledAfterChair nowAtEnd saveThrows onEndThrows
       withSaveThrows].
  destruct (callChair P rs task _ (chairWorld w)) as [cr|e1|];
    rewrite ?runCatch_failed; try reflexivity.
  destruct (cancelledAfterChair w); [reflexivity|].
  assert (Hsaving : match optOutputFile options,
                          file (output (config inst)) with
                    | Some _, Some f => nonEmpty f
                    | _, _ => false
                    end = false).
  { destruct Hoff as [-> | ->]; [reflexivity|].
    now destruct (optOutputFile options). }
  cbn [config]. rewrite Hsaving. cbn [andb]. reflexivity.
Qed.

Lemma run_saves_on_request_witness :
  run Reference.platform (newConsilium Examples.config) (utf16 "task")
    Examples.noRunOptions (withSaveThrows Examples.quietRound true)
  = run Reference.platform (newConsilium Examples.config) (utf16 "task")
      Examples.noRunOptions Examples.quietRound.
Proof.
  apply (run_saves_on_request Reference.platform (newConsilium Examples.config)
           (utf16 "task") Examples.noRunOptions Examples.quietRound true).
  left. reflexivity.
Defined.

(** X21.  [parallelTime], the longest expert duration: it is never
    negative, no expert's duration exceeds it, and it is 0 or the duration
    of one of the experts.  An outcome without a duration (every failure)
    counts as 0. *)
Theorem maxDuration_longest (rs : list AgentResult) :
  (0 <= maxDuration rs)%Z
  /\ Forall (fun r => (withDefault (duration r) 0 <= maxDuration rs)%Z) rs
  /\ (maxDuration rs = 0%Z
      \/ Exists (fun r => duration r = Some (maxDuration rs)) rs).
Proof.
  unfold maxDuration.
  assert (Hfold : forall l acc,
            (0 <= acc)%Z ->
            let m := fold_left (fun acc r => Z.max acc (withDefault (duration r) 0%Z))
                       l acc in
            (acc <= m)%Z
            /\ Forall (fun r => (withDefault (duration r) 0 <= m)%Z) l
            /\ (m = acc \/ Exists (fun r => duration r = Some m) l)).
  { induction l as [|r l IH]; intros acc Hacc; cbn [fold_left]; cbv zeta.
    - split; [lia|]. split; [constructor|now left].
    - destruct (IH (Z.max acc (withDefault (duration r) 0%Z)))
        as (Hle & Hall & Hmax); [lia|].
      split; [lia|]. split; [constructor; [lia|exact Hall]|].
      destruct Hmax as [Hmax|Hmax]; [|right; now constructor 2].
      destruct (Z.max_spec acc (withDefault (duration r) 0%Z))
        as [(Hlt & Heq)|(Hge & Heq)].
      + destruct (duration r) as [d|] eqn:Hd; cbn [withDefault] in *.
        * right. constructor 1. rewrite Hd. f_equal. lia.
        * left. lia.
      + left. lia. }
  destruct (Hfold rs 0%Z) as (Hle & Hall & Hmax); [lia|]. cbv zeta in *.
  split; [exact Hle|]. split; [exact Hall|exact Hmax].
Qed.

(** X22.  An instance runs at most one round: after a first call of
    [run], whatever is done to the instance or to the cancellation
    registry in between (cancel, reset, plugins, further runs), the status
    is not ['idle'] and every later call of [run] throws at once, leaving
    the instance as it is. *)
Theorem run_only_once (P : Platform) (inst inst1 inst2 : Instance)
  (g g1 g2 : Registry) (task task' : jsstring) (options options' : RunOptions)
  (w w' : RunWorld) (ops : list Op) :
  step P (inst, g) (OpRun task options w) (inst1, g1) ->
  steps P (inst1, g1) ops (inst2, g2) ->
  status inst2 <> idle
  /\ run P inst2 task' options' w'
     = Some (inst2, Thrown (AlreadyRunning (status inst2))).
Proof.
  intros Hfirst Hbetween.
  assert (Hbusy : status inst2 <> idle).
  { apply (steps_keep_busy P _ _ _ Hbetween). cbn [fst].
    inversion Hfirst; subst. eapply run_leaves_idle; eassumption. }
  split; [exact Hbusy|]. now apply run_not_idle.
Qed.

Lemma run_only_once_witness :
  status (setStatus (started (newConsilium Examples.config) Examples.quietRound)
            failed) <> idle
  /\ run Reference.platform
       (setStatus (started (newConsilium Examples.config) Examples.quietRound)
          failed)
       (utf16 "again") Examples.noRunOptions Examples.quietRound
     = Some (setStatus (started (newConsilium Examples.config) Examples.quietRound)
               failed,
             Thrown (AlreadyRunning failed)).
Proof.
  apply (run_only_once Reference.platform (newConsilium Examples.config)
           (setStatus (started (newConsilium Examples.config) Examples.quietRound)
              failed)
           (setStatus (started (newConsilium Examples.config) Examples.quietRound)
              failed)
           {| cancelledFlag := false; activeProcesses := [] |}
           {| cancelledFlag := false; activeProcesses := [] |}
           {| cancelledFlag := false; activeProcesses := [] |}
           (utf16 "task") (utf16 "again") Cases.strangerOptions
           Examples.noRunOptions Examples.quietRound Examples.quietRound
           [OpCancel; OpResetCancel]).
  - apply (@StepRun Reference.platform _ _ _ _ _ _ (Thrown NoActiveExperts) _).
    vm_compute. reflexivity.
  - eapply StepsCons; [apply StepCancel|].
    eapply StepsCons; [apply StepResetCancel|]. apply StepsNil.
Defined.

(* ------------------------------------------------------------------ *)
(** * Properties of the configuration loader *)

Lemma eqb_eq (a b : jsstring) : JS.eqb a b = true <-> a = b.
Proof.
  revert b. induction a as [|x a IH]; intros [|y b]; simpl;
    try (split; [discriminate|discriminate]); [tauto|].
  rewrite andb_true_iff, N.eqb_eq, IH. split.
  - intros [-> ->]. reflexivity.
  - intros H. inversion H. auto.
Qed.

Lemma eqb_refl (a : jsstring) : JS.eqb a a = true.
Proof. now apply eqb_eq. Qed.

Lemma eqb_neq (a b : jsstring) : JS.eqb a b = false <-> a <> b.
Proof.
  rewrite <- eqb_eq. now destruct (JS.eqb a b).
Qed.

Lemma nameIn_In (names : list jsstring) (n : jsstring) :
  nameIn names n = true <-> In n names.
Proof.
  induction names as [|m names IH]; simpl; [split; [discriminate|tauto]|].
  rewrite orb_true_iff, eqb_eq, IH. tauto.
Qed.

Section Validation.

Import Config.

Lemma filterFrom_none {A : Type} (f : A -> nat -> bool) (l : list A) (i : nat) :
  filterFrom f i l = []
  <-> (forall j x, nth_error l j = Some x -> f x (i + j) = false).
Proof.
  revert i. induction l as [|y l IH]; intros i; cbn [filterFrom].
  - split; [|reflexivity]. intros _ [|j] x Hx; discriminate.
  - split.
    + intros Hnone [|j] x Hx.
      * cbn in Hx. inversion Hx; subst. rewrite Nat.add_0_r.
        destruct (f x i); [discriminate|reflexivity].
      * cbn in Hx. destruct (f y i); [discriminate|].
        replace (i + S j) with (S i + j) by lia.
        now apply (proj1 (IH (S i)) Hnone).
    + intros Hall.
      rewrite <- (Nat.add_0_r i) at 1. rewrite (Hall 0 y eq_refl).
      apply IH. intros j x Hx.
      replace (S i + j) with (i + S j) by lia. now apply Hall.
Qed.

(** Every element stands at its first index exactly when no name is
    repeated. *)
Lemma indexOf_own (l : list jsstring) :
  (forall j x, nth_error l j = Some x -> indexOf l x = Some j) <-> NoDup l.
Proof.
  induction l as [|m l IH].
  - split; [constructor|]. intros _ [|j] x Hx; discriminate.
  - split.
    + intros Hown. constructor.
      * intros Hin. apply In_nth_error in Hin as (j & Hj).
        specialize (Hown (S j) m Hj). cbn in Hown.
        rewrite eqb_refl in Hown. discriminate.
      * apply IH. intros j x Hx. specialize (Hown (S j) x Hx).
        cbn in Hown. destruct (JS.eqb m x); [discriminate|].
        destruct (indexOf l x); cbn in Hown; congruence.
    + intros Hnd. inversion Hnd as [|? ? Hnotin Hnd']; subst.
      intros [|j] x Hx; cbn in Hx.
      * inversion Hx; subst. cbn. now rewrite eqb_refl.
      * cbn. assert (Hneq : JS.eqb m x = false).
        { apply eqb_neq. intros ->. apply Hnotin.
          eapply nth_error_In, Hx. }
        rewrite Hneq, (proj2 IH Hnd' j x Hx). reflexivity.
Qed.

Lemma duplicates_none (names : list jsstring) :
  duplicates names = [] <-> NoDup names.
Proof.
  unfold duplicates. rewrite filterFrom_none, <- indexOf_own.
  split; intros H j x Hx; specialize (H j x Hx); cbn [Nat.add] in *.
  - destruct (indexOf names x) as [k|]; [|discriminate].
    apply negb_false_iff, Nat.eqb_eq in H. now subst.
  - rewrite H. now rewrite Nat.eqb_refl.
Qed.

End Validation.

(** X23.  [validateConfig] returns no warning exactly for the
    configurations that have at least one expert, no expert name twice, an
    expert timeout of at least 10 seconds, a chair timeout of at least 30
    seconds and a chair agent. *)
Theorem validateConfig_clean (config : ConsiliumConfig) :
  Config.validateConfig config = []
  <-> experts config <> []
      /\ NoDup (map name (experts config))
      /\ (10000 <= timeoutExpert (timeouts config))%Z
      /\ (30000 <= timeoutChair (timeouts config))%Z
      /\ chairAgent (chair config) <> [].
Proof.
  unfold Config.validateConfig. cbv zeta.
  assert (Hdups : Nat.ltb 0 (List.length
                               (Config.duplicates (map name (experts config))))
                  = false
                  <-> NoDup (map name (experts config))).
  { rewrite <- duplicates_none, Nat.ltb_ge.
    destruct (Config.duplicates _); cbn; split; intros H;
      try reflexivity; try lia; discriminate. }
  destruct (experts config) as [|e l] eqn:Hexperts; cbn [List.length Nat.eqb].
  { split; [|intros (H & _); now elim H].
    intros H. exfalso. revert H.
    repeat match goal with
           | |- context [if ?b then _ else _] => destruct b
           end; cbn; intros H;
      repeat (apply app_eq_nil in H as [H _]); discriminate. }
  rewrite <- Hexperts in *.
  destruct (Nat.ltb 0 _) eqn:Hd.
  { split.
    - intros H. exfalso. revert H.
      repeat match goal with
             | |- context [if ?b then _ else _] => destruct b
             end; cbn; intros H;
        repeat (apply app_eq_nil in H as [H _]); discriminate.
    - intros (_ & Hnd & _). apply Hdups in Hnd. congruence. }
  destruct (Z.ltb_spec (timeoutExpert (timeouts config)) 10000) as [Hte|Hte].
  { split.
    - intros H. exfalso. revert H.
      repeat match goal with
             | |- context [if ?b then _ else _] => destruct b
             end; cbn; intros H;
        repeat (apply app_eq_nil in H as [H _]); discriminate.
    - intros (_ & _ & Hlow & _). lia. }
  destruct (Z.ltb_spec (timeoutChair (timeouts config)) 30000) as [Htc|Htc].
  { split.
    - intros H. exfalso. revert H.
      repeat match goal with
             | |- context [if ?b then _ else _] => destruct b
             end; cbn; intros H;
        repeat (apply app_eq_nil in H as [H _]); discriminate.
    - intros (_ & _ & _ & Hlow & _). lia. }
  destruct (chairAgent (chair config)) as [|c a] eqn:Hagent; cbn.
  { split; [discriminate|]. intros (_ & _ & _ & _ & H). now elim H. }
  split; [|reflexivity]. intros _.
  split; [rewrite Hexperts; discriminate|].
  split; [now apply Hdups|]. split; [assumption|]. split; [assumption|discriminate].
Qed.

Section Discovery.

Import Config.


Lemma mapFrom_length {A B : Type} (f : A -> nat -> B) (l : list A) (i : nat) :
  List.length (mapFrom f i l) = List.length l.
Proof.
  revert i. induction l as [|x l IH]; intros i; [reflexivity|].
  cbn [mapFrom List.length]. now rewrite IH.
Qed.

Lemma mapFrom_priorities (l : list jsstring) (i : nat) :
  map priority (mapFrom expertNamed i l)
  = map (fun k => Some (Z.of_nat k + 1)%Z) (seq i (List.length l)).
Proof.
  revert i. induction l as [|n l IH]; intros i; [reflexivity|].
  cbn [mapFrom map List.length seq]. now rewrite IH.
Qed.

Lemma mapFrom_In (l : list jsstring) (i : nat) (e : ExpertConfig) :
  In e (mapFrom expertNamed i l) ->
  exists n k, In n l /\ e = expertNamed n k.
Proof.
  revert i. induction l as [|n l IH]; intros i; [intros []|].
  cbn [mapFrom]. intros [<-|Hin].
  - exists n, i. split; [now left|reflexivity].
  - destruct (IH (S i) Hin) as (n' & k & Hn & He).
    exists n', k. split; [now right|exact He].
Qed.

End Discovery.



(** X25.  Whatever [opencode.json] holds and whatever [Object.keys]
    lists, the experts discovered in it are keys of its [agent] section,
    none of them an excluded agent, all enabled, with priorities
    1, 2, ... in the order they come; with the built-in exclusion list the
    chair [consilium] is never its own expert.  A file without an [agent]
    object gives no expert. *)
Theorem extractAgentsFromOpenCode_excludes
  (objectKeys : JsValue -> list jsstring) (openCodeConfig : JsValue)
  (excludedAgents : list jsstring) :
  let found :=
    Config.extractAgentsFromOpenCode objectKeys openCodeConfig excludedAgents in
  Forall (fun e => nameIn excludedAgents (name e) = false
                   /\ isEnabled e = true
                   /\ In (name e)
                        (objectKeys (getMemberOpt openCodeConfig (utf16 "agent"))))
         found
  /\ map priority found
     = map (fun k => Some (Z.of_nat k + 1)%Z) (seq 0 (List.length found))
  /\ Forall (fun e => JS.eqb (name e) (utf16 "consilium") = false)
       (Config.extractAgentsFromOpenCode objectKeys openCodeConfig
          (Config.EXCLUDED_AGENTS ++ excludedAgents))
  /\ (truthy (getMemberOpt openCodeConfig (utf16 "agent")) = false ->
      found = []).
Proof.
  cbv zeta.
  assert (Hnames : forall excluded e,
             In e (Config.extractAgentsFromOpenCode objectKeys openCodeConfig
                     excluded) ->
             nameIn excluded (name e) = false
             /\ isEnabled e = true
             /\ In (name e)
                  (objectKeys (getMemberOpt openCodeConfig (utf16 "agent")))).
  { intros excluded e. unfold Config.extractAgentsFromOpenCode. cbv zeta.
    destruct (negb (truthy openCodeConfig)
              || negb (Config.typeofObject openCodeConfig)); [intros []|].
    destruct (negb (truthy (getMemberOpt openCodeConfig (utf16 "agent")))
              || negb (Config.typeofObject
                         (getMemberOpt openCodeConfig (utf16 "agent"))));
      [intros []|].
    intros He. destruct (mapFrom_In _ _ _ He) as (n & k & Hn & ->).
    apply filter_In in Hn as [Hin Hn]. apply negb_true_iff in Hn.
    cbn [name Config.expertNamed]. split; [exact Hn|]. split; [reflexivity|exact Hin]. }
  split; [apply Forall_forall; intros e He; now apply Hnames|].
  split.
  { unfold Config.extractAgentsFromOpenCode. cbv zeta.
    destruct (negb (truthy openCodeConfig)
              || negb (Config.typeofObject openCodeConfig)); [reflexivity|].
    destruct (negb (truthy (getMemberOpt openCodeConfig (utf16 "agent")))
              || negb (Config.typeofObject
                         (getMemberOpt openCodeConfig (utf16 "agent"))));
      [reflexivity|].
    rewrite mapFrom_priorities, mapFrom_length. reflexivity. }
  split.
  { apply Forall_forall. intros e He.
    destruct (Hnames _ e He) as (Hex & _).
    destruct (JS.eqb (name e) (utf16 "consilium")) eqn:Heq; [|reflexivity].
    apply eqb_eq in Heq.
    assert (Hin : nameIn (Config.EXCLUDED_AGENTS ++ excludedAgents) (name e) = true).
    { apply nameIn_In, in_or_app. left. rewrite Heq.
      unfold Config.EXCLUDED_AGENTS. cbn. tauto. }
    congruence. }
  intros Hfalsy. unfold Config.extractAgentsFromOpenCode. cbv zeta.
  rewrite Hfalsy. cbn [negb orb].
  now destruct (negb (truthy openCodeConfig)
                || negb (Config.typeofObject openCodeConfig)).
Qed.

Section MergeFacts.

Import Config.

Variable Atom : Type.

Local Notation fields := (list (jsstring * Tree Atom)).

Lemma lookup_setKey_same (k : jsstring) (v : Tree Atom) (l : fields) :
  lookup k (setKey k v l) = Some v.
Proof.
  induction l as [|[k' v'] l IH]; cbn [setKey lookup].
  - now rewrite eqb_refl.
  - destruct (JS.eqb k' k) eqn:Hk; cbn [lookup].
    + now rewrite eqb_refl.
    + now rewrite Hk.
Qed.

Lemma lookup_setKey_other (k k0 : jsstring) (v : Tree Atom) (l : fields) :
  k0 <> k -> lookup k (setKey k0 v l) = lookup k l.
Proof.
  intros Hneq. apply eqb_neq in Hneq.
  induction l as [|[k' v'] l IH]; cbn [setKey lookup].
  - now rewrite Hneq.
  - destruct (JS.eqb k' k0) eqn:Hk; cbn [lookup].
    + apply eqb_eq in Hk. subst k'. now rewrite Hneq.
    + now rewrite IH.
Qed.

Lemma lookup_absent (k : jsstring) (l : fields) :
  ~ In k (map fst l) -> lookup k l = None.
Proof.
  induction l as [|[k' v'] l IH]; [reflexivity|].
  cbn [map fst In lookup]. intros Hnot.
  destruct (JS.eqb k' k) eqn:Hk.
  - apply eqb_eq in Hk. tauto.
  - apply IH. tauto.
Qed.

(** [deepMerge] runs its loop body over the own properties of the source,
    starting from a copy of the target. *)
Lemma deepMerge_fold (target source : fields) :
  deepMerge target source = fold_left (mergeEntry target) source target.
Proof.
  unfold deepMerge. cbn [mergeInto].
  generalize target at 2 4.
  induction source as [|[key sourceValue] rest IH]; intros result;
    [reflexivity|].
  cbn [fold_left]. rewrite <- IH. unfold mergeEntry. cbn [fst snd].
  destruct sourceValue; reflexivity.
Qed.

Lemma lookup_mergeEntry_other (target result : fields) (k : jsstring)
  (entry : jsstring * Tree Atom) :
  fst entry <> k ->
  lookup k (mergeEntry target result entry) = lookup k result.
Proof.
  intros Hneq. unfold mergeEntry.
  destruct (snd entry); try reflexivity;
    try (now apply lookup_setKey_other).
  destruct (lookup (fst entry) target) as [[]|];
    now apply lookup_setKey_other.
Qed.

Lemma lookup_fold_absent (target : fields) (k : jsstring) (l result : fields) :
  ~ In k (map fst l) ->
  lookup k (fold_left (mergeEntry target) l result) = lookup k result.
Proof.
  revert result. induction l as [|entry l IH]; intros result Hnot;
    [reflexivity|].
  cbn [fold_left]. cbn [map In] in Hnot.
  rewrite IH by tauto. apply lookup_mergeEntry_other. tauto.
Qed.

(** The value of a key after the loop has run over source entries with
    distinct keys. *)
Lemma lookup_fold (target source result : fields) (k : jsstring) :
  NoDup (map fst source) ->
  lookup k (fold_left (mergeEntry target) source result)
  = match lookup k source with
    | None | Some (TUndefined _) => lookup k result
    | Some (TObject sourceFields) =>
      match lookup k target with
      | Some (TObject targetFields) =>
        Some (TObject (deepMerge targetFields sourceFields))
      | _ => Some (TObject sourceFields)
      end
    | Some v => Some v
    end.
Proof.
  revert result.
  induction source as [|[key sourceValue] rest IH]; intros result Hnd;
    [reflexivity|].
  cbn [map fst] in Hnd. inversion Hnd as [|? ? Hnotin Hnd']; subst.
  cbn [fold_left lookup].
  destruct (JS.eqb key k) eqn:Hk.
  - apply eqb_eq in Hk. subst key.
    rewrite lookup_fold_absent by exact Hnotin.
    unfold mergeEntry. cbn [fst snd].
    destruct sourceValue; try apply lookup_setKey_same; [reflexivity|].
    destruct (lookup k target) as [[]|]; apply lookup_setKey_same.
  - rewrite (IH _ Hnd').
    assert (Hkeep : lookup k (mergeEntry target result (key, sourceValue))
                    = lookup k result).
    { apply lookup_mergeEntry_other. cbn [fst]. now apply eqb_neq. }
    rewrite Hkeep. reflexivity.
Qed.

End MergeFacts.

(** X26.  [deepMerge], key by key, for a source object (its keys are
    distinct) that has no key [__proto__]: a key the source lacks, or
    holds as [undefined], keeps the target's value, so the merge never
    removes a key; two plain objects under one key are merged
    recursively; any other source value (a string, a number, an array,
    [null], or an object where the target has none) replaces the target's
    value outright. *)
Theorem deepMerge_lookup (Atom : Type)
  (target source : list (jsstring * Config.Tree Atom)) (k : jsstring) :
  NoDup (map fst source) ->
  Config.lookup (utf16 "__proto__") source = None ->
  Config.lookup k (Config.deepMerge target source)
  = Config.mergedValue target source k
  /\ (Config.lookup k target <> None ->
      Config.lookup k (Config.deepMerge target source) <> None).
Proof.
  intros Hnd _.
  assert (Hvalue : Config.lookup k (Config.deepMerge target source)
                   = Config.mergedValue target source k).
  { rewrite deepMerge_fold. now apply lookup_fold. }
  split; [exact Hvalue|].
  rewrite Hvalue. unfold Config.mergedValue. intros Hkept.
  destruct (Config.lookup k source) as [[]|]; try discriminate; try exact Hkept.
  destruct (Config.lookup k target) as [[]|]; discriminate.
Qed.

Lemma deepMerge_lookup_witness :
  Config.lookup (utf16 "timeouts")
    (Config.deepMerge Cases.defaultsTree Cases.userTree)
  = Some (Config.TObject [(utf16 "expert", Config.TAtom 5000%Z);
                          (utf16 "chair", Config.TAtom 600000%Z)]).
Proof.
  rewrite (proj1 (deepMerge_lookup Z Cases.defaultsTree Cases.userTree
                    (utf16 "timeouts")
                    ltac:(repeat constructor; vm_compute;
                          intuition discriminate)
                    ltac:(vm_compute; reflexivity))).
  vm_compute. reflexivity.
Defined.

(** ** [dryRun] against the prompts a round sends *)



(* ------------------------------------------------------------------ *)
(** * Properties of the command line *)

Section CommandLine.

Import Cli.

Lemma isFlag_word (arg : jsstring) (flag : string) :
  isWord arg = true ->
  startsWith (utf16 flag) (utf16 "-") = true ->
  isFlag arg flag = false.
Proof.
  unfold isWord, isFlag. intros Hword Hflag.
  apply andb_prop in Hword as [_ Hdash]. apply negb_true_iff in Hdash.
  destruct (JS.eqb arg (utf16 flag)) eqn:Heq; [|reflexivity].
  apply eqb_eq in Heq. subst arg. congruence.
Qed.

Lemma parseLoop_word (arg : jsstring) (rest : list jsstring)
  (options : CLIOptions) :
  isWord arg = true ->
  parseLoop (arg :: rest) options
  = parseLoop rest
      (set_task options
         (if nonEmpty (task options) then task options ++ utf16 " " ++ arg
          else arg)).
Proof.
  intros Hword. cbn [parseLoop].
  rewrite !(isFlag_word arg _ Hword) by reflexivity.
  cbn [orb]. unfold positional. fold (isWord arg). now rewrite Hword.
Qed.

Lemma parseLoop_words (words : list jsstring) (options : CLIOptions) :
  forallb isWord words = true ->
  parseLoop words options = set_task options (joined (task options) words).
Proof.
  revert options. induction words as [|arg words IH]; intros options Hwords.
  - now destruct options.
  - cbn [forallb] in Hwords. apply andb_prop in Hwords as [Hword Hwords].
    rewrite (parseLoop_word arg words options Hword), (IH _ Hwords).
    reflexivity.
Qed.

Lemma joined_nonempty (start : jsstring) (words : list jsstring) :
  nonEmpty start = true ->
  joined start words
  = start ++ List.concat (map (fun arg => utf16 " " ++ arg) words).
Proof.
  revert start. induction words as [|arg words IH]; intros start Hstart.
  - cbn. now rewrite app_nil_r.
  - unfold joined in *. cbn [fold_left map List.concat]. rewrite Hstart.
    rewrite IH; [now rewrite <- !app_assoc|].
    destruct start; [discriminate|reflexivity].
Qed.

Lemma joinWith_words (first : jsstring) (words : list jsstring) :
  joinWith (utf16 " ") (first :: words)
  = first ++ List.concat (map (fun arg => utf16 " " ++ arg) words).
Proof.
  revert first. induction words as [|arg words IH]; intros first.
  - cbn. now rewrite app_nil_r.
  - change (joinWith (utf16 " ") (first :: arg :: words))
      with (first ++ utf16 " " ++ joinWith (utf16 " ") (arg :: words)).
    rewrite IH. cbn [map List.concat]. now rewrite <- !app_assoc.
Qed.

Lemma joined_words (words : list jsstring) :
  forallb isWord words = true ->
  joined [] words = joinWith (utf16 " ") words.
Proof.
  destruct words as [|first words]; [reflexivity|].
  cbn [forallb]. intros Hwords. apply andb_prop in Hwords as [Hfirst _].
  unfold joined. cbn [fold_left nonEmpty].
  fold (joined first words).
  rewrite joinWith_words. apply joined_nonempty.
  unfold isWord in Hfirst. now apply andb_prop in Hfirst as [Hne _].
Qed.

End CommandLine.

(** X28.  A command line made of words only (arguments that are not empty
    and do not start with a dash) is read as the task: the words joined by
    single spaces, in their order, and no option set. *)
Theorem parseArgs_words (argv : list jsstring) :
  forallb Cli.isWord argv = true ->
  Cli.parseArgs argv
  = Cli.set_task Cli.initialOptions (joinWith (utf16 " ") argv).
Proof.
  intros Hwords. unfold Cli.parseArgs.
  rewrite (parseLoop_words argv Cli.initialOptions Hwords).
  cbn [Cli.task Cli.initialOptions]. now rewrite (joined_words argv Hwords).
Qed.

Lemma parseArgs_words_witness :
  Cli.parseArgs [utf16 "check"; utf16 "the"; utf16 "API"]
  = Cli.set_task Cli.initialOptions (utf16 "check the API").
Proof.
  rewrite (parseArgs_words [utf16 "check"; utf16 "the"; utf16 "API"]).
  - vm_compute. reflexivity.
  - vm_compute. reflexivity.
Defined.

(* ------------------------------------------------------------------ *)
(** * The decoder, line by line *)

Section DecoderLines.

Import Lines.

Lemma split_nl_nonempty (s : jsstring) : split_nl s <> [].
Proof.
  destruct s as [|c r]; cbn [split_nl]; [discriminate|].
  destruct (c =? 10)%N; [discriminate|].
  destruct (split_nl r); discriminate.
Qed.

Lemma split_nl_app (a b : jsstring) :
  split_nl (a ++ 10%N :: b) = split_nl a ++ split_nl b.
Proof.
  induction a as [|c a IH]; [reflexivity|].
  cbn [app split_nl]. rewrite IH.
  destruct (c =? 10)%N; [reflexivity|].
  destruct (split_nl a) as [|h t] eqn:Ha; [now elim (split_nl_nonempty a)|].
  reflexivity.
Qed.

(** A character that is not a line feed, put at the end of a string, goes
    to the end of its last line. *)
Lemma split_nl_snoc (s : jsstring) (c : N) :
  (c =? 10)%N = false ->
  exists init last,
    split_nl s = init ++ [last] /\ split_nl (s ++ [c]) = init ++ [last ++ [c]].
Proof.
  intros Hc. induction s as [|d s (init & last & Hs & Hsc)].
  - exists [], []. cbn. now rewrite Hc.
  - cbn [app split_nl]. rewrite Hs, Hsc.
    destruct (d =? 10)%N.
    + exists ([] :: init), last. split; reflexivity.
    + destruct init as [|i0 init]; cbn [app].
      * exists [], (d :: last). split; reflexivity.
      * exists ((d :: i0) :: init), last. split; reflexivity.
Qed.

Lemma trimStart_snoc (x : jsstring) (c : N) :
  isWhiteSpace c = true ->
  trimStart (x ++ [c]) = trimStart x ++ [c]
  \/ (trimStart x = [] /\ trimStart (x ++ [c]) = []).
Proof.
  intros Hc. induction x as [|d x IH]; cbn [app trimStart].
  - right. now rewrite Hc.
  - destruct (isWhiteSpace d); [exact IH|now left].
Qed.

Lemma trimEnd_snoc (y : jsstring) (c : N) :
  isWhiteSpace c = true -> trimEnd (y ++ [c]) = trimEnd y.
Proof.
  intros Hc. unfold trimEnd. rewrite rev_unit. cbn [trimStart].
  now rewrite Hc.
Qed.

Lemma trim_snoc (x : jsstring) (c : N) :
  isWhiteSpace c = true -> trim (x ++ [c]) = trim x.
Proof.
  intros Hc. unfold trim.
  destruct (trimStart_snoc x c Hc) as [-> | [Hx ->]].
  - now apply trimEnd_snoc.
  - now rewrite Hx.
Qed.

Lemma trim_cons (x : jsstring) (c : N) :
  isWhiteSpace c = true -> trim (c :: x) = trim x.
Proof.
  intros Hc. unfold trim. cbn [trimStart]. now rewrite Hc.
Qed.

Lemma contents_cons (s : jsstring) (c : N) :
  isWhiteSpace c = true -> contents (c :: s) = contents s.
Proof.
  intros Hc. unfold contents. cbn [split_nl].
  destruct (c =? 10)%N; [reflexivity|].
  destruct (split_nl s) as [|h t] eqn:Hs; [now elim (split_nl_nonempty s)|].
  cbn [map]. now rewrite (trim_cons h c Hc).
Qed.

Lemma contents_snoc (s : jsstring) (c : N) :
  isWhiteSpace c = true -> contents (s ++ [c]) = contents s.
Proof.
  intros Hc. unfold contents.
  destruct (c =? 10)%N eqn:Hnl.
  - apply N.eqb_eq in Hnl. subst c. rewrite split_nl_app.
    rewrite map_app, filter_app. cbn. now rewrite app_nil_r.
  - destruct (split_nl_snoc s c Hnl) as (init & last & -> & ->).
    rewrite !map_app, !filter_app. cbn [map]. now rewrite (trim_snoc last c Hc).
Qed.

Lemma contents_trimStart (s : jsstring) : contents (trimStart s) = contents s.
Proof.
  induction s as [|c s IH]; [reflexivity|].
  cbn [trimStart]. destruct (isWhiteSpace c) eqn:Hc; [|reflexivity].
  now rewrite IH, (contents_cons s c Hc).
Qed.

Lemma contents_trimEnd (s : jsstring) : contents (trimEnd s) = contents s.
Proof.
  unfold trimEnd. rewrite <- (rev_involutive s) at 2.
  induction (rev s) as [|c u IH]; [reflexivity|].
  cbn [trimStart rev]. destruct (isWhiteSpace c) eqn:Hc; [|reflexivity].
  now rewrite IH, (contents_snoc (rev u) c Hc).
Qed.

Lemma contents_trim (s : jsstring) : contents (trim s) = contents s.
Proof.
  unfold trim. now rewrite contents_trimEnd, contents_trimStart.
Qed.

Lemma contents_app (a b : jsstring) :
  contents (a ++ nl ++ b) = contents a ++ contents b.
Proof.
  unfold contents. change (a ++ nl ++ b) with (a ++ 10%N :: b).
  now rewrite split_nl_app, map_app, filter_app.
Qed.

Variable P : Platform.

Lemma lineText_trimmed (line : jsstring) :
  lineText P line
  = if nonEmpty (trim line) then trimmedText P (trim line) else Some [].
Proof.
  unfold lineText, isBlank, trimmedText. now destruct (nonEmpty (trim line)).
Qed.

(** Blank lines add nothing. *)
Lemma texts_of_contents (lines : list jsstring) :
  option_map (@List.concat N) (allSome (map (lineText P) lines))
  = option_map (@List.concat N)
      (allSome (map (trimmedText P) (filter nonEmpty (map trim lines)))).
Proof.
  induction lines as [|line lines IH]; [reflexivity|].
  cbn [map filter]. rewrite lineText_trimmed.
  destruct (nonEmpty (trim line)).
  - cbn [map allSome]. destruct (trimmedText P (trim line)) as [t|]; [|reflexivity].
    destruct (allSome (map (lineText P) lines)) as [ts|];
      destruct (allSome (map (trimmedText P) _)) as [ts'|];
      cbn in *; congruence.
  - cbn [allSome]. rewrite <- IH.
    now destruct (allSome (map (lineText P) lines)).
Qed.

Lemma decodedText_textOf (output : jsstring) :
  decodedText P output = textOf P (contents output).
Proof.
  unfold decodedText, textOf.
  pose proof (texts_of_contents (split_nl (trim output))) as Heq.
  fold (contents (trim output)) in Heq. rewrite contents_trim in Heq.
  destruct (allSome (map (lineText P) (split_nl (trim output))));
    destruct (allSome (map (trimmedText P) (contents output)));
    cbn in Heq; congruence.
Qed.

Lemma textOf_app (l1 l2 : list jsstring) :
  textOf P (l1 ++ l2)
  = match textOf P l1, textOf P l2 with
    | Returned x, Returned y => Returned (x ++ y)
    | _, _ => Thrown TypeError
    end.
Proof.
  unfold textOf. rewrite map_app, allSome_app.
  destruct (allSome (map (trimmedText P) l1));
    destruct (allSome (map (trimmedText P) l2)); try reflexivity.
  now rewrite concat_app.
Qed.

End DecoderLines.

(** X29.  The decoder works line by line: its result is determined by the
    lines of the stream that are not blank, each taken without the white
    space around it, so blank lines and white space at either end of a
    line or of the stream change nothing; and the text of two streams put
    one after the other, on separate lines, is the text of the first
    followed by the text of the second (the call throws when the decoding
    of either throws). *)
Theorem parseJsonOutput_by_lines (P : Platform) (a b : jsstring) :
  parseJsonOutput P a = Lines.textOf P (Lines.contents a)
  /\ parseJsonOutput P (a ++ nl ++ b)
     = match parseJsonOutput P a, parseJsonOutput P b with
       | Returned x, Returned y => Returned (x ++ y)
       | _, _ => Thrown TypeError
       end.
Proof.
  rewrite !parseJsonOutput_decodedText, !decodedText_textOf.
  split; [reflexivity|].
  rewrite contents_app. apply textOf_app.
Qed.

Section CommandLineParts.

Import Cli.

Ltac branch_on_flag arg :=
  match goal with
  | |- (if isFlag arg ?f || isFlag arg ?g then _ else _) = _ =>
    let H1 := fresh "Hflag" in
    let H2 := fresh "Hflag" in
    destruct (isFlag arg f) eqn:H1;
    [cbn [orb]|destruct (isFlag arg g) eqn:H2; cbn [orb]]
  | |- (if isFlag arg ?f then _ else _) = _ =>
    let H1 := fresh "Hflag" in
    destruct (isFlag arg f) eqn:H1
  end.

Ltac flag_known Htv :=
  match goal with
  | H : isFlag ?arg ?f = true |- _ =>
    apply eqb_eq in H; subst arg; vm_compute in Htv; discriminate Htv
  end.

Ltac flags_unknown Htv :=
  unfold takesValue in Htv;
  repeat match goal with
         | H : isFlag _ _ = _ |- _ => rewrite H in Htv; clear H
         end;
  discriminate Htv.

(** An argument that is not an option with a value is read on its own. *)
Lemma parseLoop_single (arg : jsstring) (rest : list jsstring)
  (options : CLIOptions) :
  takesValue arg = false ->
  parseLoop (arg :: rest) options = parseLoop rest (parseLoop [arg] options).
Proof.
  intros Htv. cbn [parseLoop].
  repeat (branch_on_flag arg;
          [first [reflexivity|flags_unknown Htv]..|]).
  reflexivity.
Qed.

(** An option with a value is read with its value. *)
Lemma parseLoop_pair (arg value : jsstring) (rest : list jsstring)
  (options : CLIOptions) :
  takesValue arg = true ->
  parseLoop (arg :: value :: rest) options
  = parseLoop rest (parseLoop [arg; value] options).
Proof.
  intros Htv. cbn [parseLoop].
  repeat (branch_on_flag arg;
          [first [reflexivity|flag_known Htv]..|]).
  flags_unknown Htv.
Qed.

Lemma parseLoop_app_bounded (n : nat) (a b : list jsstring)
  (options : CLIOptions) :
  List.length a <= n ->
  complete a = true ->
  parseLoop (a ++ b) options = parseLoop b (parseLoop a options).
Proof.
  revert a options. induction n as [|n IH]; intros a options Hlen Hcomplete.
  - destruct a; [reflexivity|cbn in Hlen; lia].
  - destruct a as [|arg rest]; [reflexivity|].
    cbn [complete] in Hcomplete. cbn [List.length] in Hlen.
    destruct (takesValue arg) eqn:Htv.
    + destruct rest as [|value rest]; [discriminate|].
      cbn [List.length] in Hlen. cbn [app].
      rewrite (parseLoop_pair arg value (rest ++ b) options Htv).
      rewrite (parseLoop_pair arg value rest options Htv).
      apply IH; [lia|exact Hcomplete].
    + cbn [app].
      rewrite (parseLoop_single arg (rest ++ b) options Htv).
      rewrite (parseLoop_single arg rest options Htv).
      apply IH; [lia|exact Hcomplete].
Qed.

End CommandLineParts.

(** X30.  The command line is read from left to right, one option at a
    time: when a first part of it does not end on an option whose value
    is still to come, reading the whole line is reading the rest after
    the first part.  So a later occurrence of an option replaces an
    earlier one, and the words of both parts make up the task. *)
Theorem parseLoop_app (a b : list jsstring) (options : Cli.CLIOptions) :
  Cli.complete a = true ->
  Cli.parseLoop (a ++ b) options = Cli.parseLoop b (Cli.parseLoop a options).
Proof.
  intros Hcomplete.
  now apply (parseLoop_app_bounded (List.length a) a b options).
Qed.

Lemma parseLoop_app_witness :
  Cli.parseLoop ([utf16 "-r"; utf16 "2"; utf16 "check"] ++ [utf16 "-r"])
    Cli.initialOptions
  = Cli.set_retries
      (Cli.set_task (Cli.set_retries Cli.initialOptions (Some (Cli.Int 2)))
         (utf16 "check"))
      (Some (Cli.Int 0)).
Proof.
  rewrite (parseLoop_app [utf16 "-r"; utf16 "2"; utf16 "check"] [utf16 "-r"]
             Cli.initialOptions).
  - vm_compute. reflexivity.
  - vm_compute. reflexivity.
Defined.
